(** * LibraryProject: the borrow ledger, the book and member registries and
      the most-borrowed report, verified against their specification.

    The program is a thin layer of Python functions over a SQLite file.
    Every function opens a connection, runs a few SQL statements and closes
    the connection.  The embedding below keeps that shape:

    - a table with an [INTEGER PRIMARY KEY AUTOINCREMENT] column is a finite
      map from the key to the remaining columns, together with the counter
      SQLite keeps for it in [sqlite_sequence];
    - a connection is a pair of databases, the committed one and the one the
      open transaction works on; [commit] publishes, [rollback] and [close]
      discard;
    - a SQL statement is a function on the working database which either
      returns what the cursor exposes ([rowcount], [lastrowid], [fetchone])
      or raises, in which case the statement changed nothing;
    - a Python function is a function from the database file before the call
      to the outcome (value returned or exception raised) and the database
      file after the call.

    Integers are modelled as [Z]; a Python argument that may be [None] is
    an [option]; text is [string].  SQLite holds 64-bit integers: binding a
    Python int outside that range raises [OverflowError] before the
    statement runs.  The rowids AUTOINCREMENT hands out are not bounded
    here, so a key a table already holds counts as an integer SQLite
    holds. *)

From stdpp Require Import gmap strings list fin_maps sorting.

Local Open Scope Z_scope.

(** ** Python outcomes *)

Inductive exn : Type :=
| ValueError      (* raised by the Python code itself *)
| IntegrityError  (* sqlite3.IntegrityError: a schema constraint failed *)
| OverflowError.  (* a Python int too large to convert to SQLite INTEGER *)

Inductive outcome (A : Type) : Type :=
| Returns (a : A)
| Raises (e : exn).
Arguments Returns {A} a.
Arguments Raises {A} e.

(** ** db.py: the schema *)

(** [Books]: title and author are [TEXT NOT NULL], year is a nullable
    [INTEGER], available is [INTEGER NOT NULL]. *)
Record Books_row : Type := {
  Books_title     : string;
  Books_author    : string;
  Books_year      : option Z;
  Books_available : Z
}.

(** [Users]: name is [TEXT NOT NULL], phone is nullable, email is nullable
    and [UNIQUE]. *)
Record Users_row : Type := {
  Users_name  : string;
  Users_phone : option string;
  Users_email : option string
}.

(** [Borrow]: both references and the borrow date are [NOT NULL]; a
    [return_date] of [None] is SQL [NULL], the record is then open. *)
Record Borrow_row : Type := {
  Borrow_book_id     : Z;
  Borrow_user_id     : Z;
  Borrow_borrow_date : string;
  Borrow_return_date : option string
}.

Record database : Type := {
  Books      : gmap Z Books_row;
  Users      : gmap Z Users_row;
  Borrow     : gmap Z Borrow_row;
  seq_Books  : Z;   (* sqlite_sequence row of Books *)
  seq_Users  : Z;   (* sqlite_sequence row of Users *)
  seq_Borrow : Z    (* sqlite_sequence row of Borrow *)
}.

(** [init_db] on a fresh file: the three tables exist and are empty. *)
Definition init_db : database :=
  {| Books := ∅; Users := ∅; Borrow := ∅;
     seq_Books := 0; seq_Users := 0; seq_Borrow := 0 |}.

Definition set_Books (f : gmap Z Books_row → gmap Z Books_row) (d : database) : database :=
  {| Books := f (Books d); Users := Users d; Borrow := Borrow d;
     seq_Books := seq_Books d; seq_Users := seq_Users d; seq_Borrow := seq_Borrow d |}.

Definition set_Users (f : gmap Z Users_row → gmap Z Users_row) (d : database) : database :=
  {| Books := Books d; Users := f (Users d); Borrow := Borrow d;
     seq_Books := seq_Books d; seq_Users := seq_Users d; seq_Borrow := seq_Borrow d |}.

Definition set_Borrow (f : gmap Z Borrow_row → gmap Z Borrow_row) (d : database) : database :=
  {| Books := Books d; Users := Users d; Borrow := f (Borrow d);
     seq_Books := seq_Books d; seq_Users := seq_Users d; seq_Borrow := seq_Borrow d |}.

(** ** The connection *)

Record connection : Type := {
  committed : database;   (* what the file holds *)
  working   : database    (* what the statements of this connection see *)
}.

Definition get_connection (file : database) : connection :=
  {| committed := file; working := file |}.

Definition commit (conn : connection) : connection :=
  {| committed := working conn; working := working conn |}.

Definition rollback (conn : connection) : connection :=
  {| committed := committed conn; working := committed conn |}.

(** Closing (or dropping) a connection leaves the committed file. *)
Definition close (conn : connection) : database := committed conn.

(** [cur.execute]: run a statement on the working database. *)
Definition execute {A : Type} (stmt : database → outcome A * database)
    (conn : connection) : outcome A * connection :=
  let (r, w) := stmt (working conn) in
  (r, {| committed := committed conn; working := w |}).

(** ** SQL building blocks *)

(** The integers a parameter can carry. *)
Definition int64 (z : Z) : bool :=
  (-9223372036854775808 <=? z) && (z <=? 9223372036854775807).

(** Can [z] be bound where it names a row of [tbl]? *)
Definition binds {row : Type} (tbl : gmap Z row) (z : Z) : bool :=
  int64 z || bool_decide (is_Some (tbl !! z)).

(** [cur.execute(sql, params)] converts the parameters before it runs the
    statement; when one cannot be converted nothing runs. *)
Definition binding {A : Type} (ok : bool) (d : database)
    (run : outcome A * database) : outcome A * database :=
  if ok then run else (Raises OverflowError, d).

(** What a lookup by an integer no row carries comes to: the "not found"
    answer [r] when the integer binds, [OverflowError] when it does not. *)
Definition not_found {A : Type} (z : Z) (r : A) (d : database) : outcome A * database :=
  if int64 z then (Returns r, d) else (Raises OverflowError, d).

(** Largest rowid in a table, 0 for the empty table. *)
Definition max_rowid {row : Type} (tbl : gmap Z row) : Z :=
  map_fold (λ k _ acc, Z.max k acc) 0 tbl.

(** AUTOINCREMENT: one more than the largest rowid the table has or ever
    had. *)
Definition next_rowid {row : Type} (seq : Z) (tbl : gmap Z row) : Z :=
  Z.max seq (max_rowid tbl) + 1.

(** [SELECT COUNT( * ) FROM tbl WHERE P]. *)
Definition count_where {row : Type} (P : row → Prop) `{!∀ r, Decision (P r)}
    (tbl : gmap Z row) : nat :=
  length (filter P (map_to_list tbl).*2).

(** A borrow record is open while its return date is NULL. *)
Definition is_open (b : Borrow_row) : Prop := Borrow_return_date b = None.

Global Instance is_open_dec b : Decision (is_open b).
Proof. unfold is_open. apply _. Defined.

(** Foreign keys are enforced ([PRAGMA foreign_keys = ON]). *)
Definition book_referenced (d : database) (book_id : Z) : bool :=
  (0 <? count_where (λ b, Borrow_book_id b = book_id) (Borrow d))%nat.

Definition user_referenced (d : database) (user_id : Z) : bool :=
  (0 <? count_where (λ b, Borrow_user_id b = user_id) (Borrow d))%nat.

(** UNIQUE(email): is the non-NULL [email] held by a row other than [self]? *)
Definition email_taken (d : database) (self : option Z) (email : string) : bool :=
  bool_decide (Exists (λ kr, Some kr.1 ≠ self ∧ Users_email kr.2 = Some email)
                      (map_to_list (Users d))).

(** ** books.py *)

(** INSERT INTO Books (title, author, year, available) VALUES (?, ?, ?, 1) *)
Definition insert_Books (title author : option string) (year : option Z)
    (d : database) : outcome Z * database :=
  binding (match year with Some y => int64 y | None => true end) d
    match title, author with
    | Some t, Some a =>
        let lastrowid := next_rowid (seq_Books d) (Books d) in
        let row := {| Books_title := t; Books_author := a; Books_year := year;
                      Books_available := 1 |} in
        (Returns lastrowid,
         {| Books := <[lastrowid := row]> (Books d); Users := Users d; Borrow := Borrow d;
            seq_Books := lastrowid; seq_Users := seq_Users d;
            seq_Borrow := seq_Borrow d |})
    | _, _ => (Raises IntegrityError, d)
    end.

Definition add_book (title author : option string) (year : option Z)
    (file : database) : outcome Z * database :=
  let conn := get_connection file in
  match execute (insert_Books title author year) conn with
  | (Raises e, conn) => (Raises e, close conn)
  | (Returns lastrowid, conn) =>
      let conn := commit conn in
      let book_id := lastrowid in
      (Returns book_id, close conn)
  end.

(** UPDATE Books SET available = ? WHERE book_id = ?   (gives rowcount) *)
Definition update_Books_available (available book_id : Z)
    (d : database) : outcome nat * database :=
  binding (int64 available && binds (Books d) book_id) d
    match Books d !! book_id with
    | Some bk =>
        (Returns 1%nat,
         set_Books (insert book_id
           {| Books_title := Books_title bk; Books_author := Books_author bk;
              Books_year := Books_year bk; Books_available := available |}) d)
    | None => (Returns 0%nat, d)
    end.

Definition update_book_availability (book_id available : Z)
    (file : database) : outcome bool * database :=
  if negb ((available =? 0) || (available =? 1)) then (Raises ValueError, file)
  else
    let conn := get_connection file in
    match execute (update_Books_available available book_id) conn with
    | (Raises e, conn) => (Raises e, close conn)
    | (Returns rowcount, conn) =>
        let conn := commit conn in
        let updated := (0 <? rowcount)%nat in
        (Returns updated, close conn)
    end.

(** DELETE FROM Books WHERE book_id = ?   (gives rowcount) *)
Definition delete_Books (book_id : Z) (d : database) : outcome nat * database :=
  binding (binds (Books d) book_id) d
    match Books d !! book_id with
    | Some _ =>
        if book_referenced d book_id then (Raises IntegrityError, d)
        else (Returns 1%nat, set_Books (delete book_id) d)
    | None => (Returns 0%nat, d)
    end.

(** SELECT COUNT( * ) AS cnt FROM Borrow WHERE book_id = ? *)
Definition count_Borrow_of_book (book_id : Z) (d : database) : outcome nat * database :=
  binding (binds (Books d) book_id) d
    (Returns (count_where (λ b, Borrow_book_id b = book_id) (Borrow d)), d).

Definition delete_book (book_id : Z) (file : database) : outcome bool * database :=
  let conn := get_connection file in
  match execute (count_Borrow_of_book book_id) conn with
  | (Raises e, conn) => (Raises e, close conn)
  | (Returns cnt, conn) =>
      if (0 <? cnt)%nat then (Returns false, close conn)
      else
        match execute (delete_Books book_id) conn with
        | (Raises e, conn) => (Raises e, close conn)
        | (Returns rowcount, conn) =>
            let conn := commit conn in
            let deleted := (0 <? rowcount)%nat in
            (Returns deleted, close conn)
        end
  end.

(** ** users.py *)

(** INSERT INTO Users (name, phone, email) VALUES (?, ?, ?) *)
Definition insert_Users (name phone email : option string)
    (d : database) : outcome Z * database :=
  match name with
  | None => (Raises IntegrityError, d)
  | Some n =>
      if match email with Some e => email_taken d None e | None => false end
      then (Raises IntegrityError, d)
      else
        let lastrowid := next_rowid (seq_Users d) (Users d) in
        let row := {| Users_name := n; Users_phone := phone; Users_email := email |} in
        (Returns lastrowid,
         {| Books := Books d; Users := <[lastrowid := row]> (Users d); Borrow := Borrow d;
            seq_Books := seq_Books d; seq_Users := lastrowid; seq_Borrow := seq_Borrow d |})
  end.

Definition create_user (name phone email : option string)
    (file : database) : outcome Z * database :=
  let conn := get_connection file in
  match execute (insert_Users name phone email) conn with
  | (Raises e, conn) => (Raises e, close conn)
  | (Returns lastrowid, conn) =>
      let conn := commit conn in
      let user_id := lastrowid in
      (Returns user_id, close conn)
  end.

(** UPDATE Users SET <the fields that are not None> WHERE user_id = ? *)
Definition update_Users (user_id : Z) (name phone email : option string)
    (d : database) : outcome nat * database :=
  binding (binds (Users d) user_id) d
    match Users d !! user_id with
    | None => (Returns 0%nat, d)
    | Some u =>
        if match email with Some e => email_taken d (Some user_id) e | None => false end
        then (Raises IntegrityError, d)
        else
          let row := {| Users_name := default (Users_name u) name;
                        Users_phone := match phone with
                                       | Some p => Some p
                                       | None => Users_phone u
                                       end;
                        Users_email := match email with
                                       | Some e => Some e
                                       | None => Users_email u
                                       end |} in
          (Returns 1%nat, set_Users (insert user_id row) d)
    end.

Definition update_user (user_id : Z) (name phone email : option string)
    (file : database) : outcome bool * database :=
  match name, phone, email with
  | None, None, None => (Returns false, file)
  | _, _, _ =>
      let conn := get_connection file in
      match execute (update_Users user_id name phone email) conn with
      | (Raises e, conn) => (Raises e, close conn)
      | (Returns rowcount, conn) =>
          let conn := commit conn in
          let updated := (0 <? rowcount)%nat in
          (Returns updated, close conn)
      end
  end.

(** DELETE FROM Users WHERE user_id = ?   (gives rowcount) *)
Definition delete_Users (user_id : Z) (d : database) : outcome nat * database :=
  binding (binds (Users d) user_id) d
    match Users d !! user_id with
    | Some _ =>
        if user_referenced d user_id then (Raises IntegrityError, d)
        else (Returns 1%nat, set_Users (delete user_id) d)
    | None => (Returns 0%nat, d)
    end.

(** SELECT COUNT( * ) AS cnt FROM Borrow WHERE user_id = ? AND return_date IS NULL *)
Definition count_open_Borrow_of_user (user_id : Z) (d : database)
    : outcome nat * database :=
  binding (binds (Users d) user_id) d
    (Returns (count_where (λ b, Borrow_user_id b = user_id ∧ is_open b) (Borrow d)), d).

Definition delete_user (user_id : Z) (file : database) : outcome bool * database :=
  let conn := get_connection file in
  match execute (count_open_Borrow_of_user user_id) conn with
  | (Raises e, conn) => (Raises e, close conn)
  | (Returns active_count, conn) =>
      if (0 <? active_count)%nat then (Returns false, close conn)
      else
        match execute (delete_Users user_id) conn with
        | (Raises e, conn) => (Raises e, close conn)
        | (Returns rowcount, conn) =>
            let conn := commit conn in
            let deleted := (0 <? rowcount)%nat in
            (Returns deleted, close conn)
        end
  end.

(** ** borrow.py *)

(** SELECT 1 FROM Users WHERE user_id = ?   (gives fetchone) *)
Definition select_1_Users (user_id : Z) (d : database) : outcome (option Z) * database :=
  binding (binds (Users d) user_id) d
    (Returns (match Users d !! user_id with Some _ => Some 1 | None => None end), d).

(** UPDATE Books SET available = 0 WHERE book_id = ? AND available = 1 *)
Definition update_Books_take (book_id : Z) (d : database) : outcome nat * database :=
  binding (binds (Books d) book_id) d
    match Books d !! book_id with
    | Some bk =>
        if Books_available bk =? 1 then
          (Returns 1%nat,
           set_Books (insert book_id
             {| Books_title := Books_title bk; Books_author := Books_author bk;
                Books_year := Books_year bk; Books_available := 0 |}) d)
        else (Returns 0%nat, d)
    | None => (Returns 0%nat, d)
    end.

(** INSERT INTO Borrow (book_id, user_id, borrow_date, return_date)
    VALUES (?, ?, ?, NULL) *)
Definition insert_Borrow (book_id user_id : Z) (borrow_date : option string)
    (d : database) : outcome Z * database :=
  binding (binds (Books d) book_id && binds (Users d) user_id) d
    match borrow_date with
    | None => (Raises IntegrityError, d)
    | Some date =>
        match Books d !! book_id, Users d !! user_id with
        | Some _, Some _ =>
            let lastrowid := next_rowid (seq_Borrow d) (Borrow d) in
            let row := {| Borrow_book_id := book_id; Borrow_user_id := user_id;
                          Borrow_borrow_date := date; Borrow_return_date := None |} in
            (Returns lastrowid,
             {| Books := Books d; Users := Users d;
                Borrow := <[lastrowid := row]> (Borrow d);
                seq_Books := seq_Books d; seq_Users := seq_Users d;
                seq_Borrow := lastrowid |})
        | _, _ => (Raises IntegrityError, d)
        end
    end.

Definition borrow_book (user_id book_id : Z) (borrow_date : option string)
    (file : database) : outcome (option Z) * database :=
  let conn := get_connection file in
  (* try: *)
  match execute (select_1_Users user_id) conn with
  | (Raises e, conn) => let conn := rollback conn in (Raises e, close conn)
  | (Returns None, conn) => (Returns None, close conn)
  | (Returns (Some _), conn) =>
      match execute (update_Books_take book_id) conn with
      | (Raises e, conn) => let conn := rollback conn in (Raises e, close conn)
      | (Returns rowcount, conn) =>
          if (rowcount =? 0)%nat then (Returns None, close conn)
          else
            match execute (insert_Borrow book_id user_id borrow_date) conn with
            | (Raises e, conn) => let conn := rollback conn in (Raises e, close conn)
            | (Returns lastrowid, conn) =>
                let borrow_id := lastrowid in
                let conn := commit conn in
                (Returns (Some borrow_id), close conn)
            end
      end
  end.

(** SELECT book_id FROM Borrow WHERE borrow_id = ? AND return_date IS NULL *)
Definition select_open_Borrow (borrow_id : Z) (d : database) : outcome (option Z) * database :=
  binding (binds (Borrow d) borrow_id) d
    (Returns (match Borrow d !! borrow_id with
              | Some b => if decide (is_open b) then Some (Borrow_book_id b) else None
              | None => None
              end), d).

(** UPDATE Borrow SET return_date = ? WHERE borrow_id = ? AND return_date IS NULL *)
Definition update_Borrow_close (return_date : option string) (borrow_id : Z)
    (d : database) : outcome nat * database :=
  binding (binds (Borrow d) borrow_id) d
    match Borrow d !! borrow_id with
    | Some b =>
        if decide (is_open b) then
          (Returns 1%nat,
           set_Borrow (insert borrow_id
             {| Borrow_book_id := Borrow_book_id b; Borrow_user_id := Borrow_user_id b;
                Borrow_borrow_date := Borrow_borrow_date b;
                Borrow_return_date := return_date |}) d)
        else (Returns 0%nat, d)
    | None => (Returns 0%nat, d)
    end.

(** UPDATE Books SET available = 1 WHERE book_id = ?   (gives rowcount)
    The parameter is the [book_id] the first statement read from the
    record: an integer SQLite holds, so it binds. *)
Definition update_Books_give_back (book_id : Z) (d : database) : outcome nat * database :=
  match Books d !! book_id with
  | Some bk =>
      (Returns 1%nat,
       set_Books (insert book_id
         {| Books_title := Books_title bk; Books_author := Books_author bk;
            Books_year := Books_year bk; Books_available := 1 |}) d)
  | None => (Returns 0%nat, d)
  end.

Definition return_book (borrow_id : Z) (return_date : option string)
    (file : database) : outcome bool * database :=
  let conn := get_connection file in
  (* try: *)
  match execute (select_open_Borrow borrow_id) conn with
  | (Raises e, conn) => let conn := rollback conn in (Raises e, close conn)
  | (Returns None, conn) => (Returns false, close conn)
  | (Returns (Some book_id), conn) =>
      match execute (update_Borrow_close return_date borrow_id) conn with
      | (Raises e, conn) => let conn := rollback conn in (Raises e, close conn)
      | (Returns rowcount, conn) =>
          if (rowcount =? 0)%nat then (Returns false, close conn)
          else
            match execute (update_Books_give_back book_id) conn with
            | (Raises e, conn) => let conn := rollback conn in (Raises e, close conn)
            | (Returns _, conn) =>
                let conn := commit conn in
                (Returns true, close conn)
            end
      end
  end.

(** ** reports.py *)

Record most_borrowed_row : Type := {
  title        : string;
  author       : string;
  borrow_count : nat
}.

(** FROM Borrow AS b JOIN Books AS bk ON bk.book_id = b.book_id *)
Definition join_Borrow_Books (d : database) : list (Borrow_row * Books_row) :=
  omap (λ b, bk ← Books d !! Borrow_book_id b; Some (b, bk)) (map_to_list (Borrow d)).*2.

(** GROUP BY bk.title, bk.author *)
Definition group_key (jr : Borrow_row * Books_row) : string * string :=
  (Books_title jr.2, Books_author jr.2).

(** ORDER BY borrow_count DESC *)
Definition by_count_desc (r1 r2 : most_borrowed_row) : Prop :=
  (borrow_count r2 ≤ borrow_count r1)%nat.

Global Instance by_count_desc_dec r1 r2 : Decision (by_count_desc r1 r2).
Proof. unfold by_count_desc. apply _. Defined.

(** SQL leaves the order of groups with equal counts open; the sort below
    fixes one, and nothing proved here depends on which. *)
Definition most_borrowed_books (d : database) : list most_borrowed_row :=
  let joined := join_Borrow_Books d in
  let groups := remove_dups (group_key <$> joined) in
  let rows :=
    (λ k, {| title := k.1; author := k.2;
             borrow_count := length (filter (λ jr, group_key jr = k) joined) |})
      <$> groups in
  merge_sort by_count_desc rows.

(** The borrow records that the join pairs with a copy of title and author
    [k]. *)
Definition borrows_title (d : database) (k : string * string) (b : Borrow_row) : Prop :=
  match Books d !! Borrow_book_id b with
  | Some bk => (Books_title bk, Books_author bk) = k
  | None => False
  end.

Global Instance borrows_title_dec d k b : Decision (borrows_title d k b).
Proof. unfold borrows_title. destruct (Books d !! Borrow_book_id b); apply _. Defined.

(** The report row of a group. *)
Definition group_row (k : string * string) (n : nat) : most_borrowed_row :=
  {| title := k.1; author := k.2; borrow_count := n |}.

(** ** Sequences of calls *)

(** The functions that write to the store; every other function of the
    program only reads. *)
Inductive call : Type :=
| Add_book (title author : option string) (year : option Z)
| Update_book_availability (book_id available : Z)
| Delete_book (book_id : Z)
| Create_user (name phone email : option string)
| Update_user (user_id : Z) (name phone email : option string)
| Delete_user (user_id : Z)
| Borrow_book (user_id book_id : Z) (borrow_date : option string)
| Return_book (borrow_id : Z) (return_date : option string).

(** The store after a call, whatever it returned or raised. *)
Definition run (c : call) (file : database) : database :=
  match c with
  | Add_book t a y => (add_book t a y file).2
  | Update_book_availability b v => (update_book_availability b v file).2
  | Delete_book b => (delete_book b file).2
  | Create_user n p e => (create_user n p e file).2
  | Update_user u n p e => (update_user u n p e file).2
  | Delete_user u => (delete_user u file).2
  | Borrow_book u b dt => (borrow_book u b dt file).2
  | Return_book i dt => (return_book i dt file).2
  end.

Definition run_all (cs : list call) (file : database) : database :=
  foldl (λ d c, run c d) file cs.

(** At most one open borrow record per book copy. *)
Definition one_open_per_copy (d : database) : Prop :=
  ∀ i j bi bj,
    Borrow d !! i = Some bi → Borrow d !! j = Some bj →
    is_open bi → is_open bj →
    Borrow_book_id bi = Borrow_book_id bj → i = j.

(** A copy that is out is flagged unavailable. *)
Definition open_means_unavailable (d : database) : Prop :=
  ∀ i b, Borrow d !! i = Some b → is_open b →
    ∃ bk, Books d !! Borrow_book_id b = Some bk ∧ Books_available bk ≠ 1.

(** Calls that respect the ledger: the administrative override is not used
    to flag a copy available while a borrow record on it is open, and a
    return carries a date. *)
Definition respects_ledger (c : call) (d : database) : Prop :=
  match c with
  | Update_book_availability book_id available =>
      available = 1 →
      ∀ i b, Borrow d !! i = Some b → is_open b → Borrow_book_id b ≠ book_id
  | Return_book _ return_date => is_Some return_date
  | _ => True
  end.

Inductive ledger_reachable : database → Prop :=
| ledger_init : ledger_reachable init_db
| ledger_step d c :
    ledger_reachable d → respects_ledger c d → ledger_reachable (run c d).

(** ** States the functions lead to *)

(** The row of a copy after the ledger or the override wrote its flag. *)
Definition with_available (v : Z) (bk : Books_row) : Books_row :=
  {| Books_title := Books_title bk; Books_author := Books_author bk;
     Books_year := Books_year bk; Books_available := v |}.

(** The row of a borrow record after its return date was written. *)
Definition with_return_date (dt : option string) (b : Borrow_row) : Borrow_row :=
  {| Borrow_book_id := Borrow_book_id b; Borrow_user_id := Borrow_user_id b;
     Borrow_borrow_date := Borrow_borrow_date b; Borrow_return_date := dt |}.

(** The store after a successful borrow: the copy is flagged 0 and the new
    open record sits under the next rowid. *)
Definition after_borrow (user_id book_id : Z) (date : string) (bk : Books_row)
    (file : database) : database :=
  let borrow_id := next_rowid (seq_Borrow file) (Borrow file) in
  {| Books := <[book_id := with_available 0 bk]> (Books file);
     Users := Users file;
     Borrow := <[borrow_id := {| Borrow_book_id := book_id; Borrow_user_id := user_id;
                                 Borrow_borrow_date := date;
                                 Borrow_return_date := None |}]> (Borrow file);
     seq_Books := seq_Books file; seq_Users := seq_Users file;
     seq_Borrow := borrow_id |}.

(** The store after a return: the record carries the date and the copy, if
    its row exists, is flagged 1. *)
Definition after_return (borrow_id : Z) (return_date : option string) (b : Borrow_row)
    (file : database) : database :=
  let closed := set_Borrow (insert borrow_id (with_return_date return_date b)) file in
  match Books file !! Borrow_book_id b with
  | Some bk => set_Books (insert (Borrow_book_id b) (with_available 1 bk)) closed
  | None => closed
  end.

(** * Example stores *)

(** Two copies of one title, one other book, two members, nothing borrowed. *)
Definition stocked_library : database :=
  run_all [Add_book (Some "Harry Potter") (Some "J.K. Rowling") (Some 1997);
           Add_book (Some "Harry Potter") (Some "J.K. Rowling") (Some 1997);
           Add_book (Some "Clean Code") (Some "Robert C. Martin") (Some 2008);
           Create_user (Some "Alice Cohen") (Some "050-1111111") (Some "alice@example.com");
           Create_user (Some "Bob Levi") (Some "052-2222222") (Some "bob@example.com")]
          init_db.

(** Copy 1 is out with member 1 (record 1, open); copy 2 went out with
    member 2 and came back (record 2, closed). *)
Definition busy_library : database :=
  run_all [Borrow_book 1 1 (Some "2025-12-19");
           Borrow_book 2 2 (Some "2025-12-19");
           Return_book 2 (Some "2025-12-20")]
          stocked_library.

(** A member borrows a copy, the override flags the copy available while
    it is out, and the copy is borrowed again. *)
Definition override_script : list call :=
  [Create_user (Some "Alice Cohen") None None;
   Add_book (Some "Clean Code") (Some "Robert C. Martin") (Some 2008);
   Borrow_book 1 1 (Some "2025-01-01");
   Update_book_availability 1 1;
   Borrow_book 1 1 (Some "2025-01-02")].

(** A member borrows a copy, the borrow is returned with [None] as the
    date, and the copy is borrowed again. *)
Definition null_return_script : list call :=
  [Create_user (Some "Alice Cohen") None None;
   Add_book (Some "Clean Code") (Some "Robert C. Martin") (Some 2008);
   Borrow_book 1 1 (Some "2025-01-01");
   Return_book 1 None;
   Borrow_book 1 1 (Some "2025-01-02")].

(** A store the program itself never produces: record 1 is open on copy 7,
    and [Books] has no row 7. *)
Definition orphaned_record : database :=
  {| Books := ∅;
     Users := {[ 1 := {| Users_name := "Alice Cohen"; Users_phone := None;
                         Users_email := None |} ]};
     Borrow := {[ 1 := {| Borrow_book_id := 7; Borrow_user_id := 1;
                          Borrow_borrow_date := "2025-01-01";
                          Borrow_return_date := None |} ]};
     seq_Books := 7; seq_Users := 1; seq_Borrow := 1 |}.

(** ** Consistency of a store *)

(** Every borrow record references a copy that has a row. *)
Definition book_references_resolve (d : database) : Prop :=
  ∀ i b, Borrow d !! i = Some b → is_Some (Books d !! Borrow_book_id b).

(** The ledger and the flags agree. *)
Definition ledger_consistent (d : database) : Prop :=
  one_open_per_copy d ∧ open_means_unavailable d.

(** ** Further consistency notions *)

(** Every borrow record references a member that has a row. *)
Definition member_references_resolve (d : database) : Prop :=
  ∀ i b, Borrow d !! i = Some b → is_Some (Users d !! Borrow_user_id b).

(** UNIQUE(email): a non-NULL email belongs to one member. *)
Definition emails_unique (d : database) : Prop :=
  ∀ i j ui uj e,
    Users d !! i = Some ui → Users d !! j = Some uj →
    Users_email ui = Some e → Users_email uj = Some e → i = j.

(** The availability flag of every copy is 0 or 1. *)
Definition flags_are_boolean (d : database) : Prop :=
  ∀ k bk, Books d !! k = Some bk → Books_available bk = 0 ∨ Books_available bk = 1.

(** The row [update_user] writes: a field given as [None] keeps its value. *)
Definition updated_user (name phone email : option string) (u : Users_row) : Users_row :=
  {| Users_name := default (Users_name u) name;
     Users_phone := match phone with Some p => Some p | None => Users_phone u end;
     Users_email := match email with Some e => Some e | None => Users_email u end |}.

(** ** The writes a call can make

    A call either leaves the store as it was or makes exactly one of the
    eight writes below; the side conditions are what the function checked
    before writing. *)
Inductive write_effect (d : database) : database → Prop :=
| wrote_nothing : write_effect d d
| wrote_new_book t a y :
    write_effect d
      {| Books := <[next_rowid (seq_Books d) (Books d) :=
                     {| Books_title := t; Books_author := a; Books_year := y;
                        Books_available := 1 |}]> (Books d);
         Users := Users d; Borrow := Borrow d;
         seq_Books := next_rowid (seq_Books d) (Books d);
         seq_Users := seq_Users d; seq_Borrow := seq_Borrow d |}
| wrote_flag k bk v :
    Books d !! k = Some bk → v = 0 ∨ v = 1 →
    write_effect d (set_Books (insert k (with_available v bk)) d)
| wrote_book_deleted k :
    (∀ i b, Borrow d !! i = Some b → Borrow_book_id b ≠ k) →
    write_effect d (set_Books (delete k) d)
| wrote_new_user n p e :
    (∀ e0 k u, e = Some e0 → Users d !! k = Some u → Users_email u ≠ Some e0) →
    write_effect d
      {| Books := Books d;
         Users := <[next_rowid (seq_Users d) (Users d) :=
                     {| Users_name := n; Users_phone := p; Users_email := e |}]>
                    (Users d);
         Borrow := Borrow d;
         seq_Books := seq_Books d;
         seq_Users := next_rowid (seq_Users d) (Users d);
         seq_Borrow := seq_Borrow d |}
| wrote_user_updated k u n p e :
    Users d !! k = Some u →
    (∀ e0 j v, e = Some e0 → Users d !! j = Some v → j ≠ k → Users_email v ≠ Some e0) →
    write_effect d (set_Users (insert k (updated_user n p e u)) d)
| wrote_user_deleted k :
    (∀ i b, Borrow d !! i = Some b → Borrow_user_id b ≠ k) →
    write_effect d (set_Users (delete k) d)
| wrote_borrow u k date bk :
    is_Some (Users d !! u) → Books d !! k = Some bk → Books_available bk = 1 →
    write_effect d (after_borrow u k date bk d)
| wrote_return i dt b :
    Borrow d !! i = Some b → is_open b →
    write_effect d (after_return i dt b d).

(** ** Reading the tables

    The functions below only read; the store after them is the store
    before them, so they are modelled by their result alone.  Where SQL
    leaves the order of rows open (rows with equal sort keys) the model
    fixes one, and nothing proved depends on which. *)

(** BINARY collation: text is compared byte by byte, a prefix first. *)
Definition text_le (s1 s2 : string) : Prop := String.leb s1 s2 = true.

Global Instance text_le_dec s1 s2 : Decision (text_le s1 s2).
Proof. unfold text_le. apply _. Defined.

(** NULL sorts before every value. *)
Definition nulls_first {A : Type} (le : relation A) (x y : option A) : Prop :=
  match x, y with
  | None, _ => True
  | Some _, None => False
  | Some a, Some b => le a b
  end.

Global Instance nulls_first_dec {A : Type} (le : relation A) `{!RelDecision le} x y :
  Decision (nulls_first le x y).
Proof. destruct x, y; simpl; apply _. Defined.

(** [ORDER BY key] and [ORDER BY key DESC]. *)
Definition asc {A K : Type} (le : relation K) (key : A → K) : relation A :=
  λ x y, le (key x) (key y).

Definition desc {A K : Type} (le : relation K) (key : A → K) : relation A :=
  λ x y, le (key y) (key x).

Global Instance asc_dec {A K : Type} (le : relation K) `{!RelDecision le} (key : A → K) x y :
  Decision (asc le key x y).
Proof. unfold asc. apply _. Defined.

Global Instance desc_dec {A K : Type} (le : relation K) `{!RelDecision le} (key : A → K) x y :
  Decision (desc le key x y).
Proof. unfold desc. apply _. Defined.

(** [ORDER BY k1, k2]: by the first key, rows equal on it by the second. *)
Definition then_by {A : Type} (le1 le2 : relation A) : relation A :=
  λ x y, (le1 x y ∧ ¬ le1 y x) ∨ (le1 x y ∧ le1 y x ∧ le2 x y).

Global Instance then_by_dec {A : Type} (le1 le2 : relation A)
    `{!RelDecision le1} `{!RelDecision le2} x y : Decision (then_by le1 le2 x y).
Proof. unfold then_by. apply _. Defined.

(** A scan of a table visits its rows by ascending rowid. *)
Definition scan {row : Type} (tbl : gmap Z row) : list (Z * row) :=
  merge_sort (asc Z.le fst) (map_to_list tbl).

(** [column = ?]: never true when either side is NULL. *)
Definition sql_eq {A : Type} (column parameter : option A) : Prop :=
  match column, parameter with
  | Some c, Some p => c = p
  | _, _ => False
  end.

Global Instance sql_eq_dec {A : Type} `{!EqDecision A} (column parameter : option A) :
  Decision (sql_eq column parameter).
Proof. destruct column, parameter; simpl; apply _. Defined.

(** *** books.py *)

(** SELECT book_id, title, author, year, available FROM Books ORDER BY book_id *)
Definition list_books (file : database) : list (Z * Books_row) :=
  merge_sort (asc Z.le fst) (scan (Books file)).

(** SELECT book_id, title FROM Books WHERE available = 1 ORDER BY title *)
Definition available_books (file : database) : list (Z * string) :=
  (λ r, (r.1, Books_title r.2))
    <$> merge_sort (asc text_le (λ r, Books_title r.2))
          (filter (λ r, Books_available r.2 = 1) (scan (Books file))).

(** WHERE year BETWEEN ? AND ? *)
Definition year_between (lo hi : Z) (r : Z * Books_row) : Prop :=
  match Books_year r.2 with
  | Some y => lo ≤ y ∧ y ≤ hi
  | None => False
  end.

Global Instance year_between_dec lo hi r : Decision (year_between lo hi r).
Proof. unfold year_between. destruct (Books_year r.2); apply _. Defined.

(** ORDER BY year, title *)
Definition by_year_title : relation (Z * Books_row) :=
  then_by (asc (nulls_first Z.le) (λ r, Books_year r.2))
          (asc text_le (λ r, Books_title r.2)).

Definition books_between_years (year_from year_to : option Z) (file : database)
    : outcome (list (Z * Books_row)) :=
  match year_from, year_to with
  | Some year_from, Some year_to =>
      let '(year_from, year_to) :=
        if year_to <? year_from then (year_to, year_from) else (year_from, year_to) in
      if int64 year_from && int64 year_to then
        Returns (merge_sort by_year_title
                   (filter (year_between year_from year_to) (scan (Books file))))
      else Raises OverflowError
  | _, _ => Raises ValueError
  end.

(** *** users.py *)

(** SELECT user_id, name, phone, email FROM Users WHERE user_id = ? *)
Definition get_user (user_id : Z) (file : database)
    : outcome (option (Z * Users_row)) :=
  if binds (Users file) user_id then
    Returns (head (filter (λ r, r.1 = user_id) (scan (Users file))))
  else Raises OverflowError.

(** ... WHERE email = ?   (fetchone) *)
Definition find_user_by_email (email : option string) (file : database)
    : option (Z * Users_row) :=
  head (filter (λ r, sql_eq (Users_email r.2) email) (scan (Users file))).

(** The columns of a borrow joined with its copy. *)
Record user_borrow_row : Type := {
  ub_borrow_id   : Z;
  ub_book_id     : Z;
  ub_title       : string;
  ub_author      : string;
  ub_year        : option Z;
  ub_borrow_date : string;
  ub_return_date : option string
}.

(** FROM Borrow AS b JOIN Books AS bk ON bk.book_id = b.book_id, keeping
    the borrow_id. *)
Definition Borrow_join_Books (file : database) : list ((Z * Borrow_row) * Books_row) :=
  omap (λ b, bk ← Books file !! Borrow_book_id b.2; Some (b, bk)) (scan (Borrow file)).

Definition select_user_borrow (r : (Z * Borrow_row) * Books_row) : user_borrow_row :=
  {| ub_borrow_id := r.1.1; ub_book_id := Borrow_book_id r.1.2;
     ub_title := Books_title r.2; ub_author := Books_author r.2;
     ub_year := Books_year r.2;
     ub_borrow_date := Borrow_borrow_date r.1.2;
     ub_return_date := Borrow_return_date r.1.2 |}.

(** The listings by member below give the rows the cursor returns;
    [user_id] is taken to be an integer SQLite holds (on any other, each of
    them raises [OverflowError] at its one statement). *)
Definition borrowed_books_of_user (user_id : Z) (active_only : bool) (file : database)
    : list user_borrow_row :=
  if active_only then
    select_user_borrow
      <$> merge_sort (desc text_le (λ r, Borrow_borrow_date r.1.2))
            (filter (λ r, Borrow_user_id r.1.2 = user_id ∧ is_open r.1.2)
                    (Borrow_join_Books file))
  else
    select_user_borrow
      <$> merge_sort (desc text_le (λ r, Borrow_borrow_date r.1.2))
            (filter (λ r, Borrow_user_id r.1.2 = user_id) (Borrow_join_Books file)).

Definition count_borrowed_books_of_user (user_id : Z) (active_only : bool)
    (file : database) : nat :=
  if active_only then
    count_where (λ b, Borrow_user_id b = user_id ∧ is_open b) (Borrow file)
  else
    count_where (λ b, Borrow_user_id b = user_id) (Borrow file).

(** *** borrow.py *)

Definition list_user_borrows (user_id : Z) (active_only : bool) (file : database)
    : list user_borrow_row :=
  if active_only then
    select_user_borrow
      <$> merge_sort (desc text_le (λ r, Borrow_borrow_date r.1.2))
            (filter (λ r, Borrow_user_id r.1.2 = user_id ∧ is_open r.1.2)
                    (Borrow_join_Books file))
  else
    select_user_borrow
      <$> merge_sort (desc text_le (λ r, Borrow_borrow_date r.1.2))
            (filter (λ r, Borrow_user_id r.1.2 = user_id) (Borrow_join_Books file)).

(** SELECT user_id FROM Users WHERE phone = ?   (fetchone) *)
Definition get_user_id_by_phone (phone : option string) (file : database) : option Z :=
  match head (filter (λ r, sql_eq (Users_phone r.2) phone) (scan (Users file))) with
  | None => None
  | Some row => Some row.1
  end.

Definition list_borrows_by_phone (phone : option string) (active_only : bool)
    (file : database) : list user_borrow_row :=
  match get_user_id_by_phone phone file with
  | None => []
  | Some user_id => list_user_borrows user_id active_only file
  end.

Global Instance Users_row_eq_dec : EqDecision Users_row.
Proof. solve_decision. Defined.

(** SELECT DISTINCT u.user_id, u.name, u.phone, u.email
    FROM Borrow AS b JOIN Users AS u ON u.user_id = b.user_id
    WHERE b.return_date IS NULL ORDER BY u.name *)
Definition list_active_users (file : database) : list (Z * Users_row) :=
  merge_sort (asc text_le (λ r, Users_name r.2))
    (remove_dups
       (omap (λ b, u ← Users file !! Borrow_user_id b.2; Some (Borrow_user_id b.2, u))
             (filter (λ b, is_open b.2) (scan (Borrow file))))).

(** *** reports.py *)

(** SELECT book_id, title, author, year FROM Books WHERE available = 1
    ORDER BY title *)
Definition currently_available_books (file : database)
    : list (Z * string * string * option Z) :=
  (λ r, (r.1, Books_title r.2, Books_author r.2, Books_year r.2))
    <$> merge_sort (asc text_le (λ r, Books_title r.2))
          (filter (λ r, Books_available r.2 = 1) (scan (Books file))).

Record borrowed_now_row : Type := {
  bn_borrow_id   : Z;
  bn_book_id     : Z;
  bn_title       : string;
  bn_author      : string;
  bn_user_id     : Z;
  bn_name        : string;
  bn_borrow_date : string
}.

(** FROM Borrow AS b JOIN Books AS bk ON bk.book_id = b.book_id
                     JOIN Users AS u ON u.user_id = b.user_id *)
Definition Borrow_join_Books_Users (file : database)
    : list ((Z * Borrow_row) * (Z * Books_row) * (Z * Users_row)) :=
  omap (λ b, bk ← Books file !! Borrow_book_id b.2;
             u ← Users file !! Borrow_user_id b.2;
             Some (b, (Borrow_book_id b.2, bk), (Borrow_user_id b.2, u)))
       (scan (Borrow file)).

Definition currently_borrowed_books (file : database) : list borrowed_now_row :=
  (λ r, {| bn_borrow_id := r.1.1.1; bn_book_id := r.1.2.1;
           bn_title := Books_title r.1.2.2; bn_author := Books_author r.1.2.2;
           bn_user_id := r.2.1; bn_name := Users_name r.2.2;
           bn_borrow_date := Borrow_borrow_date r.1.1.2 |})
    <$> merge_sort (desc text_le (λ r, Borrow_borrow_date r.1.1.2))
          (filter (λ r, is_open r.1.1.2) (Borrow_join_Books_Users file)).

Record book_history_row : Type := {
  bh_borrow_id   : Z;
  bh_borrow_date : string;
  bh_return_date : option string;
  bh_user_id     : Z;
  bh_name        : string;
  bh_phone       : option string;
  bh_email       : option string
}.

(** FROM Borrow AS b JOIN Users AS u ON u.user_id = b.user_id
    WHERE b.book_id = ? ORDER BY b.borrow_date DESC *)
Definition borrow_history_of_book (book_id : Z) (file : database)
    : outcome (list book_history_row) :=
  if binds (Books file) book_id then
    Returns
      ((λ r : (Z * Borrow_row) * Users_row,
          {| bh_borrow_id := r.1.1; bh_borrow_date := Borrow_borrow_date r.1.2;
             bh_return_date := Borrow_return_date r.1.2;
             bh_user_id := Borrow_user_id r.1.2; bh_name := Users_name r.2;
             bh_phone := Users_phone r.2; bh_email := Users_email r.2 |})
         <$> merge_sort (desc text_le (λ r, Borrow_borrow_date r.1.2))
               (filter (λ r, Borrow_book_id r.1.2 = book_id)
                  (omap (λ b, u ← Users file !! Borrow_user_id b.2; Some (b, u))
                        (scan (Borrow file)))))
  else Raises OverflowError.

Record user_count_row : Type := {
  uc_user_id      : Z;
  uc_name         : string;
  uc_borrow_count : nat
}.

(** FROM Users AS u LEFT JOIN Borrow AS b ON b.user_id = u.user_id: a member
    without borrow records gives one row whose borrow columns are NULL. *)
Definition Users_left_join_Borrow (file : database)
    : list ((Z * Users_row) * option (Z * Borrow_row)) :=
  scan (Users file) ≫= λ u,
    match filter (λ b, Borrow_user_id b.2 = u.1) (scan (Borrow file)) with
    | [] => [(u, None)]
    | bs => (λ b, (u, Some b)) <$> bs
    end.

(** ORDER BY borrow_count DESC *)
Definition by_user_count_desc : relation user_count_row :=
  desc le uc_borrow_count.

(** GROUP BY u.user_id, u.name with COUNT(b.borrow_id), which counts the
    rows of the group whose borrow_id is not NULL. *)
Definition users_by_borrow_count (file : database) : list user_count_row :=
  let joined := Users_left_join_Borrow file in
  let groups := remove_dups ((λ r, (r.1.1, Users_name r.1.2)) <$> joined) in
  let rows :=
    (λ k : Z * string,
       {| uc_user_id := k.1; uc_name := k.2;
          uc_borrow_count :=
            length (filter (λ r, is_Some r.2)
                      (filter (λ r, (r.1.1, Users_name r.1.2) = k) joined)) |})
      <$> groups in
  merge_sort by_user_count_desc rows.

(** The rows the LEFT JOIN produces for one member. *)
Definition left_join_rows (file : database) (u : Z * Users_row)
    : list ((Z * Users_row) * option (Z * Borrow_row)) :=
  match filter (λ b, Borrow_user_id b.2 = u.1) (scan (Borrow file)) with
  | [] => [(u, None)]
  | bs => (λ b, (u, Some b)) <$> bs
  end.

(** * Basic facts about the SQL building blocks *)

Section building_blocks.
Context {row : Type}.
Implicit Types (tbl : gmap Z row) (P : row → Prop).

Lemma elem_of_rows tbl r :
  r ∈ (map_to_list tbl).*2 ↔ ∃ k, tbl !! k = Some r.
Proof.
  rewrite list_elem_of_fmap. split.
  - intros [[k r'] [-> Hin]]. exists k. by apply elem_of_map_to_list.
  - intros [k Hk]. exists (k, r). split; [done|]. by apply elem_of_map_to_list.
Qed.

Lemma count_where_pos P `{!∀ r, Decision (P r)} tbl :
  (0 < count_where P tbl)%nat ↔ ∃ k r, tbl !! k = Some r ∧ P r.
Proof.
  unfold count_where. split.
  - intros Hlen.
    destruct (filter P (map_to_list tbl).*2) as [|r l] eqn:E; [simpl in Hlen; lia|].
    assert (Hr : r ∈ filter P (map_to_list tbl).*2) by (rewrite E; left).
    apply list_elem_of_filter in Hr as [HP Hr].
    apply elem_of_rows in Hr as [k Hk]. eauto.
  - intros (k & r & Hk & HP).
    assert (Hr : r ∈ filter P (map_to_list tbl).*2).
    { apply list_elem_of_filter. split; [done|]. apply elem_of_rows. eauto. }
    destruct (filter P (map_to_list tbl).*2); [by apply elem_of_nil in Hr|simpl; lia].
Qed.

Lemma count_where_zero P `{!∀ r, Decision (P r)} tbl :
  count_where P tbl = 0%nat ↔ ∀ k r, tbl !! k = Some r → ¬ P r.
Proof.
  split.
  - intros H0 k r Hk HP.
    assert (0 < count_where P tbl)%nat by (apply count_where_pos; eauto). lia.
  - intros Hall. destruct (count_where P tbl) eqn:E; [done|].
    assert (Hpos : (0 < count_where P tbl)%nat) by lia.
    apply count_where_pos in Hpos as (k & r & Hk & HP). by destruct (Hall k r).
Qed.

Lemma max_rowid_ge tbl k r : tbl !! k = Some r → k ≤ max_rowid tbl.
Proof.
  unfold max_rowid. rewrite map_fold_foldr.
  intros Hk%elem_of_map_to_list.
  induction (map_to_list tbl) as [|[k' r'] l IH]; [by apply elem_of_nil in Hk|].
  apply elem_of_cons in Hk as [Heq|Hin]; simpl.
  - inversion Heq; subst. lia.
  - specialize (IH Hin). lia.
Qed.

Lemma next_rowid_fresh seq tbl : tbl !! next_rowid seq tbl = None.
Proof.
  destruct (tbl !! next_rowid seq tbl) as [r|] eqn:E; [|done].
  apply max_rowid_ge in E. unfold next_rowid in E. lia.
Qed.

Lemma next_rowid_gt_seq seq tbl : seq < next_rowid seq tbl.
Proof. unfold next_rowid. lia. Qed.

Lemma binds_found tbl k r : tbl !! k = Some r → binds tbl k = true.
Proof.
  intros Hk. unfold binds. rewrite bool_decide_eq_true_2 by eauto.
  apply orb_true_r.
Qed.

Lemma binds_absent tbl k : tbl !! k = None → binds tbl k = int64 k.
Proof.
  intros Hk. unfold binds. rewrite bool_decide_eq_false_2.
  - apply orb_false_r.
  - rewrite Hk. by intros [? ?].
Qed.

Lemma binds_int64 tbl k : int64 k = true → binds tbl k = true.
Proof. intros Hk. unfold binds. by rewrite Hk. Qed.
End building_blocks.

Lemma int64_spec z :
  int64 z = true ↔ -9223372036854775808 ≤ z ≤ 9223372036854775807.
Proof. unfold int64. rewrite andb_true_iff, !Z.leb_le. done. Qed.

(** * The functions in closed form

    Each equation below is obtained by running the function's statements on
    the connection; the theorems further down are proved from them. *)

Lemma borrow_book_eq user_id book_id borrow_date file :
  borrow_book user_id book_id borrow_date file =
  match Users file !! user_id with
  | None => not_found user_id None file
  | Some _ =>
      match Books file !! book_id with
      | None => not_found book_id None file
      | Some bk =>
          if Books_available bk =? 1 then
            match borrow_date with
            | None => (Raises IntegrityError, file)
            | Some date =>
                (Returns (Some (next_rowid (seq_Borrow file) (Borrow file))),
                 after_borrow user_id book_id date bk file)
            end
          else (Returns None, file)
      end
  end.
Proof.
  unfold borrow_book, execute, select_1_Users, update_Books_take, binding, not_found;
    simpl.
  destruct (Users file !! user_id) as [u|] eqn:Hu.
  2:{ rewrite (binds_absent _ _ Hu). by destruct (int64 user_id). }
  rewrite (binds_found _ _ _ Hu). simpl.
  destruct (Books file !! book_id) as [bk|] eqn:Hbk.
  2:{ rewrite (binds_absent _ _ Hbk). by destruct (int64 book_id). }
  rewrite (binds_found _ _ _ Hbk). simpl.
  destruct (Books_available bk =? 1); [|done]. simpl.
  unfold insert_Borrow, binding; simpl.
  rewrite (binds_found _ _ _ Hu), (binds_found _ book_id _ (lookup_insert_eq _ _ _)).
  simpl. destruct borrow_date as [date|]; [|done]. simpl.
  rewrite lookup_insert_eq, Hu. done.
Qed.

Lemma return_book_eq borrow_id return_date file :
  return_book borrow_id return_date file =
  match Borrow file !! borrow_id with
  | None => not_found borrow_id false file
  | Some b =>
      if decide (is_open b) then (Returns true, after_return borrow_id return_date b file)
      else (Returns false, file)
  end.
Proof.
  unfold return_book, execute, select_open_Borrow, update_Borrow_close, binding,
    not_found; simpl.
  destruct (Borrow file !! borrow_id) as [b|] eqn:Hb.
  2:{ rewrite (binds_absent _ _ Hb). by destruct (int64 borrow_id). }
  rewrite (binds_found _ _ _ Hb). simpl. rewrite Hb.
  destruct (decide (is_open b)); [|done]. simpl.
  rewrite (binds_found _ _ _ Hb). simpl.
  unfold update_Books_give_back, after_return; simpl.
  by destruct (Books file !! Borrow_book_id b).
Qed.

Lemma after_return_Borrow i dt b d :
  Borrow (after_return i dt b d) = <[i := with_return_date dt b]> (Borrow d).
Proof. unfold after_return. by destruct (Books d !! Borrow_book_id b). Qed.

Lemma after_return_Users i dt b d : Users (after_return i dt b d) = Users d.
Proof. unfold after_return. by destruct (Books d !! Borrow_book_id b). Qed.

Lemma after_return_Books i dt b d :
  Books (after_return i dt b d) =
  match Books d !! Borrow_book_id b with
  | Some bk => <[Borrow_book_id b := with_available 1 bk]> (Books d)
  | None => Books d
  end.
Proof. unfold after_return. by destruct (Books d !! Borrow_book_id b). Qed.

Lemma update_book_availability_eq book_id available file :
  update_book_availability book_id available file =
  if negb ((available =? 0) || (available =? 1)) then (Raises ValueError, file)
  else
    match Books file !! book_id with
    | Some bk => (Returns true, set_Books (insert book_id (with_available available bk)) file)
    | None => not_found book_id false file
    end.
Proof.
  unfold update_book_availability, execute, update_Books_available, binding, not_found;
    simpl.
  destruct (negb _) eqn:Hv; [done|].
  assert (int64 available = true) as ->.
  { apply negb_false_iff, orb_true_iff in Hv. apply int64_spec. lia. }
  simpl. destruct (Books file !! book_id) as [bk|] eqn:Hbk.
  - by rewrite (binds_found _ _ _ Hbk).
  - rewrite (binds_absent _ _ Hbk). by destruct (int64 book_id).
Qed.

Lemma delete_book_eq book_id file :
  delete_book book_id file =
  if binds (Books file) book_id then
    if (0 <? count_where (λ b, Borrow_book_id b = book_id) (Borrow file))%nat
    then (Returns false, file)
    else
      match Books file !! book_id with
      | Some _ => (Returns true, set_Books (delete book_id) file)
      | None => (Returns false, file)
      end
  else (Raises OverflowError, file).
Proof.
  unfold delete_book, execute, count_Borrow_of_book, delete_Books, book_referenced,
    binding; simpl.
  destruct (binds (Books file) book_id) eqn:Hb; [|done]. simpl.
  destruct (0 <? _)%nat; [done|]. rewrite Hb.
  by destruct (Books file !! book_id).
Qed.

Lemma add_book_eq title author year file :
  add_book title author year file =
  if match year with Some y => int64 y | None => true end then
    match title, author with
    | Some t, Some a =>
        let book_id := next_rowid (seq_Books file) (Books file) in
        (Returns book_id,
         {| Books := <[book_id := {| Books_title := t; Books_author := a;
                                     Books_year := year; Books_available := 1 |}]>
                       (Books file);
            Users := Users file; Borrow := Borrow file;
            seq_Books := book_id; seq_Users := seq_Users file;
            seq_Borrow := seq_Borrow file |})
    | _, _ => (Raises IntegrityError, file)
    end
  else (Raises OverflowError, file).
Proof.
  unfold add_book, execute, insert_Books, binding; simpl.
  destruct (match year with Some y => int64 y | None => true end); [|done].
  by destruct title, author.
Qed.

Lemma not_found_store {A : Type} z (r : A) d : (not_found z r d).2 = d.
Proof. unfold not_found. by destruct (int64 z). Qed.


(** * books.py: registry operations *)

(** C9. Every copy [add_book] creates is stored under a fresh identity with
    [available = 1], whatever title, author and year were given; nothing
    else in the store changes, and any existing member can borrow the copy
    right away.  [add_book] creates a copy whenever a title and an author
    are given and the year, if there is one, is an integer SQLite holds.
    It creates none, and raises, when the year is not such an integer
    ([OverflowError]) or the title or the author is [None]
    ([IntegrityError]). *)
Theorem add_book_starts_available file :
  (∀ title author year book_id file',
     add_book title author year file = (Returns book_id, file') →
     ∃ t a,
       title = Some t ∧ author = Some a
       ∧ Books file !! book_id = None
       ∧ Books file' = <[book_id := {| Books_title := t; Books_author := a;
                                       Books_year := year; Books_available := 1 |}]>
                         (Books file)
       ∧ Users file' = Users file
       ∧ Borrow file' = Borrow file
       ∧ ∀ user_id date, is_Some (Users file !! user_id) →
           ∃ borrow_id file'',
             borrow_book user_id book_id (Some date) file'
             = (Returns (Some borrow_id), file''))
  ∧ (∀ (t a : string) (year : option Z),
       (∀ y, year = Some y → int64 y = true) →
       ∃ book_id file', add_book (Some t) (Some a) year file = (Returns book_id, file'))
  ∧ (∀ title author year,
       (∀ y, year = Some y → int64 y = true) →
       title = None ∨ author = None →
       add_book title author year file = (Raises IntegrityError, file))
  ∧ (∀ title author y,
       int64 y = false →
       add_book title author (Some y) file = (Raises OverflowError, file)).
Proof.
  split; [|split; [|split]].
  - intros title author year book_id file'. rewrite add_book_eq.
    destruct (match year with Some y => int64 y | None => true end); [|done].
    destruct title as [t|], author as [a|]; try done.
    intros [= <- <-]. exists t, a. simpl.
    do 2 (split; [done|]). split; [apply next_rowid_fresh|].
    repeat (split; [done|]).
    intros user_id date [u Hu]. rewrite borrow_book_eq. simpl.
    rewrite Hu, lookup_insert_eq. simpl. eauto.
  - intros t a year Hyear. rewrite add_book_eq.
    assert (match year with Some y => int64 y | None => true end = true) as ->
      by (destruct year; auto).
    eauto.
  - intros title author year Hyear Hnone. rewrite add_book_eq.
    assert (match year with Some y => int64 y | None => true end = true) as ->
      by (destruct year; auto).
    destruct Hnone as [-> | ->]; [done|]. by destruct title.
  - intros title author y Hy. by rewrite add_book_eq, Hy.
Qed.

Lemma add_book_starts_available_witness :
  (∃ book_id file',
     add_book (Some "Dune") (Some "Frank Herbert") (Some 1965) busy_library
     = (Returns book_id, file')
     ∧ Books_available <$> Books file' !! book_id = Some 1
     ∧ ∃ borrow_id file'',
         borrow_book 2 book_id (Some "2026-01-05") file'
         = (Returns (Some borrow_id), file''))
  ∧ add_book None (Some "Frank Herbert") (Some 1965) busy_library
    = (Raises IntegrityError, busy_library).
Proof.
  split.
  - destruct (proj1 (proj2 (add_book_starts_available busy_library))
                "Dune" "Frank Herbert" (Some 1965))
      as (book_id & file' & Hadd); [by intros y [= <-]|].
    destruct (proj1 (add_book_starts_available busy_library) _ _ _ _ _ Hadd)
      as (t & a & _ & _ & _ & Hbooks & _ & _ & Hborrow).
    exists book_id, file'. split; [exact Hadd|]. split.
    + rewrite Hbooks, lookup_insert_eq. reflexivity.
    + apply Hborrow.
      exists {| Users_name := "Bob Levi"; Users_phone := Some "052-2222222";
                Users_email := Some "bob@example.com" |}.
      vm_compute. reflexivity.
  - apply (proj1 (proj2 (proj2 (add_book_starts_available busy_library)))).
    + by intros y [= <-].
    + by left.
Defined.

(** C10, as stated, fails: with [available] in {0, 1} the call does raise
    when [book_id] is an integer SQLite cannot hold; it returns neither
    [True] nor [False]. *)
Lemma update_book_availability_raises_on_wide_id :
  Books busy_library !! 9223372036854775808 = None
  ∧ update_book_availability 9223372036854775808 1 busy_library
    = (Raises OverflowError, busy_library).
Proof. split; vm_compute; reflexivity. Qed.

(** C10, amended.  [update_book_availability] raises [ValueError] on every
    value of [available] other than 0 and 1, whatever [book_id] is, and
    leaves the store as it was.  On 0 and 1: when the copy has a row it
    returns [True] and the row's flag is the value given, nothing else
    changes; when it has none it returns [False] with the store untouched
    if [book_id] is an integer SQLite holds, and raises [OverflowError],
    again with the store untouched, if it is not. *)
Theorem update_book_availability_contract file book_id available :
  (available ≠ 0 → available ≠ 1 →
     update_book_availability book_id available file = (Raises ValueError, file))
  ∧ (available = 0 ∨ available = 1 →
       (∀ bk, Books file !! book_id = Some bk →
          ∃ file',
            update_book_availability book_id available file = (Returns true, file')
            ∧ Books file' = <[book_id := with_available available bk]> (Books file)
            ∧ Users file' = Users file
            ∧ Borrow file' = Borrow file)
       ∧ (Books file !! book_id = None → int64 book_id = true →
            update_book_availability book_id available file = (Returns false, file))
       ∧ (Books file !! book_id = None → int64 book_id = false →
            update_book_availability book_id available file
            = (Raises OverflowError, file))).
Proof.
  rewrite update_book_availability_eq. split.
  - intros H0 H1.
    destruct (available =? 0) eqn:E0; [lia|].
    destruct (available =? 1) eqn:E1; [lia|]. done.
  - intros Hv.
    assert (Hguard : negb ((available =? 0) || (available =? 1)) = false).
    { destruct Hv as [-> | ->]; done. }
    rewrite Hguard. unfold not_found. split; [|split].
    + intros bk ->. eexists. split; [reflexivity|]. done.
    + by intros -> ->.
    + by intros -> ->.
Qed.

Lemma update_book_availability_contract_witness :
  update_book_availability 1 7 busy_library = (Raises ValueError, busy_library)
  ∧ (∃ file',
       update_book_availability 1 1 busy_library = (Returns true, file')
       ∧ Books_available <$> Books file' !! 1 = Some 1)
  ∧ update_book_availability 9 0 busy_library = (Returns false, busy_library)
  ∧ update_book_availability 9223372036854775809 0 busy_library
    = (Raises OverflowError, busy_library).
Proof.
  split; [|split; [|split]].
  - apply (update_book_availability_contract busy_library 1 7); lia.
  - destruct (proj1 (proj2 (update_book_availability_contract busy_library 1 1)
                       (or_intror eq_refl))
                {| Books_title := "Harry Potter"; Books_author := "J.K. Rowling";
                   Books_year := Some 1997; Books_available := 0 |})
      as (file' & Heq & Hbooks & _); [vm_compute; reflexivity|].
    exists file'. split; [exact Heq|].
    rewrite Hbooks, lookup_insert_eq. reflexivity.
  - apply (proj2 (update_book_availability_contract busy_library 9 0)
             (or_introl eq_refl)); vm_compute; reflexivity.
  - apply (proj2 (update_book_availability_contract busy_library 9223372036854775809 0)
             (or_introl eq_refl)); vm_compute; reflexivity.
Defined.

(** C7, as stated, fails: no record references the copy and the copy does
    not exist, yet [delete_book] does not return [False]; it raises, because
    [book_id] is an integer SQLite cannot hold. *)
Lemma delete_book_raises_on_wide_id :
  Books busy_library !! 9223372036854775808 = None
  ∧ count_where (λ b, Borrow_book_id b = 9223372036854775808) (Borrow busy_library)
    = 0%nat
  ∧ delete_book 9223372036854775808 busy_library
    = (Raises OverflowError, busy_library).
Proof. split; [|split]; vm_compute; reflexivity. Qed.

(** C7, amended.  For a [book_id] that has a row or is an integer SQLite
    holds: [delete_book] returns [False] and leaves the store as it was
    when some borrow record, open or closed, references the copy; when none
    does, it removes the row and returns [True] if the copy had one, and
    returns [False] if it had none.  For a [book_id] without a row that
    SQLite cannot hold it raises [OverflowError] and the store is as it
    was. *)
Theorem delete_book_contract file book_id :
  (is_Some (Books file !! book_id) ∨ int64 book_id = true →
     ((∃ i b, Borrow file !! i = Some b ∧ Borrow_book_id b = book_id) →
        delete_book book_id file = (Returns false, file))
     ∧ ((∀ i b, Borrow file !! i = Some b → Borrow_book_id b ≠ book_id) →
          (is_Some (Books file !! book_id) →
             ∃ file', delete_book book_id file = (Returns true, file')
                      ∧ Books file' = delete book_id (Books file)
                      ∧ Users file' = Users file ∧ Borrow file' = Borrow file)
          ∧ (Books file !! book_id = None →
               delete_book book_id file = (Returns false, file))))
  ∧ (Books file !! book_id = None → int64 book_id = false →
       delete_book book_id file = (Raises OverflowError, file)).
Proof.
  rewrite delete_book_eq. split.
  - intros Hbinds.
    assert (binds (Books file) book_id = true) as ->.
    { destruct Hbinds as [[bk Hbk]|Hint];
        [by eapply binds_found|by apply binds_int64]. }
    split.
    + intros Href.
      apply (count_where_pos (λ b, Borrow_book_id b = book_id)) in Href.
      apply Nat.ltb_lt in Href. by rewrite Href.
    + intros Hnone.
      apply (count_where_zero (λ b, Borrow_book_id b = book_id)) in Hnone.
      rewrite Hnone. simpl. split.
      * intros [bk ->]. eexists. split; [reflexivity|]. done.
      * by intros ->.
  - intros Hbk Hint. by rewrite (binds_absent _ _ Hbk), Hint.
Qed.

Lemma delete_book_contract_witness :
  delete_book 2 busy_library = (Returns false, busy_library)
  ∧ (∃ file', delete_book 3 busy_library = (Returns true, file')
              ∧ Books file' = delete 3 (Books busy_library)
              ∧ Users file' = Users busy_library ∧ Borrow file' = Borrow busy_library)
  ∧ delete_book 9 busy_library = (Returns false, busy_library)
  ∧ delete_book (-9223372036854775809) busy_library
    = (Raises OverflowError, busy_library).
Proof.
  assert (Hfree : ∀ book_id, book_id ≠ 1 → book_id ≠ 2 →
            ∀ i b, Borrow busy_library !! i = Some b → Borrow_book_id b ≠ book_id).
  { intros book_id H1 H2 i b Hi.
    assert (Hb : b ∈ (map_to_list (Borrow busy_library)).*2)
      by (apply elem_of_rows; eauto).
    vm_compute in Hb.
    repeat (apply elem_of_cons in Hb as [->|Hb]; [simpl; lia|]).
    by apply elem_of_nil in Hb. }
  split; [|split; [|split]].
  - apply (proj1 (proj1 (delete_book_contract busy_library 2) (or_intror eq_refl))).
    exists 2, {| Borrow_book_id := 2; Borrow_user_id := 2;
                 Borrow_borrow_date := "2025-12-19";
                 Borrow_return_date := Some "2025-12-20" |}.
    split; vm_compute; reflexivity.
  - apply (proj2 (proj1 (delete_book_contract busy_library 3) (or_intror eq_refl))).
    + apply Hfree; lia.
    + exists {| Books_title := "Clean Code"; Books_author := "Robert C. Martin";
                Books_year := Some 2008; Books_available := 1 |}.
      vm_compute. reflexivity.
  - apply (proj2 (proj1 (delete_book_contract busy_library 9) (or_intror eq_refl))).
    + apply Hfree; lia.
    + vm_compute. reflexivity.
  - apply (proj2 (delete_book_contract busy_library (-9223372036854775809)));
      vm_compute; reflexivity.
Defined.

(** * borrow.py: the ledger *)

(** C4, as stated, fails: the member does not exist, respectively the copy
    does not exist, and [borrow_book] raises instead of returning [None],
    because the identity given is an integer SQLite cannot hold. *)
Lemma borrow_book_raises_on_wide_id :
  (Users busy_library !! 9223372036854775808 = None
   ∧ borrow_book 9223372036854775808 3 (Some "2026-01-05") busy_library
     = (Raises OverflowError, busy_library))
  ∧ (Books busy_library !! 9223372036854775808 = None
     ∧ borrow_book 2 9223372036854775808 (Some "2026-01-05") busy_library
       = (Raises OverflowError, busy_library)).
Proof. repeat split; vm_compute; reflexivity. Qed.

(** C4, amended.  For identities that are integers SQLite holds: when the
    member has no row, or the copy has no row, or the copy's flag is 0,
    [borrow_book] returns [None] without raising and the store after the
    call is the store before it (no record created, no flag and no record
    touched).  An identity SQLite cannot hold makes the lookup that binds
    it raise [OverflowError], the store staying as it was: [user_id] when
    the member has no row, [book_id] when the member has a row and the copy
    has none.  When the member has a row, the copy has a row flagged 1 and a
    date is given, [borrow_book] returns an identity, the flag is 0
    afterwards and nothing else in the registries changes.  Whenever it
    returns an identity, that identity was unused before and now holds the
    new open record for this member, copy and date, and every other record
    is as before. *)
Theorem borrow_book_rejects_or_identifies file user_id book_id borrow_date :
  (int64 user_id = true → int64 book_id = true →
   Users file !! user_id = None
   ∨ Books file !! book_id = None
   ∨ (∃ bk, Books file !! book_id = Some bk ∧ Books_available bk = 0) →
   borrow_book user_id book_id borrow_date file = (Returns None, file))
  ∧ (Users file !! user_id = None → int64 user_id = false →
       borrow_book user_id book_id borrow_date file = (Raises OverflowError, file))
  ∧ (is_Some (Users file !! user_id) →
     Books file !! book_id = None → int64 book_id = false →
       borrow_book user_id book_id borrow_date file = (Raises OverflowError, file))
  ∧ (∀ bk date,
       is_Some (Users file !! user_id) →
       Books file !! book_id = Some bk → Books_available bk = 1 →
       borrow_date = Some date →
       ∃ borrow_id file',
         borrow_book user_id book_id borrow_date file = (Returns (Some borrow_id), file')
         ∧ Books file' = <[book_id := with_available 0 bk]> (Books file)
         ∧ Users file' = Users file)
  ∧ (∀ borrow_id file',
       borrow_book user_id book_id borrow_date file = (Returns (Some borrow_id), file') →
       ∃ date,
         borrow_date = Some date
         ∧ Borrow file !! borrow_id = None
         ∧ Borrow file' =
             <[borrow_id := {| Borrow_book_id := book_id; Borrow_user_id := user_id;
                               Borrow_borrow_date := date;
                               Borrow_return_date := None |}]> (Borrow file)).
Proof.
  rewrite borrow_book_eq. unfold not_found. split; [|split; [|split; [|split]]].
  - intros Hui Hbi [Hu | [Hb | (bk & Hb & Hav)]].
    + by rewrite Hu, Hui.
    + rewrite Hb, Hui, Hbi. by destruct (Users file !! user_id).
    + rewrite Hb, Hav, Hui. by destruct (Users file !! user_id).
  - by intros -> ->.
  - by intros [u ->] -> ->.
  - intros bk date [u ->] -> -> ->. simpl. eauto.
  - intros borrow_id file' Hrun.
    destruct (Users file !! user_id); [|by destruct (int64 user_id)].
    destruct (Books file !! book_id) as [bk|]; [|by destruct (int64 book_id)].
    destruct (Books_available bk =? 1); [|done].
    destruct borrow_date as [date|]; [|done].
    inversion Hrun; subst. exists date.
    split; [done|]. split; [apply next_rowid_fresh|done].
Qed.

Lemma borrow_book_rejects_or_identifies_witness :
  borrow_book 7 2 (Some "2026-01-05") busy_library = (Returns None, busy_library)
  ∧ borrow_book 2 9 (Some "2026-01-05") busy_library = (Returns None, busy_library)
  ∧ borrow_book 2 1 None busy_library = (Returns None, busy_library)
  ∧ borrow_book (-9223372036854775809) 1 None busy_library
    = (Raises OverflowError, busy_library)
  ∧ borrow_book 2 9223372036854775809 None busy_library
    = (Raises OverflowError, busy_library)
  ∧ (∃ borrow_id file',
       borrow_book 2 3 (Some "2026-01-05") busy_library = (Returns (Some borrow_id), file')
       ∧ Books_available <$> Books file' !! 3 = Some 0
       ∧ Borrow busy_library !! borrow_id = None
       ∧ Borrow_user_id <$> Borrow file' !! borrow_id = Some 2).
Proof.
  pose (bob := {| Users_name := "Bob Levi"; Users_phone := Some "052-2222222";
                  Users_email := Some "bob@example.com" |}).
  assert (Hbob : Users busy_library !! 2 = Some bob) by (vm_compute; reflexivity).
  split; [|split; [|split; [|split; [|split]]]].
  - apply (proj1 (borrow_book_rejects_or_identifies busy_library 7 2 _));
      [reflexivity|reflexivity|].
    left. vm_compute. reflexivity.
  - apply (proj1 (borrow_book_rejects_or_identifies busy_library 2 9 _));
      [reflexivity|reflexivity|].
    right. left. vm_compute. reflexivity.
  - apply (proj1 (borrow_book_rejects_or_identifies busy_library 2 1 _));
      [reflexivity|reflexivity|].
    right. right.
    exists {| Books_title := "Harry Potter"; Books_author := "J.K. Rowling";
              Books_year := Some 1997; Books_available := 0 |}.
    split; vm_compute; reflexivity.
  - apply (proj1 (proj2 (borrow_book_rejects_or_identifies busy_library
                           (-9223372036854775809) 1 _)));
      vm_compute; reflexivity.
  - apply (proj1 (proj2 (proj2 (borrow_book_rejects_or_identifies busy_library
                                  2 9223372036854775809 _))));
      [by exists bob|vm_compute; reflexivity|vm_compute; reflexivity].
  - destruct (proj1 (proj2 (proj2 (proj2
                (borrow_book_rejects_or_identifies busy_library 2 3
                   (Some "2026-01-05")))))
                {| Books_title := "Clean Code"; Books_author := "Robert C. Martin";
                   Books_year := Some 2008; Books_available := 1 |} "2026-01-05")
      as (borrow_id & file' & Hrun & Hbooks & _);
      [by exists bob|vm_compute; reflexivity|reflexivity|reflexivity|].
    destruct (proj2 (proj2 (proj2 (proj2
                (borrow_book_rejects_or_identifies busy_library 2 3
                   (Some "2026-01-05"))))) borrow_id file' Hrun)
      as (date & _ & Hfresh & Hrec).
    exists borrow_id, file'. split; [exact Hrun|].
    split; [rewrite Hbooks, lookup_insert_eq; reflexivity|].
    split; [exact Hfresh|].
    rewrite Hrec, lookup_insert_eq. reflexivity.
Defined.

(** C3. When the flip of the copy's flag took effect and the insertion of
    the borrow record then raises, [borrow_book] raises that error with the
    store rolled back to what it was before the call: the flag, which the
    transaction had at 0, is 1 again, and no record was added.  The two
    writes are one unit: whatever the call returns or raises, the store
    afterwards is either the store before the call or that store with both
    the flag cleared and the record added. *)
Theorem borrow_book_rolls_back_failed_insert file user_id book_id borrow_date :
  (∀ flipped e,
     is_Some (Users file !! user_id) →
     update_Books_take book_id file = (Returns 1%nat, flipped) →
     (insert_Borrow book_id user_id borrow_date flipped).1 = Raises e →
     borrow_book user_id book_id borrow_date file = (Raises e, file)
     ∧ Books_available <$> Books flipped !! book_id = Some 0
     ∧ Books_available <$> Books file !! book_id = Some 1)
  ∧ ((borrow_book user_id book_id borrow_date file).2 = file
     ∨ ∃ date bk,
         borrow_date = Some date ∧ Books file !! book_id = Some bk
         ∧ borrow_book user_id book_id borrow_date file
           = (Returns (Some (next_rowid (seq_Borrow file) (Borrow file))),
              after_borrow user_id book_id date bk file)).
Proof.
  split.
  - intros flipped e [u Hu] Hflip Hins. rewrite borrow_book_eq, Hu.
    unfold update_Books_take, binding in Hflip.
    destruct (Books file !! book_id) as [bk|] eqn:Hbk.
    2:{ destruct (binds (Books file) book_id); by inversion Hflip. }
    rewrite (binds_found _ _ _ Hbk) in Hflip.
    destruct (Books_available bk =? 1) eqn:Hav; [|by inversion Hflip].
    inversion Hflip; subst flipped; clear Hflip.
    unfold insert_Borrow, binding in Hins. simpl in Hins.
    rewrite (binds_found _ _ _ Hu),
      (binds_found _ book_id _ (lookup_insert_eq _ _ _)) in Hins. simpl in Hins.
    rewrite lookup_insert_eq, Hu in Hins.
    destruct borrow_date as [date|]; [by inversion Hins|].
    simpl in Hins. inversion Hins; subst e.
    split; [done|]. simpl. rewrite lookup_insert_eq. split; [done|].
    simpl. f_equal. lia.
  - rewrite borrow_book_eq.
    destruct (Users file !! user_id) as [u|]; [|left; apply not_found_store].
    destruct (Books file !! book_id) as [bk|]; [|left; apply not_found_store].
    destruct (Books_available bk =? 1); [|by left].
    destruct borrow_date as [date|]; [|by left].
    right. by exists date, bk.
Qed.

Lemma borrow_book_rolls_back_failed_insert_witness :
  borrow_book 2 3 None busy_library = (Raises IntegrityError, busy_library)
  ∧ Books_available <$> Books (update_Books_take 3 busy_library).2 !! 3 = Some 0
  ∧ Books_available <$> Books busy_library !! 3 = Some 1.
Proof.
  apply (proj1 (borrow_book_rolls_back_failed_insert busy_library 2 3 None)
           (update_Books_take 3 busy_library).2 IntegrityError).
  - exists {| Users_name := "Bob Levi"; Users_phone := Some "052-2222222";
              Users_email := Some "bob@example.com" |}.
    vm_compute. reflexivity.
  - vm_compute. reflexivity.
  - reflexivity.
Defined.

(** C5, as stated, fails: the identity resolves to no record, open or
    closed, and [return_book] raises instead of returning [False], because
    the identity is an integer SQLite cannot hold. *)
Lemma return_book_raises_on_wide_id :
  Borrow busy_library !! 9223372036854775808 = None
  ∧ return_book 9223372036854775808 (Some "2026-01-05") busy_library
    = (Raises OverflowError, busy_library).
Proof. split; vm_compute; reflexivity. Qed.

(** C5, amended.  [return_book] returns [False] and leaves the store as it
    was whenever the identity has a closed record, or has no record and is
    an integer SQLite holds; on an identity without a record that SQLite
    cannot hold it raises [OverflowError], the store again as it was.  A
    return with a date on an open record succeeds; the record then holds
    that date and a second [return_book] on it, with any date, returns
    [False] and changes neither the record nor any flag. *)
Theorem return_book_only_once file borrow_id :
  (∀ return_date b,
     Borrow file !! borrow_id = Some b → ¬ is_open b →
     return_book borrow_id return_date file = (Returns false, file))
  ∧ (∀ return_date,
       Borrow file !! borrow_id = None → int64 borrow_id = true →
       return_book borrow_id return_date file = (Returns false, file))
  ∧ (∀ return_date,
       Borrow file !! borrow_id = None → int64 borrow_id = false →
       return_book borrow_id return_date file = (Raises OverflowError, file))
  ∧ (∀ (first : string) b,
       Borrow file !! borrow_id = Some b → is_open b →
       ∃ file1, return_book borrow_id (Some first) file = (Returns true, file1))
  ∧ (∀ (first : string) (second : option string) file1,
       return_book borrow_id (Some first) file = (Returns true, file1) →
       Borrow_return_date <$> Borrow file1 !! borrow_id = Some (Some first)
       ∧ return_book borrow_id second file1 = (Returns false, file1)).
Proof.
  split; [|split; [|split; [|split]]].
  - intros return_date b Hb Hclosed. rewrite return_book_eq, Hb.
    by destruct (decide (is_open b)).
  - intros return_date Hb Hint. rewrite return_book_eq, Hb. unfold not_found.
    by rewrite Hint.
  - intros return_date Hb Hint. rewrite return_book_eq, Hb. unfold not_found.
    by rewrite Hint.
  - intros first b Hb Hopen. rewrite return_book_eq, Hb.
    destruct (decide (is_open b)); [eauto|done].
  - intros first second file1. rewrite !return_book_eq.
    destruct (Borrow file !! borrow_id) as [b|] eqn:Hb;
      [|by unfold not_found; destruct (int64 borrow_id)].
    destruct (decide (is_open b)); [|done].
    intros Hrun. inversion Hrun; subst file1; clear Hrun.
    assert (Hrec : Borrow (after_return borrow_id (Some first) b file) !! borrow_id
                   = Some (with_return_date (Some first) b)).
    { rewrite after_return_Borrow. apply lookup_insert_eq. }
    rewrite Hrec. simpl. split; [done|].
    by destruct (decide (is_open (with_return_date (Some first) b))).
Qed.

Lemma return_book_only_once_witness :
  return_book 2 (Some "2025-12-24") busy_library = (Returns false, busy_library)
  ∧ return_book 9 (Some "2025-12-24") busy_library = (Returns false, busy_library)
  ∧ return_book 9223372036854775809 (Some "2025-12-24") busy_library
    = (Raises OverflowError, busy_library)
  ∧ (∃ file1, return_book 1 (Some "2025-12-21") busy_library = (Returns true, file1))
  ∧ Borrow_return_date <$> Borrow (return_book 1 (Some "2025-12-21") busy_library).2 !! 1
    = Some (Some "2025-12-21")
  ∧ return_book 1 (Some "2025-12-22") (return_book 1 (Some "2025-12-21") busy_library).2
    = (Returns false, (return_book 1 (Some "2025-12-21") busy_library).2).
Proof.
  split; [|split; [|split; [|split]]].
  - apply (proj1 (return_book_only_once busy_library 2) _
             {| Borrow_book_id := 2; Borrow_user_id := 2;
                Borrow_borrow_date := "2025-12-19";
                Borrow_return_date := Some "2025-12-20" |}).
    + vm_compute. reflexivity.
    + intros [=].
  - apply (proj1 (proj2 (return_book_only_once busy_library 9)));
      vm_compute; reflexivity.
  - apply (proj1 (proj2 (proj2 (return_book_only_once busy_library
                                  9223372036854775809))));
      vm_compute; reflexivity.
  - apply (proj1 (proj2 (proj2 (proj2 (return_book_only_once busy_library 1))))
             "2025-12-21"
             {| Borrow_book_id := 1; Borrow_user_id := 1;
                Borrow_borrow_date := "2025-12-19";
                Borrow_return_date := None |});
      vm_compute; reflexivity.
  - apply (proj2 (proj2 (proj2 (proj2 (return_book_only_once busy_library 1))))).
    vm_compute. reflexivity.
Defined.

(** C6. From any store with the member present and the copy flagged 1:
    borrowing succeeds and the flag is 0; returning the borrow just made
    succeeds and the flag is 1; borrowing the same copy again succeeds,
    under a new identity, and the flag is 0. *)
Theorem borrow_return_borrow_round_trip
    file user_id book_id bk (date1 date2 : string) (return_date : option string) :
  is_Some (Users file !! user_id) →
  Books file !! book_id = Some bk →
  Books_available bk = 1 →
  ∃ borrow1 file1 file2 borrow2 file3,
    borrow_book user_id book_id (Some date1) file = (Returns (Some borrow1), file1)
    ∧ Books_available <$> Books file1 !! book_id = Some 0
    ∧ return_book borrow1 return_date file1 = (Returns true, file2)
    ∧ Books_available <$> Books file2 !! book_id = Some 1
    ∧ borrow_book user_id book_id (Some date2) file2 = (Returns (Some borrow2), file3)
    ∧ Books_available <$> Books file3 !! book_id = Some 0
    ∧ borrow1 ≠ borrow2.
Proof.
  intros [u Hu] Hbk Hav.
  pose (rec1 := {| Borrow_book_id := book_id; Borrow_user_id := user_id;
                   Borrow_borrow_date := date1; Borrow_return_date := None |}).
  remember (next_rowid (seq_Borrow file) (Borrow file)) as borrow1 eqn:Eb1.
  remember (after_borrow user_id book_id date1 bk file) as file1 eqn:Ef1.
  remember (after_return borrow1 return_date rec1 file1) as file2 eqn:Ef2.
  assert (H1 : borrow_book user_id book_id (Some date1) file
               = (Returns (Some borrow1), file1)).
  { rewrite borrow_book_eq, Hu, Hbk, Hav. by subst. }
  assert (Hrec1 : Borrow file1 !! borrow1 = Some rec1).
  { subst file1 borrow1. apply lookup_insert_eq. }
  assert (Hbk1 : Books file1 !! book_id = Some (with_available 0 bk)).
  { subst file1. apply lookup_insert_eq. }
  assert (Hu1 : Users file1 = Users file) by (by subst file1).
  assert (H2 : return_book borrow1 return_date file1 = (Returns true, file2)).
  { rewrite return_book_eq, Hrec1. by subst file2. }
  assert (Hbk2 : Books file2 !! book_id
                 = Some (with_available 1 (with_available 0 bk))).
  { rewrite Ef2, after_return_Books. simpl. rewrite Hbk1. apply lookup_insert_eq. }
  assert (Hu2 : Users file2 !! user_id = Some u).
  { by rewrite Ef2, after_return_Users, Hu1. }
  exists borrow1, file1, file2. eexists _, _.
  split; [exact H1|]. split; [by rewrite Hbk1|].
  split; [exact H2|]. split; [by rewrite Hbk2|].
  split; [rewrite borrow_book_eq, Hu2, Hbk2; reflexivity|].
  split; [simpl; by rewrite lookup_insert_eq|].
  intros Heq.
  assert (Hin : Borrow file2 !! borrow1
                = Some (with_return_date return_date rec1)).
  { rewrite Ef2, after_return_Borrow. apply lookup_insert_eq. }
  rewrite Heq, next_rowid_fresh in Hin. done.
Qed.

Lemma borrow_return_borrow_round_trip_witness :
  ∃ borrow1 file1 file2 borrow2 file3,
    borrow_book 2 3 (Some "2026-01-05") busy_library = (Returns (Some borrow1), file1)
    ∧ Books_available <$> Books file1 !! 3 = Some 0
    ∧ return_book borrow1 (Some "2026-01-09") file1 = (Returns true, file2)
    ∧ Books_available <$> Books file2 !! 3 = Some 1
    ∧ borrow_book 2 3 (Some "2026-01-12") file2 = (Returns (Some borrow2), file3)
    ∧ Books_available <$> Books file3 !! 3 = Some 0
    ∧ borrow1 ≠ borrow2.
Proof.
  apply (borrow_return_borrow_round_trip busy_library 2 3
           {| Books_title := "Clean Code"; Books_author := "Robert C. Martin";
              Books_year := Some 2008; Books_available := 1 |}).
  - exists {| Users_name := "Bob Levi"; Users_phone := Some "052-2222222";
              Users_email := Some "bob@example.com" |}.
    vm_compute. reflexivity.
  - vm_compute. reflexivity.
  - reflexivity.
Defined.

(** * What a call does to the tables *)

Lemma create_user_tables name phone email file :
  Books (create_user name phone email file).2 = Books file
  ∧ Borrow (create_user name phone email file).2 = Borrow file.
Proof.
  unfold create_user, execute, insert_Users; simpl.
  destruct name; [|done].
  by destruct (match email with Some e => email_taken file None e | None => false end).
Qed.

Lemma update_user_tables user_id name phone email file :
  Books (update_user user_id name phone email file).2 = Books file
  ∧ Borrow (update_user user_id name phone email file).2 = Borrow file.
Proof.
  assert (Hexec : ∀ n p e,
    let r := execute (update_Users user_id n p e) (get_connection file) in
    Books (match r with
           | (Raises x, conn) => (Raises x, close conn)
           | (Returns rowcount, conn) =>
               (Returns (0 <? rowcount)%nat, close (commit conn))
           end).2 = Books file
    ∧ Borrow (match r with
              | (Raises x, conn) => (Raises x, close conn)
              | (Returns rowcount, conn) =>
                  (Returns (0 <? rowcount)%nat, close (commit conn))
              end).2 = Borrow file).
  { intros n p e. unfold execute, update_Users, binding; simpl.
    destruct (binds (Users file) user_id); [|done].
    destruct (Users file !! user_id); [|done].
    by destruct (match e with
                 | Some e0 => email_taken file (Some user_id) e0
                 | None => false
                 end). }
  unfold update_user. destruct name, phone, email; try apply Hexec. done.
Qed.

Lemma delete_user_tables user_id file :
  Books (delete_user user_id file).2 = Books file
  ∧ Borrow (delete_user user_id file).2 = Borrow file.
Proof.
  unfold delete_user, execute, count_open_Borrow_of_user, delete_Users, binding; simpl.
  destruct (binds (Users file) user_id) eqn:Hb; [|done]. simpl.
  destruct (0 <? _)%nat; [done|]. rewrite Hb.
  destruct (Users file !! user_id); [|done].
  by destruct (user_referenced file user_id).
Qed.

(** * Referential integrity of the stores the program produces *)

Lemma references_resolve_tables d d' :
  Books d' = Books d → Borrow d' = Borrow d →
  book_references_resolve d → book_references_resolve d'.
Proof. unfold book_references_resolve. intros -> ->. done. Qed.

Lemma run_keeps_references c d :
  book_references_resolve d → book_references_resolve (run c d).
Proof.
  intros Hres. destruct c as [t a y|bid v|bid|n p e|u n p e|u|u bid dt|i dt]; simpl.
  - rewrite add_book_eq.
    destruct (match y with Some y0 => int64 y0 | None => true end); [|done].
    destruct t, a; try done. simpl.
    intros i b Hb. simpl in *. apply lookup_insert_is_Some'. right. eauto.
  - rewrite update_book_availability_eq.
    destruct (negb _); [done|].
    destruct (Books d !! bid) as [bk|]; [|by rewrite not_found_store].
    intros i b Hb. simpl in *. apply lookup_insert_is_Some'. right. eauto.
  - rewrite delete_book_eq.
    destruct (binds (Books d) bid); [|done].
    destruct (0 <? _)%nat eqn:Hcnt; [done|].
    destruct (Books d !! bid) as [bk|]; [|done].
    intros i b Hb. simpl in *.
    apply Nat.ltb_ge in Hcnt.
    assert (Hzero : count_where (λ b, Borrow_book_id b = bid) (Borrow d) = 0%nat) by lia.
    pose proof (proj1 (count_where_zero _ _) Hzero i b Hb) as Hne. simpl in Hne.
    rewrite lookup_delete_ne; [eauto|congruence].
  - destruct (create_user_tables n p e d). by eapply references_resolve_tables.
  - destruct (update_user_tables u n p e d). by eapply references_resolve_tables.
  - destruct (delete_user_tables u d). by eapply references_resolve_tables.
  - rewrite borrow_book_eq.
    destruct (Users d !! u) as [usr|]; [|by rewrite not_found_store].
    destruct (Books d !! bid) as [bk|] eqn:Hbk; [|by rewrite not_found_store].
    destruct (Books_available bk =? 1); [|done].
    destruct dt as [date|]; [|done].
    intros i b Hb. simpl in *. apply lookup_insert_is_Some'.
    apply lookup_insert_Some in Hb as [[_ <-]|[_ Hb]]; [by left|right; eauto].
  - rewrite return_book_eq.
    destruct (Borrow d !! i) as [b0|] eqn:Hb0; [|by rewrite not_found_store].
    destruct (decide (is_open b0)); [|done].
    intros j b Hb. simpl in *.
    rewrite after_return_Borrow in Hb. rewrite after_return_Books.
    assert (Hold : is_Some (Books d !! Borrow_book_id b)).
    { apply lookup_insert_Some in Hb as [[_ <-]|[_ Hb]]; simpl; eauto. }
    destruct (Books d !! Borrow_book_id b0) as [bk0|]; [|done].
    apply lookup_insert_is_Some'. by right.
Qed.

Lemma run_all_snoc cs c d : run_all (cs ++ [c]) d = run c (run_all cs d).
Proof. unfold run_all. by rewrite foldl_app. Qed.

Lemma reachable_references_resolve cs :
  book_references_resolve (run_all cs init_db).
Proof.
  induction cs as [|c cs IH] using rev_ind.
  - intros i b Hb. simpl in Hb. by rewrite lookup_empty in Hb.
  - rewrite run_all_snoc. by apply run_keeps_references.
Qed.

(** * return_book and the flag of the copy *)

(** C2, as stated, fails: on a store where the record's copy has no row,
    the close succeeds, the flip touches nothing, and [return_book] commits
    and returns [True] instead of raising. *)
Lemma return_book_hides_lost_flip :
  ∃ file',
    return_book 1 (Some "2025-01-02") orphaned_record = (Returns true, file')
    ∧ Borrow_return_date <$> Borrow file' !! 1 = Some (Some "2025-01-02")
    ∧ Books orphaned_record !! 7 = None
    ∧ Books file' = Books orphaned_record.
Proof.
  eexists. split; [vm_compute; reflexivity|].
  split; [vm_compute; reflexivity|]. split; reflexivity.
Qed.

(** C2, amended.  Once the close of an open record succeeds, [return_book]
    issues the flip without looking at its row count and returns [True]; it
    raises in no case.  The record then carries the return date.  When the
    copy has a row, the row's flag is 1 afterwards; when it has none, the
    [Books] table is as before.  In every store the program's operations
    produce from the empty one, every record's copy has a row, so there the
    flip always takes effect. *)
Theorem return_book_flips_existing_copy :
  (∀ file borrow_id return_date b,
     Borrow file !! borrow_id = Some b → is_open b →
     ∃ file',
       return_book borrow_id return_date file = (Returns true, file')
       ∧ Borrow file' !! borrow_id = Some (with_return_date return_date b)
       ∧ (∀ bk, Books file !! Borrow_book_id b = Some bk →
                Books file' !! Borrow_book_id b = Some (with_available 1 bk))
       ∧ (Books file !! Borrow_book_id b = None → Books file' = Books file))
  ∧ (∀ cs borrow_id b,
       Borrow (run_all cs init_db) !! borrow_id = Some b →
       is_Some (Books (run_all cs init_db) !! Borrow_book_id b)).
Proof.
  split.
  - intros file borrow_id return_date b Hb Hopen.
    exists (after_return borrow_id return_date b file).
    rewrite return_book_eq, Hb.
    destruct (decide (is_open b)); [|done].
    split; [done|]. rewrite after_return_Borrow, after_return_Books.
    split; [apply lookup_insert_eq|]. split.
    + intros bk Hbk. rewrite Hbk. apply lookup_insert_eq.
    + by intros ->.
  - intros cs borrow_id b Hb. by eapply reachable_references_resolve.
Qed.

Lemma return_book_flips_existing_copy_witness :
  (∃ file',
     return_book 1 (Some "2025-12-23") busy_library = (Returns true, file')
     ∧ Books_available <$> Books file' !! 1 = Some 1)
  ∧ is_Some (Books (run_all override_script init_db) !! 1).
Proof.
  pose (rec1 := {| Borrow_book_id := 1; Borrow_user_id := 1;
                   Borrow_borrow_date := "2025-12-19";
                   Borrow_return_date := None |}).
  split.
  - destruct (proj1 return_book_flips_existing_copy busy_library 1
                (Some "2025-12-23") rec1) as (file' & Hrun & _ & Hflip & _).
    + vm_compute. reflexivity.
    + reflexivity.
    + exists file'. split; [exact Hrun|].
      assert (Hrow : Books file' !! 1
                     = Some {| Books_title := "Harry Potter";
                               Books_author := "J.K. Rowling";
                               Books_year := Some 1997; Books_available := 1 |}).
      { apply (Hflip {| Books_title := "Harry Potter"; Books_author := "J.K. Rowling";
                        Books_year := Some 1997; Books_available := 0 |}).
        vm_compute. reflexivity. }
      rewrite Hrow. reflexivity.
  - apply (proj2 return_book_flips_existing_copy override_script 2
             {| Borrow_book_id := 1; Borrow_user_id := 1;
                Borrow_borrow_date := "2025-01-02";
                Borrow_return_date := None |}).
    vm_compute. reflexivity.
Defined.

(** * The ledger invariant *)

(** C1, as stated, fails: after [override_script] the records 1 and 2 are
    both open on copy 1, and likewise after [null_return_script]. *)
Lemma override_allows_second_open_record :
  ¬ one_open_per_copy (run_all override_script init_db)
  ∧ ¬ one_open_per_copy (run_all null_return_script init_db).
Proof.
  split; intros Hone;
    specialize (Hone 1 2
      {| Borrow_book_id := 1; Borrow_user_id := 1;
         Borrow_borrow_date := "2025-01-01"; Borrow_return_date := None |}
      {| Borrow_book_id := 1; Borrow_user_id := 1;
         Borrow_borrow_date := "2025-01-02"; Borrow_return_date := None |});
    (assert (H12 : (1 : Z) = 2); [|discriminate]);
    apply Hone; vm_compute; reflexivity.
Qed.

Lemma ledger_consistent_tables d d' :
  Books d' = Books d → Borrow d' = Borrow d →
  ledger_consistent d → ledger_consistent d'.
Proof.
  unfold ledger_consistent, one_open_per_copy, open_means_unavailable.
  intros -> ->. done.
Qed.

Lemma add_book_keeps_ledger t a y d :
  ledger_consistent d → ledger_consistent (add_book t a y d).2.
Proof.
  intros [Hone Hflag]. rewrite add_book_eq.
  destruct (match y with Some y0 => int64 y0 | None => true end); [|done].
  destruct t as [t|], a as [a|]; try done. simpl. split.
  - exact Hone.
  - intros i b Hb Hopen. simpl in *.
    destruct (Hflag i b Hb Hopen) as (bk & Hbk & Hav). exists bk. split; [|done].
    rewrite lookup_insert_ne; [done|]. intros Heq.
    rewrite <- Heq, next_rowid_fresh in Hbk. done.
Qed.

Lemma update_book_availability_keeps_ledger book_id available d :
  respects_ledger (Update_book_availability book_id available) d →
  ledger_consistent d →
  ledger_consistent (update_book_availability book_id available d).2.
Proof.
  intros Hresp [Hone Hflag]. rewrite update_book_availability_eq.
  destruct (negb _); [done|].
  destruct (Books d !! book_id) as [bk0|] eqn:Hbk0; [|by rewrite not_found_store].
  split.
  - exact Hone.
  - intros i b Hb Hopen. simpl in *.
    destruct (Hflag i b Hb Hopen) as (bk & Hbk & Hav).
    destruct (decide (Borrow_book_id b = book_id)) as [Heq|Hne].
    + rewrite Heq, lookup_insert_eq. eexists. split; [done|]. simpl.
      intros Hv. by apply (Hresp Hv i b).
    + rewrite lookup_insert_ne; [eauto|congruence].
Qed.

Lemma delete_book_keeps_ledger book_id d :
  ledger_consistent d → ledger_consistent (delete_book book_id d).2.
Proof.
  intros [Hone Hflag]. rewrite delete_book_eq.
  destruct (binds (Books d) book_id); [|done].
  destruct (0 <? _)%nat eqn:Hcnt; [done|].
  destruct (Books d !! book_id) as [bk0|]; [|done]. split.
  - exact Hone.
  - intros i b Hb Hopen. simpl in *.
    destruct (Hflag i b Hb Hopen) as (bk & Hbk & Hav). exists bk. split; [|done].
    apply Nat.ltb_ge in Hcnt.
    assert (Hzero : count_where (λ b, Borrow_book_id b = book_id) (Borrow d) = 0%nat)
      by lia.
    pose proof (proj1 (count_where_zero _ _) Hzero i b Hb) as Hne. simpl in Hne.
    rewrite lookup_delete_ne; [done|congruence].
Qed.

Lemma borrow_book_keeps_ledger user_id book_id borrow_date d :
  ledger_consistent d → ledger_consistent (borrow_book user_id book_id borrow_date d).2.
Proof.
  intros [Hone Hflag]. rewrite borrow_book_eq.
  destruct (Users d !! user_id) as [usr|]; [|by rewrite not_found_store].
  destruct (Books d !! book_id) as [bk|] eqn:Hbk; [|by rewrite not_found_store].
  destruct (Books_available bk =? 1) eqn:Hav; [|done].
  destruct borrow_date as [date|]; [|done].
  apply Z.eqb_eq in Hav.
  assert (Hfree : ∀ i b, Borrow d !! i = Some b → is_open b → Borrow_book_id b ≠ book_id).
  { intros i b Hb Hopen Heq.
    destruct (Hflag i b Hb Hopen) as (bk' & Hbk' & Hav').
    rewrite Heq, Hbk in Hbk'. congruence. }
  split.
  - intros i j bi bj Hi Hj Hoi Hoj Hsame. simpl in *.
    apply lookup_insert_Some in Hi as [[<- <-]|[Hni Hi]];
      apply lookup_insert_Some in Hj as [[<- <-]|[Hnj Hj]]; simpl in *.
    + done.
    + by destruct (Hfree j bj Hj Hoj).
    + by destruct (Hfree i bi Hi Hoi).
    + by eapply Hone.
  - intros i b Hb Hopen. simpl in *.
    apply lookup_insert_Some in Hb as [[_ <-]|[_ Hb]]; simpl.
    + rewrite lookup_insert_eq. eexists. split; [done|]. simpl. lia.
    + rewrite lookup_insert_ne; [by eapply Hflag|].
      intros Heq. by apply (Hfree i b Hb Hopen).
Qed.

Lemma return_book_keeps_ledger borrow_id (date : string) d :
  ledger_consistent d → ledger_consistent (return_book borrow_id (Some date) d).2.
Proof.
  intros [Hone Hflag]. rewrite return_book_eq.
  destruct (Borrow d !! borrow_id) as [b0|] eqn:Hb0; [|by rewrite not_found_store].
  destruct (decide (is_open b0)) as [Hopen0|]; [|done].
  assert (Hold : ∀ i b,
            Borrow (after_return borrow_id (Some date) b0 d) !! i = Some b →
            is_open b → i ≠ borrow_id ∧ Borrow d !! i = Some b).
  { intros i b Hb Hopen. rewrite after_return_Borrow in Hb.
    apply lookup_insert_Some in Hb as [[_ <-]|[Hne Hb]]; [done|].
    split; [congruence|done]. }
  split.
  - intros i j bi bj Hi Hj Hoi Hoj Hsame. simpl in *.
    destruct (Hold i bi Hi Hoi) as [_ Hi'].
    destruct (Hold j bj Hj Hoj) as [_ Hj'].
    by eapply Hone.
  - intros i b Hb Hopen. simpl in *.
    destruct (Hold i b Hb Hopen) as [Hne Hb'].
    destruct (Hflag i b Hb' Hopen) as (bk & Hbk & Hav). exists bk. split; [|done].
    rewrite after_return_Books.
    destruct (Books d !! Borrow_book_id b0) as [bk0|]; [|done].
    rewrite lookup_insert_ne; [done|]. intros Heq.
    apply Hne. by apply (Hone i borrow_id b b0).
Qed.

Lemma run_keeps_ledger c d :
  respects_ledger c d → ledger_consistent d → ledger_consistent (run c d).
Proof.
  intros Hresp Hcons.
  destruct c as [t a y|bid v|bid|n p e|u n p e|u|u bid dt|i dt]; simpl.
  - by apply add_book_keeps_ledger.
  - by apply update_book_availability_keeps_ledger.
  - by apply delete_book_keeps_ledger.
  - destruct (create_user_tables n p e d). by eapply ledger_consistent_tables.
  - destruct (update_user_tables u n p e d). by eapply ledger_consistent_tables.
  - destruct (delete_user_tables u d). by eapply ledger_consistent_tables.
  - by apply borrow_book_keeps_ledger.
  - destruct Hresp as [date ->]. by apply return_book_keeps_ledger.
Qed.

(** C1, amended.  In every store reached from the empty one by the
    program's operations, as long as [update_book_availability] is not used
    to flag a copy available while a borrow record on it is open and
    [return_book] is given a date, at most one open borrow record
    references each copy, and a copy with an open record has a row that is
    not flagged available. *)
Theorem ledger_reachable_one_open_per_copy d :
  ledger_reachable d → one_open_per_copy d ∧ open_means_unavailable d.
Proof.
  induction 1 as [|d c Hreach IH Hresp].
  - split.
    + intros i j bi bj Hi. simpl in Hi. by rewrite lookup_empty in Hi.
    + intros i b Hb. simpl in Hb. by rewrite lookup_empty in Hb.
  - by apply run_keeps_ledger.
Qed.

Lemma ledger_reachable_run_all cs d :
  ledger_reachable d →
  Forall (λ c, match c with
               | Update_book_availability _ v => v ≠ 1
               | Return_book _ dt => is_Some dt
               | _ => True
               end) cs →
  ledger_reachable (run_all cs d).
Proof.
  intros Hd Hcs. revert d Hd.
  induction Hcs as [|c cs Hc _ IH]; intros d Hd; [done|].
  simpl. apply IH. apply ledger_step; [done|].
  destruct c; try done. simpl. intros Hv. done.
Qed.

Lemma ledger_reachable_one_open_per_copy_witness :
  one_open_per_copy busy_library ∧ open_means_unavailable busy_library.
Proof.
  apply ledger_reachable_one_open_per_copy.
  unfold busy_library, stocked_library.
  repeat (apply ledger_reachable_run_all; [|repeat constructor; eauto]).
  apply ledger_init.
Defined.

(** * reports.py: the most-borrowed report *)

Section counting.
Context {A B : Type}.

Lemma length_filter_omap (f : A → option B)
    (P : B → Prop) `{!∀ y, Decision (P y)}
    (Q : A → Prop) `{!∀ x, Decision (Q x)} (l : list A) :
  (∀ x, Q x ↔ ∃ y, f x = Some y ∧ P y) →
  length (filter P (omap f l)) = length (filter Q l).
Proof.
  intros HQ. induction l as [|x l IH]; [done|].
  rewrite (filter_cons Q). cbn [omap list_omap].
  destruct (f x) as [y|] eqn:Hfx.
  - rewrite (filter_cons P).
    destruct (decide (P y)) as [HP|HP], (decide (Q x)) as [Hq|Hq]; simpl.
    + by rewrite IH.
    + destruct Hq. apply HQ. eauto.
    + apply HQ in Hq as (y' & Hy' & HP'). congruence.
    + done.
  - destruct (decide (Q x)) as [Hq|Hq]; [|done].
    apply HQ in Hq as (y' & Hy' & _). congruence.
Qed.

Lemma length_filter_split
    (P P1 P2 : A → Prop)
    `{!∀ x, Decision (P x)} `{!∀ x, Decision (P1 x)} `{!∀ x, Decision (P2 x)}
    (l : list A) :
  (∀ x, P x ↔ P1 x ∨ P2 x) → (∀ x, P1 x → P2 x → False) →
  length (filter P l) = (length (filter P1 l) + length (filter P2 l))%nat.
Proof.
  intros Hor Hdisj. induction l as [|x l IH]; [done|].
  rewrite !filter_cons.
  destruct (decide (P x)) as [HP|HP], (decide (P1 x)) as [Hp1|Hp1],
           (decide (P2 x)) as [Hp2|Hp2]; simpl; rewrite ?IH; try lia.
  - by destruct (Hdisj x).
  - apply Hor in HP as [?|?]; done.
  - destruct HP. apply Hor. by left.
  - destruct HP. apply Hor. by left.
  - destruct HP. apply Hor. by right.
Qed.

Lemma filter_rows_of_groups `{!EqDecision A} (g : A → B) (key : B → A) (k : A)
    (l : list A) :
  (∀ x, key (g x) = x) → NoDup l →
  filter (λ y, key y = k) (g <$> l) = if decide (k ∈ l) then [g k] else [].
Proof.
  intros Hkey Hnd. induction Hnd as [|x l Hx Hnd IH]; [done|].
  rewrite fmap_cons, filter_cons, IH, Hkey.
  destruct (decide (x = k)) as [->|Hne].
  - rewrite decide_False by done.
    rewrite decide_True by (by left). done.
  - destruct (decide (k ∈ l)) as [Hin|Hin].
    + rewrite decide_True by (by right). done.
    + rewrite decide_False; [done|].
      intros [?|?]%elem_of_cons; done.
Qed.
End counting.

Lemma by_count_desc_total : Total by_count_desc.
Proof. intros r1 r2. unfold by_count_desc. lia. Qed.

Lemma by_count_desc_trans : Transitive by_count_desc.
Proof. intros r1 r2 r3. unfold by_count_desc. lia. Qed.

(** The rows of the joined table in a group are the borrow records whose
    copy has that title and author. *)
Lemma joined_group_count d k :
  length (filter (λ jr, group_key jr = k) (join_Borrow_Books d))
  = count_where (borrows_title d k) (Borrow d).
Proof.
  unfold join_Borrow_Books, count_where.
  apply length_filter_omap. intros b. unfold borrows_title, group_key.
  destruct (Books d !! Borrow_book_id b) as [bk|]; simpl.
  - split; [eauto|]. by intros (y & [= <-] & Hy).
  - split; [done|]. by intros (y & [=] & _).
Qed.

(** One row per title and author: the rows of the report with title and
    author [k] are the single row carrying the size of the group, or none
    when no borrow record is paired with such a copy. *)
Lemma most_borrowed_books_group d k :
  filter (λ r, (title r, author r) = k) (most_borrowed_books d)
  = if decide (count_where (borrows_title d k) (Borrow d) = 0%nat) then []
    else [group_row k (count_where (borrows_title d k) (Borrow d))].
Proof.
  set (joined := join_Borrow_Books d).
  set (groups := remove_dups (group_key <$> joined)).
  set (g := λ k : string * string,
              {| title := k.1; author := k.2;
                 borrow_count := length (filter (λ jr, group_key jr = k) joined) |}).
  assert (Hperm : filter (λ r, (title r, author r) = k) (most_borrowed_books d)
                  ≡ₚ filter (λ r, (title r, author r) = k) (g <$> groups)).
  { apply filter_Permutation. apply merge_sort_Permutation. }
  rewrite (filter_rows_of_groups g (λ r, (title r, author r)) k groups) in Hperm.
  2: { by intros [t a]. }
  2: { apply NoDup_remove_dups. }
  assert (Hcount : length (filter (λ jr, group_key jr = k) joined)
                   = count_where (borrows_title d k) (Borrow d))
    by apply joined_group_count.
  assert (Hin : k ∈ groups ↔ count_where (borrows_title d k) (Borrow d) ≠ 0%nat).
  { unfold groups. rewrite elem_of_remove_dups, list_elem_of_fmap, <- Hcount. split.
    - intros (jr & -> & Hjr) Hlen.
      assert (Hf : jr ∈ filter (λ jr', group_key jr' = group_key jr) joined)
        by (by apply list_elem_of_filter).
      destruct (filter (λ jr', group_key jr' = group_key jr) joined);
        [by apply elem_of_nil in Hf|done].
    - intros Hlen.
      destruct (filter (λ jr, group_key jr = k) joined) as [|jr l] eqn:E; [done|].
      assert (Hf : jr ∈ filter (λ jr, group_key jr = k) joined)
        by (rewrite E; left).
      apply list_elem_of_filter in Hf as [Hk Hjr]. eauto. }
  destruct (decide (k ∈ groups)) as [Hk|Hk];
    destruct (decide (count_where (borrows_title d k) (Borrow d) = 0%nat)) as [Hz|Hz].
  - by apply Hin in Hk.
  - apply Permutation_singleton_r in Hperm. rewrite Hperm.
    unfold g, group_row. by rewrite Hcount.
  - by apply Permutation_nil_r in Hperm.
  - destruct Hk. by apply Hin.
Qed.

(** C8. The report is ordered by borrow count, largest first.  It has one
    row per title and author: the rows with a given title and author are
    the single row counting every borrow record of every copy with that
    title and author, or no row when there is no such record.  For two
    distinct copies that share title and author, and are the only copies
    that do, the count of that row is the number of borrow records of the
    one plus the number of borrow records of the other. *)
Theorem most_borrowed_books_groups_copies d :
  StronglySorted by_count_desc (most_borrowed_books d)
  ∧ (∀ k,
       filter (λ r, (title r, author r) = k) (most_borrowed_books d)
       = if decide (count_where (borrows_title d k) (Borrow d) = 0%nat) then []
         else [group_row k (count_where (borrows_title d k) (Borrow d))])
  ∧ (∀ c1 c2 bk1 bk2,
       c1 ≠ c2 →
       Books d !! c1 = Some bk1 → Books d !! c2 = Some bk2 →
       Books_title bk2 = Books_title bk1 → Books_author bk2 = Books_author bk1 →
       (∀ c bk, Books d !! c = Some bk →
                Books_title bk = Books_title bk1 → Books_author bk = Books_author bk1 →
                c = c1 ∨ c = c2) →
       let k := (Books_title bk1, Books_author bk1) in
       let n := (count_where (λ b, Borrow_book_id b = c1) (Borrow d)
                 + count_where (λ b, Borrow_book_id b = c2) (Borrow d))%nat in
       filter (λ r, (title r, author r) = k) (most_borrowed_books d)
       = if decide (n = 0%nat) then [] else [group_row k n]).
Proof.
  split; [|split].
  - apply StronglySorted_merge_sort.
    + apply by_count_desc_trans.
    + apply by_count_desc_total.
  - apply most_borrowed_books_group.
  - intros c1 c2 bk1 bk2 Hne H1 H2 Ht Ha Honly k n.
    rewrite most_borrowed_books_group.
    assert (Hsum : count_where (borrows_title d k) (Borrow d) = n).
    { unfold n, count_where. apply length_filter_split.
      - intros b. unfold borrows_title, k. split.
        + destruct (Books d !! Borrow_book_id b) as [bk|] eqn:Hbk; [|done].
          intros [= Htb Hab]. by apply (Honly _ bk).
        + intros [-> | ->].
          * by rewrite H1.
          * rewrite H2. by rewrite Ht, Ha.
      - intros b Hb1 Hb2. congruence. }
    by rewrite Hsum.
Qed.

Lemma most_borrowed_books_groups_copies_witness :
  filter (λ r, (title r, author r) = ("Harry Potter", "J.K. Rowling"))
         (most_borrowed_books busy_library)
  = [group_row ("Harry Potter", "J.K. Rowling") 2].
Proof.
  pose (hp := λ v, {| Books_title := "Harry Potter"; Books_author := "J.K. Rowling";
                      Books_year := Some 1997; Books_available := v |}).
  assert (Hn : (count_where (λ b, Borrow_book_id b = 1%Z) (Borrow busy_library)
                + count_where (λ b, Borrow_book_id b = 2%Z) (Borrow busy_library))%nat
               = 2%nat) by (vm_compute; reflexivity).
  etrans.
  - apply (proj2 (proj2 (most_borrowed_books_groups_copies busy_library))
             1 2 (hp 0) (hp 1)).
    + lia.
    + vm_compute. reflexivity.
    + vm_compute. reflexivity.
    + reflexivity.
    + reflexivity.
    + intros c bk Hc Ht Ha.
      assert (Hin : (c, bk) ∈ map_to_list (Books busy_library))
        by (by apply elem_of_map_to_list).
      vm_compute in Hin.
      clear Hc Hn.
      repeat (apply elem_of_cons in Hin as [[= -> ->]|Hin];
              [first [by left | by right | by simpl in Ht]|]).
      by apply elem_of_nil in Hin.
  - cbv zeta. rewrite Hn. reflexivity.
Defined.

(** * users.py: the member registry *)

Lemma email_taken_true d self e :
  email_taken d self e = true ↔
  ∃ k u, Users d !! k = Some u ∧ Some k ≠ self ∧ Users_email u = Some e.
Proof.
  unfold email_taken. rewrite bool_decide_eq_true, Exists_exists. split.
  - intros ([k u] & Hin & Hk & He). apply elem_of_map_to_list in Hin. eauto.
  - intros (k & u & Hu & Hk & He). exists (k, u). split; [|done].
    by apply elem_of_map_to_list.
Qed.

Lemma email_taken_false d self e :
  email_taken d self e = false ↔
  ∀ k u, Users d !! k = Some u → Some k ≠ self → Users_email u ≠ Some e.
Proof.
  rewrite <- not_true_iff_false, email_taken_true. split.
  - intros Hno k u Hu Hk He. apply Hno. eauto.
  - intros Hall (k & u & Hu & Hk & He). by apply (Hall k u).
Qed.

Lemma create_user_eq name phone email file :
  create_user name phone email file =
  match name with
  | None => (Raises IntegrityError, file)
  | Some n =>
      if match email with Some e => email_taken file None e | None => false end
      then (Raises IntegrityError, file)
      else
        let user_id := next_rowid (seq_Users file) (Users file) in
        (Returns user_id,
         {| Books := Books file;
            Users := <[user_id := {| Users_name := n; Users_phone := phone;
                                     Users_email := email |}]> (Users file);
            Borrow := Borrow file;
            seq_Books := seq_Books file; seq_Users := user_id;
            seq_Borrow := seq_Borrow file |})
  end.
Proof.
  unfold create_user, execute, insert_Users; simpl.
  destruct name; [|done].
  by destruct (match email with Some e => email_taken file None e | None => false end).
Qed.

Lemma update_user_eq user_id name phone email file :
  update_user user_id name phone email file =
  match name, phone, email with
  | None, None, None => (Returns false, file)
  | _, _, _ =>
      match Users file !! user_id with
      | None => not_found user_id false file
      | Some u =>
          if match email with Some e => email_taken file (Some user_id) e | None => false end
          then (Raises IntegrityError, file)
          else (Returns true,
                set_Users (insert user_id (updated_user name phone email u)) file)
      end
  end.
Proof.
  assert (Hexec : ∀ n p e,
    match execute (update_Users user_id n p e) (get_connection file) with
    | (Raises x, conn) => (Raises x, close conn)
    | (Returns rowcount, conn) => (Returns (0 <? rowcount)%nat, close (commit conn))
    end =
    match Users file !! user_id with
    | None => not_found user_id false file
    | Some u =>
        if match e with Some e0 => email_taken file (Some user_id) e0 | None => false end
        then (Raises IntegrityError, file)
        else (Returns true, set_Users (insert user_id (updated_user n p e u)) file)
    end).
  { intros n p e. unfold execute, update_Users, binding, not_found; simpl.
    destruct (Users file !! user_id) as [u|] eqn:Hu.
    - rewrite (binds_found _ _ _ Hu).
      by destruct (match e with
                   | Some e0 => email_taken file (Some user_id) e0
                   | None => false
                   end).
    - rewrite (binds_absent _ _ Hu). by destruct (int64 user_id). }
  unfold update_user. destruct name, phone, email; try apply Hexec. done.
Qed.

Lemma delete_user_eq user_id file :
  delete_user user_id file =
  if binds (Users file) user_id then
    if (0 <? count_where (λ b, Borrow_user_id b = user_id ∧ is_open b) (Borrow file))%nat
    then (Returns false, file)
    else
      match Users file !! user_id with
      | None => (Returns false, file)
      | Some _ =>
          if (0 <? count_where (λ b, Borrow_user_id b = user_id) (Borrow file))%nat
          then (Raises IntegrityError, file)
          else (Returns true, set_Users (delete user_id) file)
      end
  else (Raises OverflowError, file).
Proof.
  unfold delete_user, execute, count_open_Borrow_of_user, delete_Users, user_referenced,
    binding; simpl.
  destruct (binds (Users file) user_id) eqn:Hb; [|done]. simpl.
  destruct (0 <? _)%nat; [done|]. rewrite Hb.
  destruct (Users file !! user_id) as [u|]; [|done].
  by destruct (0 <? _)%nat.
Qed.

(** X1. [create_user] with a name and an email no member holds (or no
    email) stores the member under an unused identity and touches nothing
    else; without a name, or with an email some member already holds, it
    raises [IntegrityError] and the store is as before. *)
Theorem create_user_contract file name phone email :
  (∀ n, name = Some n →
        (∀ e k u, email = Some e → Users file !! k = Some u → Users_email u ≠ Some e) →
        ∃ user_id file',
          create_user name phone email file = (Returns user_id, file')
          ∧ Users file !! user_id = None
          ∧ Users file' = <[user_id := {| Users_name := n; Users_phone := phone;
                                          Users_email := email |}]> (Users file)
          ∧ Books file' = Books file ∧ Borrow file' = Borrow file)
  ∧ (name = None
     ∨ (∃ e k u, email = Some e ∧ Users file !! k = Some u ∧ Users_email u = Some e) →
     create_user name phone email file = (Raises IntegrityError, file)).
Proof.
  rewrite create_user_eq. split.
  - intros n -> Hfree.
    assert (Hno : match email with Some e => email_taken file None e | None => false end
                  = false).
    { destruct email as [e|]; [|done]. apply email_taken_false.
      intros k u Hu _. by apply (Hfree e k u). }
    rewrite Hno. eexists _, _. split; [reflexivity|]. simpl.
    split; [apply next_rowid_fresh|done].
  - intros [-> | (e & k & u & -> & Hu & He)]; [done|].
    destruct name as [n|]; [|done].
    assert (Hyes : email_taken file None e = true).
    { apply email_taken_true. by exists k, u. }
    by rewrite Hyes.
Qed.

Lemma create_user_contract_witness :
  (∃ user_id file',
     create_user (Some "Carol Stein") None None busy_library = (Returns user_id, file')
     ∧ Users busy_library !! user_id = None)
  ∧ create_user (Some "Alice Again") None (Some "alice@example.com") busy_library
    = (Raises IntegrityError, busy_library).
Proof.
  split.
  - destruct (proj1 (create_user_contract busy_library (Some "Carol Stein") None None)
                "Carol Stein") as (user_id & file' & Hrun & Hfresh & _).
    + reflexivity.
    + intros e k u [=].
    + exists user_id, file'. split; [exact Hrun|exact Hfresh].
  - apply (proj2 (create_user_contract busy_library (Some "Alice Again") None
                    (Some "alice@example.com"))).
    right.
    exists "alice@example.com", 1,
      {| Users_name := "Alice Cohen"; Users_phone := Some "050-1111111";
         Users_email := Some "alice@example.com" |}.
    split; [reflexivity|]. split; vm_compute; reflexivity.
Defined.

(** X2. [update_user] returns [False] and writes nothing when no field is
    given, whatever the identity is.  With a field given: when the member
    has no row it returns [False] and writes nothing if the identity is an
    integer SQLite holds, and raises [OverflowError], writing nothing, if it
    is not.  When the member has a row and the email given is held by no
    other member, it returns [True] and replaces exactly the fields given
    (a field passed as [None] keeps its value, so no field can be cleared),
    leaving books and borrow records alone; when another member holds the
    email it raises [IntegrityError] and the store is as before. *)
Theorem update_user_contract file user_id name phone email :
  update_user user_id None None None file = (Returns false, file)
  ∧ (Users file !! user_id = None → int64 user_id = true →
     update_user user_id name phone email file = (Returns false, file))
  ∧ (Users file !! user_id = None → int64 user_id = false →
     is_Some name ∨ is_Some phone ∨ is_Some email →
     update_user user_id name phone email file = (Raises OverflowError, file))
  ∧ (∀ u, Users file !! user_id = Some u →
          is_Some name ∨ is_Some phone ∨ is_Some email →
          (∀ e k v, email = Some e → Users file !! k = Some v → k ≠ user_id →
                    Users_email v ≠ Some e) →
          ∃ file',
            update_user user_id name phone email file = (Returns true, file')
            ∧ Users file' = <[user_id := updated_user name phone email u]> (Users file)
            ∧ Books file' = Books file ∧ Borrow file' = Borrow file)
  ∧ (∀ e k v, is_Some (Users file !! user_id) → email = Some e →
              Users file !! k = Some v → k ≠ user_id → Users_email v = Some e →
              update_user user_id name phone email file = (Raises IntegrityError, file)).
Proof.
  split; [done|]. rewrite update_user_eq. unfold not_found.
  split; [|split; [|split]].
  - intros -> ->. by destruct name, phone, email.
  - intros -> -> Hgiven.
    destruct name, phone, email; try done.
    destruct Hgiven as [[? ?]|[[? ?]|[? ?]]]; done.
  - intros u -> Hgiven Hfree.
    assert (Hno : match email with
                  | Some e => email_taken file (Some user_id) e
                  | None => false
                  end = false).
    { destruct email as [e|]; [|done]. apply email_taken_false.
      intros k v Hv Hk. apply (Hfree e k v); [done|done|congruence]. }
    rewrite Hno.
    destruct name, phone, email;
      try (eexists; split; [reflexivity|done]).
    destruct Hgiven as [[? ?]|[[? ?]|[? ?]]]; done.
  - intros e k v [u ->] -> Hv Hk He.
    assert (Hyes : email_taken file (Some user_id) e = true).
    { apply email_taken_true. exists k, v. split; [done|]. split; [congruence|done]. }
    rewrite Hyes. by destruct name, phone.
Qed.

Lemma update_user_contract_witness :
  update_user 7 (Some "Nobody") None None busy_library = (Returns false, busy_library)
  ∧ update_user 9223372036854775808 (Some "Nobody") None None busy_library
    = (Raises OverflowError, busy_library)
  ∧ (∃ file',
       update_user 2 None (Some "052-9999999") None busy_library = (Returns true, file')
       ∧ Users file' =
           <[2 := {| Users_name := "Bob Levi"; Users_phone := Some "052-9999999";
                     Users_email := Some "bob@example.com" |}]> (Users busy_library))
  ∧ update_user 2 None None (Some "alice@example.com") busy_library
    = (Raises IntegrityError, busy_library).
Proof.
  pose (alice := {| Users_name := "Alice Cohen"; Users_phone := Some "050-1111111";
                    Users_email := Some "alice@example.com" |}).
  pose (bob := {| Users_name := "Bob Levi"; Users_phone := Some "052-2222222";
                  Users_email := Some "bob@example.com" |}).
  split; [|split; [|split]].
  - apply (proj1 (proj2 (update_user_contract busy_library 7 (Some "Nobody") None None)));
      vm_compute; reflexivity.
  - apply (proj1 (proj2 (proj2 (update_user_contract busy_library 9223372036854775808
                                  (Some "Nobody") None None))));
      [vm_compute; reflexivity|vm_compute; reflexivity|].
    left. eauto.
  - destruct (proj1 (proj2 (proj2 (proj2 (update_user_contract busy_library 2 None
                                     (Some "052-9999999") None)))) bob)
      as (file' & Hrun & Husers & _).
    + vm_compute. reflexivity.
    + right. left. eauto.
    + intros e k v [=].
    + exists file'. split; [exact Hrun|exact Husers].
  - apply (proj2 (proj2 (proj2 (proj2 (update_user_contract busy_library 2 None None
                                  (Some "alice@example.com")))))
             "alice@example.com" 1 alice).
    + exists bob. vm_compute. reflexivity.
    + reflexivity.
    + vm_compute. reflexivity.
    + lia.
    + reflexivity.
Defined.

(** X3. For an identity that has a row or is an integer SQLite holds:
    [delete_user] returns [False] and writes nothing while the member has
    an open borrow record.  A member whose borrow records are all closed
    cannot be deleted either: the foreign key of [Borrow] makes the DELETE
    raise [IntegrityError], and the store is as before.  A member no record
    references is removed ([True]); an identity without a row gives
    [False].  An identity without a row that SQLite cannot hold makes
    [delete_user] raise [OverflowError], the store as before. *)
Theorem delete_user_contract file user_id :
  (is_Some (Users file !! user_id) ∨ int64 user_id = true →
   ((∃ i b, Borrow file !! i = Some b ∧ Borrow_user_id b = user_id ∧ is_open b) →
      delete_user user_id file = (Returns false, file))
   ∧ ((∀ i b, Borrow file !! i = Some b → Borrow_user_id b = user_id → ¬ is_open b) →
      (∃ i b, Borrow file !! i = Some b ∧ Borrow_user_id b = user_id) →
      is_Some (Users file !! user_id) →
      delete_user user_id file = (Raises IntegrityError, file))
   ∧ ((∀ i b, Borrow file !! i = Some b → Borrow_user_id b ≠ user_id) →
      (is_Some (Users file !! user_id) →
         ∃ file', delete_user user_id file = (Returns true, file')
                  ∧ Users file' = delete user_id (Users file)
                  ∧ Books file' = Books file ∧ Borrow file' = Borrow file)
      ∧ (Users file !! user_id = None →
           delete_user user_id file = (Returns false, file))))
  ∧ (Users file !! user_id = None → int64 user_id = false →
       delete_user user_id file = (Raises OverflowError, file)).
Proof.
  rewrite delete_user_eq. split.
  2:{ intros Hu Hint. by rewrite (binds_absent _ _ Hu), Hint. }
  intros Hbinds.
  assert (binds (Users file) user_id = true) as ->.
  { destruct Hbinds as [[u Hu]|Hint];
      [by eapply binds_found|by apply binds_int64]. }
  split; [|split].
  - intros Hopen.
    apply (count_where_pos (λ b, Borrow_user_id b = user_id ∧ is_open b)) in Hopen.
    apply Nat.ltb_lt in Hopen. by rewrite Hopen.
  - intros Hclosed Href [u ->].
    assert (H0 : count_where (λ b, Borrow_user_id b = user_id ∧ is_open b) (Borrow file)
                 = 0%nat).
    { apply count_where_zero. intros i b Hb [Hu Ho]. by apply (Hclosed i b). }
    rewrite H0. simpl.
    apply (count_where_pos (λ b, Borrow_user_id b = user_id)) in Href.
    apply Nat.ltb_lt in Href. by rewrite Href.
  - intros Hnone.
    assert (H0 : count_where (λ b, Borrow_user_id b = user_id ∧ is_open b) (Borrow file)
                 = 0%nat).
    { apply count_where_zero. intros i b Hb [Hu Ho]. by apply (Hnone i b). }
    assert (H1 : count_where (λ b, Borrow_user_id b = user_id) (Borrow file) = 0%nat).
    { apply count_where_zero. intros i b Hb Hu. by apply (Hnone i b). }
    rewrite H0, H1. simpl. split.
    + intros [u ->]. eexists. split; [reflexivity|done].
    + by intros ->.
Qed.

Lemma delete_user_contract_witness :
  delete_user 1 busy_library = (Returns false, busy_library)
  ∧ delete_user 2 busy_library = (Raises IntegrityError, busy_library)
  ∧ delete_user 9 busy_library = (Returns false, busy_library)
  ∧ delete_user 9223372036854775808 busy_library = (Raises OverflowError, busy_library).
Proof.
  pose (open1 := {| Borrow_book_id := 1; Borrow_user_id := 1;
                    Borrow_borrow_date := "2025-12-19"; Borrow_return_date := None |}).
  pose (closed2 := {| Borrow_book_id := 2; Borrow_user_id := 2;
                      Borrow_borrow_date := "2025-12-19";
                      Borrow_return_date := Some "2025-12-20" |}).
  assert (Hrows : ∀ i b, Borrow busy_library !! i = Some b → b = open1 ∨ b = closed2).
  { intros i b Hb. apply elem_of_map_to_list in Hb. vm_compute in Hb.
    repeat (apply elem_of_cons in Hb as [[= -> ->]|Hb]; [by auto|]).
    destruct (proj1 (elem_of_nil _) Hb). }
  split; [|split; [|split]].
  - apply (proj1 (proj1 (delete_user_contract busy_library 1) (or_intror eq_refl))).
    exists 1, open1. split; [vm_compute; reflexivity|]. by split.
  - apply (proj1 (proj2 (proj1 (delete_user_contract busy_library 2)
                           (or_intror eq_refl)))).
    + intros i b Hb Hu Hopen. destruct (Hrows i b Hb) as [-> | ->]; clear Hb Hrows; discriminate.
    + exists 2, closed2. split; [vm_compute; reflexivity|reflexivity].
    + exists {| Users_name := "Bob Levi"; Users_phone := Some "052-2222222";
                Users_email := Some "bob@example.com" |}.
      vm_compute. reflexivity.
  - apply (proj2 (proj2 (proj1 (delete_user_contract busy_library 9)
                           (or_intror eq_refl)))).
    + intros i b Hb. destruct (Hrows i b Hb) as [-> | ->]; clear Hb Hrows; discriminate.
    + vm_compute. reflexivity.
  - apply (proj2 (delete_user_contract busy_library 9223372036854775808));
      vm_compute; reflexivity.
Defined.

(** * Every call makes at most one write *)

Lemma run_write_effect c d : write_effect d (run c d).
Proof.
  destruct c as [t a y|bid v|bid|n p e|u n p e|u|u bid dt|i dt]; simpl.
  - rewrite add_book_eq.
    destruct (match y with Some y0 => int64 y0 | None => true end); [|constructor].
    destruct t as [t|], a as [a|]; simpl; constructor.
  - rewrite update_book_availability_eq.
    destruct (negb _) eqn:Hguard; [constructor|].
    destruct (Books d !! bid) as [bk|] eqn:Hbk;
      [|rewrite not_found_store; constructor].
    simpl. apply wrote_flag; [done|].
    apply negb_false_iff, orb_true_iff in Hguard. lia.
  - rewrite delete_book_eq.
    destruct (binds (Books d) bid); [|constructor].
    destruct (0 <? _)%nat eqn:Hcnt; [constructor|].
    destruct (Books d !! bid) as [bk|]; [|constructor].
    simpl. apply wrote_book_deleted. intros i b Hb.
    apply Nat.ltb_ge in Hcnt.
    assert (Hzero : count_where (λ b, Borrow_book_id b = bid) (Borrow d) = 0%nat) by lia.
    exact (proj1 (count_where_zero _ _) Hzero i b Hb).
  - rewrite create_user_eq. destruct n as [n|]; [|constructor].
    destruct (match e with Some e0 => email_taken d None e0 | None => false end)
      eqn:Htaken; [constructor|].
    simpl. apply wrote_new_user. intros e0 k u0 -> Hu0.
    by apply (proj1 (email_taken_false d None e0) Htaken k u0).
  - rewrite update_user_eq.
    assert (Hmain : write_effect d
              (match Users d !! u with
               | None => not_found u false d
               | Some u0 =>
                   if match e with
                      | Some e0 => email_taken d (Some u) e0
                      | None => false
                      end
                   then (Raises IntegrityError, d)
                   else (Returns true, set_Users (insert u (updated_user n p e u0)) d)
               end).2).
    { destruct (Users d !! u) as [u0|] eqn:Hu0;
        [|rewrite not_found_store; constructor].
      destruct (match e with Some e0 => email_taken d (Some u) e0 | None => false end)
        eqn:Htaken; [constructor|].
      simpl. apply wrote_user_updated; [done|].
      intros e0 j v -> Hv Hj.
      apply (proj1 (email_taken_false d (Some u) e0) Htaken j v Hv). congruence. }
    destruct n, p, e; try exact Hmain. constructor.
  - rewrite delete_user_eq.
    destruct (binds (Users d) u); [|constructor].
    destruct (0 <? _)%nat; [constructor|].
    destruct (Users d !! u) as [u0|]; [|constructor].
    destruct (0 <? _)%nat eqn:Hcnt; [constructor|].
    simpl. apply wrote_user_deleted. intros i b Hb.
    apply Nat.ltb_ge in Hcnt.
    assert (Hzero : count_where (λ b, Borrow_user_id b = u) (Borrow d) = 0%nat) by lia.
    exact (proj1 (count_where_zero _ _) Hzero i b Hb).
  - rewrite borrow_book_eq.
    destruct (Users d !! u) as [u0|] eqn:Hu0;
      [|rewrite not_found_store; constructor].
    destruct (Books d !! bid) as [bk|] eqn:Hbk;
      [|rewrite not_found_store; constructor].
    destruct (Books_available bk =? 1) eqn:Hav; [|constructor].
    destruct dt as [date|]; [|constructor].
    simpl. apply wrote_borrow; [by eauto|done|by apply Z.eqb_eq].
  - rewrite return_book_eq.
    destruct (Borrow d !! i) as [b|] eqn:Hb;
      [|rewrite not_found_store; constructor].
    destruct (decide (is_open b)); [|constructor].
    simpl. by apply wrote_return.
Qed.

Lemma run_all_invariant (P : database → Prop) :
  (∀ d d', write_effect d d' → P d → P d') →
  ∀ cs d, P d → P (run_all cs d).
Proof.
  intros Hstep cs. induction cs as [|c cs IH]; intros d Hd; [done|].
  simpl. apply IH. by apply (Hstep d), Hd; apply run_write_effect.
Qed.

Lemma after_return_counters i dt b d :
  seq_Books (after_return i dt b d) = seq_Books d
  ∧ seq_Users (after_return i dt b d) = seq_Users d
  ∧ seq_Borrow (after_return i dt b d) = seq_Borrow d.
Proof. unfold after_return. by destruct (Books d !! Borrow_book_id b). Qed.

(** * Invariants of the stores the program produces *)

Lemma emails_unique_step d d' :
  write_effect d d' → emails_unique d → emails_unique d'.
Proof.
  intros Heff Huniq.
  destruct Heff as [|t a y|k bk v Hbk Hv|k Hfree|n p e Hfree|k u n p e Hu Hfree
                    |k Hfree|u k date bk Hu Hbk Hav|i0 dt b0 Hb0 Hopen0];
    try exact Huniq.
  - intros i j ui uj e0 Hi Hj Hei Hej. simpl in *.
    apply lookup_insert_Some in Hi as [[<- <-]|[Hni Hi]];
      apply lookup_insert_Some in Hj as [[<- <-]|[Hnj Hj]]; simpl in *.
    + done.
    + by destruct (Hfree e0 j uj Hei Hj).
    + by destruct (Hfree e0 i ui Hej Hi).
    + by eapply Huniq.
  - intros i j ui uj e0 Hi Hj Hei Hej. simpl in *.
    apply lookup_insert_Some in Hi as [[<- <-]|[Hni Hi]];
      apply lookup_insert_Some in Hj as [[<- <-]|[Hnj Hj]]; simpl in *.
    + done.
    + destruct e as [e1|].
      * by destruct (Hfree e0 j uj Hei Hj).
      * by destruct Hnj; eapply Huniq.
    + destruct e as [e1|].
      * by destruct (Hfree e0 i ui Hej Hi).
      * by destruct Hni; eapply Huniq.
    + by eapply Huniq.
  - intros i j ui uj e0 Hi Hj Hei Hej. simpl in *.
    apply lookup_delete_Some in Hi as [_ Hi].
    apply lookup_delete_Some in Hj as [_ Hj].
    by eapply Huniq.
  - intros i j ui uj e0 Hi Hj. rewrite after_return_Users in Hi, Hj.
    by eapply Huniq.
Qed.

Lemma member_references_step d d' :
  write_effect d d' → member_references_resolve d → member_references_resolve d'.
Proof.
  intros Heff Hres.
  destruct Heff as [|t a y|k bk v Hbk Hv|k Hfree|n p e Hfree|k u n p e Hu Hfree
                    |k Hfree|u k date bk Hu Hbk Hav|i0 dt b0 Hb0 Hopen0];
    try exact Hres.
  - intros i b Hb. simpl in *. apply lookup_insert_is_Some'. right. eauto.
  - intros i b Hb. simpl in *. apply lookup_insert_is_Some'. right. eauto.
  - intros i b Hb. simpl in *.
    rewrite lookup_delete_ne; [eauto|]. intros Heq. by apply (Hfree i b).
  - intros i b Hb. simpl in *.
    apply lookup_insert_Some in Hb as [[_ <-]|[_ Hb]]; [done|eauto].
  - intros i b Hb. rewrite after_return_Borrow in Hb. rewrite after_return_Users.
    apply lookup_insert_Some in Hb as [[_ <-]|[_ Hb]]; simpl; eauto.
Qed.

Lemma book_references_step d d' :
  write_effect d d' → book_references_resolve d → book_references_resolve d'.
Proof.
  intros Heff Hres.
  destruct Heff as [|t a y|k bk v Hbk Hv|k Hfree|n p e Hfree|k u n p e Hu Hfree
                    |k Hfree|u k date bk Hu Hbk Hav|i0 dt b0 Hb0 Hopen0];
    try exact Hres.
  - intros i b Hb. simpl in *. apply lookup_insert_is_Some'. right. eauto.
  - intros i b Hb. simpl in *. apply lookup_insert_is_Some'. right. eauto.
  - intros i b Hb. simpl in *.
    rewrite lookup_delete_ne; [eauto|]. intros Heq. by apply (Hfree i b).
  - intros i b Hb. simpl in *. apply lookup_insert_is_Some'.
    apply lookup_insert_Some in Hb as [[_ <-]|[_ Hb]]; [by left|right; eauto].
  - intros i b Hb. rewrite after_return_Borrow in Hb. rewrite after_return_Books.
    assert (Hold : is_Some (Books d !! Borrow_book_id b)).
    { apply lookup_insert_Some in Hb as [[_ <-]|[_ Hb]]; simpl; eauto. }
    destruct (Books d !! Borrow_book_id b0) as [bk0|]; [|done].
    apply lookup_insert_is_Some'. by right.
Qed.

Lemma flags_step d d' :
  write_effect d d' → flags_are_boolean d → flags_are_boolean d'.
Proof.
  intros Heff Hflags.
  destruct Heff as [|t a y|k bk v Hbk Hv|k Hfree|n p e Hfree|k u n p e Hu Hfree
                    |k Hfree|u k date bk Hu Hbk Hav|i0 dt b0 Hb0 Hopen0];
    try exact Hflags.
  - intros k bk Hk. simpl in *.
    apply lookup_insert_Some in Hk as [[_ <-]|[_ Hk]]; [by right|eauto].
  - intros k' bk' Hk. simpl in *.
    apply lookup_insert_Some in Hk as [[_ <-]|[_ Hk]]; [done|eauto].
  - intros k' bk' Hk. simpl in *.
    apply lookup_delete_Some in Hk as [_ Hk]. eauto.
  - intros k' bk' Hk. simpl in *.
    apply lookup_insert_Some in Hk as [[_ <-]|[_ Hk]]; [by left|eauto].
  - intros k' bk' Hk. rewrite after_return_Books in Hk.
    destruct (Books d !! Borrow_book_id b0) as [bk0|]; [|eauto].
    apply lookup_insert_Some in Hk as [[_ <-]|[_ Hk]]; [by right|eauto].
Qed.

(** X4. In every store the program's operations produce from the empty
    one, a non-NULL email belongs to exactly one member. *)
Theorem reachable_emails_unique cs i j ui uj e :
  Users (run_all cs init_db) !! i = Some ui →
  Users (run_all cs init_db) !! j = Some uj →
  Users_email ui = Some e → Users_email uj = Some e → i = j.
Proof.
  revert i j ui uj e. fold (emails_unique (run_all cs init_db)).
  apply run_all_invariant; [apply emails_unique_step|].
  intros i j ui uj e Hi. simpl in Hi. by rewrite lookup_empty in Hi.
Qed.

Lemma reachable_emails_unique_witness : (2 : Z) = 2.
Proof.
  pose (bob := {| Users_name := "Bob Levi"; Users_phone := Some "052-2222222";
                  Users_email := Some "bob@example.com" |}).
  apply (reachable_emails_unique
           [Create_user (Some "Alice Cohen") (Some "050-1111111")
                        (Some "alice@example.com");
            Create_user (Some "Bob Levi") (Some "052-2222222") (Some "bob@example.com");
            Create_user (Some "Bob Again") None (Some "bob@example.com");
            Update_user 1 None None (Some "bob@example.com")]
           2 2 bob bob "bob@example.com").
  - vm_compute. reflexivity.
  - vm_compute. reflexivity.
  - reflexivity.
  - reflexivity.
Defined.

(** X5. In every store the program's operations produce from the empty
    one, the availability flag of every copy is 0 or 1. *)
Theorem reachable_flags_are_boolean cs k bk :
  Books (run_all cs init_db) !! k = Some bk →
  Books_available bk = 0 ∨ Books_available bk = 1.
Proof.
  revert k bk. fold (flags_are_boolean (run_all cs init_db)).
  apply run_all_invariant; [apply flags_step|].
  intros k bk Hk. simpl in Hk. by rewrite lookup_empty in Hk.
Qed.

Lemma reachable_flags_are_boolean_witness :
  Books_available
    {| Books_title := "Clean Code"; Books_author := "Robert C. Martin";
       Books_year := Some 2008; Books_available := 0 |} = 0
  ∨ Books_available
      {| Books_title := "Clean Code"; Books_author := "Robert C. Martin";
         Books_year := Some 2008; Books_available := 0 |} = 1.
Proof.
  apply (reachable_flags_are_boolean override_script 1).
  vm_compute. reflexivity.
Defined.

(** * The borrow history is append-only *)

Lemma history_step d d' i b :
  write_effect d d' → Borrow d !! i = Some b →
  ∃ b', Borrow d' !! i = Some b'
        ∧ Borrow_book_id b' = Borrow_book_id b
        ∧ Borrow_user_id b' = Borrow_user_id b
        ∧ Borrow_borrow_date b' = Borrow_borrow_date b
        ∧ (¬ is_open b → b' = b).
Proof.
  intros Heff Hb.
  destruct Heff as [|t a y|k bk v Hbk Hv|k Hfree|n p e Hfree|k u n p e Hu Hfree
                    |k Hfree|u k date bk Hu Hbk Hav|i0 dt b0 Hb0 Hopen0];
    try (by exists b).
  - exists b. split; [|done]. simpl.
    rewrite lookup_insert_ne; [done|]. intros Heq.
    rewrite <- Heq, next_rowid_fresh in Hb. done.
  - rewrite after_return_Borrow.
    destruct (decide (i0 = i)) as [->|Hne].
    + rewrite Hb in Hb0. injection Hb0 as ->.
      exists (with_return_date dt b0). rewrite lookup_insert_eq. done.
    + exists b. by rewrite lookup_insert_ne.
Qed.

(** X6. No sequence of calls deletes or rewrites a borrow record: a record
    keeps its identity, copy, member and borrow date for ever, and once it
    is closed its return date never changes either.  The rows of its copy
    and of its member, if present, can never be deleted. *)
Theorem borrow_history_is_kept cs d i b :
  Borrow d !! i = Some b →
  (∃ b', Borrow (run_all cs d) !! i = Some b'
         ∧ Borrow_book_id b' = Borrow_book_id b
         ∧ Borrow_user_id b' = Borrow_user_id b
         ∧ Borrow_borrow_date b' = Borrow_borrow_date b
         ∧ (¬ is_open b → b' = b))
  ∧ (is_Some (Books d !! Borrow_book_id b) →
     is_Some (Books (run_all cs d) !! Borrow_book_id b))
  ∧ (is_Some (Users d !! Borrow_user_id b) →
     is_Some (Users (run_all cs d) !! Borrow_user_id b)).
Proof.
  intros Hb.
  pose (P := λ d' : database,
    (∃ b', Borrow d' !! i = Some b'
           ∧ Borrow_book_id b' = Borrow_book_id b
           ∧ Borrow_user_id b' = Borrow_user_id b
           ∧ Borrow_borrow_date b' = Borrow_borrow_date b
           ∧ (¬ is_open b → b' = b))
    ∧ (is_Some (Books d !! Borrow_book_id b) → is_Some (Books d' !! Borrow_book_id b))
    ∧ (is_Some (Users d !! Borrow_user_id b) → is_Some (Users d' !! Borrow_user_id b))).
  change (P (run_all cs d)). apply run_all_invariant.
  - clear cs. intros d1 d2 Heff ((b1 & Hb1 & Hbook & Huser & Hdate & Hclosed) & HB & HU).
    destruct (history_step d1 d2 i b1 Heff Hb1)
      as (b2 & Hb2 & Hbook2 & Huser2 & Hdate2 & Hclosed2).
    split; [|split].
    + exists b2. repeat split; try congruence.
      intros Hc. rewrite <- (Hclosed Hc). apply Hclosed2.
      by rewrite (Hclosed Hc).
    + intros Hd. specialize (HB Hd).
      destruct Heff as [|t a y|k bk v Hbk Hv|k Hfree|n p e Hfree|k u n p e Hu Hfree
                        |k Hfree|u k date bk Hu Hbk Hav|i0 dt b0 Hb0 Hopen0];
        simpl; try exact HB.
      * apply lookup_insert_is_Some'. by right.
      * apply lookup_insert_is_Some'. by right.
      * rewrite lookup_delete_ne; [done|]. intros Heq. apply (Hfree i b1 Hb1). congruence.
      * apply lookup_insert_is_Some'. by right.
      * rewrite after_return_Books.
        destruct (Books d1 !! Borrow_book_id b0); [|done].
        apply lookup_insert_is_Some'. by right.
    + intros Hd. specialize (HU Hd).
      destruct Heff as [|t a y|k bk v Hbk Hv|k Hfree|n p e Hfree|k u n p e Hu Hfree
                        |k Hfree|u k date bk Hu Hbk Hav|i0 dt b0 Hb0 Hopen0];
        simpl; try exact HU.
      * apply lookup_insert_is_Some'. by right.
      * apply lookup_insert_is_Some'. by right.
      * rewrite lookup_delete_ne; [done|]. intros Heq. apply (Hfree i b1 Hb1). congruence.
      * by rewrite after_return_Users.
  - split; [by exists b|done].
Qed.

Lemma borrow_history_is_kept_witness :
  ∃ b', Borrow (run_all [Return_book 2 (Some "2026-02-01"); Delete_book 2;
                         Delete_user 2; Update_book_availability 2 0]
                  busy_library) !! 2 = Some b'
        ∧ b' = {| Borrow_book_id := 2; Borrow_user_id := 2;
                  Borrow_borrow_date := "2025-12-19";
                  Borrow_return_date := Some "2025-12-20" |}.
Proof.
  destruct (proj1 (borrow_history_is_kept
                     [Return_book 2 (Some "2026-02-01"); Delete_book 2;
                      Delete_user 2; Update_book_availability 2 0]
                     busy_library 2
                     {| Borrow_book_id := 2; Borrow_user_id := 2;
                        Borrow_borrow_date := "2025-12-19";
                        Borrow_return_date := Some "2025-12-20" |}
                     ltac:(vm_compute; reflexivity)))
    as (b' & Hb' & _ & _ & _ & Hsame).
  exists b'. split; [exact Hb'|]. apply Hsame. discriminate.
Defined.

(** * Identities are handed out once *)

Lemma counters_step d d' :
  write_effect d d' →
  seq_Books d ≤ seq_Books d' ∧ seq_Users d ≤ seq_Users d' ∧ seq_Borrow d ≤ seq_Borrow d'.
Proof.
  intros Heff.
  destruct Heff as [|t a y|k bk v Hbk Hv|k Hfree|n p e Hfree|k u n p e Hu Hfree
                    |k Hfree|u k date bk Hu Hbk Hav|i0 dt b0 Hb0 Hopen0];
    simpl; try lia.
  - pose proof (next_rowid_gt_seq (seq_Books d) (Books d)). lia.
  - pose proof (next_rowid_gt_seq (seq_Users d) (Users d)). lia.
  - pose proof (next_rowid_gt_seq (seq_Borrow d) (Borrow d)). lia.
  - destruct (after_return_counters i0 dt b0 d) as (-> & -> & ->). lia.
Qed.

Lemma counters_run_all cs d :
  seq_Books d ≤ seq_Books (run_all cs d)
  ∧ seq_Users d ≤ seq_Users (run_all cs d)
  ∧ seq_Borrow d ≤ seq_Borrow (run_all cs d).
Proof.
  pose (P := λ d' : database,
    seq_Books d ≤ seq_Books d' ∧ seq_Users d ≤ seq_Users d'
    ∧ seq_Borrow d ≤ seq_Borrow d').
  change (P (run_all cs d)). apply run_all_invariant; [|unfold P; lia].
  intros d1 d2 Heff (H1 & H2 & H3).
  destruct (counters_step d1 d2 Heff) as (H1' & H2' & H3'). unfold P. lia.
Qed.

(** X7. An identity is handed out once: whatever calls are made in
    between, deletions included, a later [add_book] returns a larger
    [book_id] than an earlier one, and likewise for the [user_id] of
    [create_user] and the [borrow_id] of [borrow_book]. *)
Theorem identities_are_never_reused cs d :
  (∀ t a y t' a' y' id1 d1 id2 d2,
     add_book t a y d = (Returns id1, d1) →
     add_book t' a' y' (run_all cs d1) = (Returns id2, d2) → id1 < id2)
  ∧ (∀ n p e n' p' e' id1 d1 id2 d2,
       create_user n p e d = (Returns id1, d1) →
       create_user n' p' e' (run_all cs d1) = (Returns id2, d2) → id1 < id2)
  ∧ (∀ u k dt u' k' dt' id1 d1 id2 d2,
       borrow_book u k dt d = (Returns (Some id1), d1) →
       borrow_book u' k' dt' (run_all cs d1) = (Returns (Some id2), d2) → id1 < id2).
Proof.
  split; [|split].
  - intros t a y t' a' y' id1 d1 id2 d2. rewrite !add_book_eq.
    destruct (match y with Some y0 => int64 y0 | None => true end); [|done].
    destruct (match y' with Some y0 => int64 y0 | None => true end); [|done].
    destruct t as [t|], a as [a|]; try done.
    destruct t' as [t'|], a' as [a'|]; try done. simpl.
    intros [= <- <-] [= <- _].
    pose proof (counters_run_all cs
      {| Books := <[next_rowid (seq_Books d) (Books d) :=
                     {| Books_title := t; Books_author := a; Books_year := y;
                        Books_available := 1 |}]> (Books d);
         Users := Users d; Borrow := Borrow d;
         seq_Books := next_rowid (seq_Books d) (Books d);
         seq_Users := seq_Users d; seq_Borrow := seq_Borrow d |}) as (Hle & _).
    simpl in Hle.
    match goal with
    | |- _ < next_rowid ?q ?m => pose proof (next_rowid_gt_seq q m)
    end. lia.
  - intros n p e n' p' e' id1 d1 id2 d2. rewrite !create_user_eq.
    destruct n as [n|]; [|done].
    destruct (match e with Some e0 => email_taken d None e0 | None => false end);
      [done|].
    intros [= <- <-].
    destruct n' as [n'|]; [|done].
    destruct (match e' with Some e0 => email_taken _ None e0 | None => false end);
      [done|].
    intros [= <- _].
    match goal with
    | |- _ < next_rowid (seq_Users (run_all cs ?d0)) _ =>
        pose proof (counters_run_all cs d0) as (_ & Hle & _)
    end.
    simpl in Hle.
    match goal with
    | |- _ < next_rowid ?q ?m => pose proof (next_rowid_gt_seq q m)
    end. lia.
  - intros u k dt u' k' dt' id1 d1 id2 d2. rewrite !borrow_book_eq.
    unfold not_found.
    destruct (Users d !! u) as [u0|]; [|by destruct (int64 u)].
    destruct (Books d !! k) as [bk|]; [|by destruct (int64 k)].
    destruct (Books_available bk =? 1); [|done].
    destruct dt as [date|]; [|done].
    intros [= <- <-].
    destruct (Users _ !! u') as [u1|]; [|by destruct (int64 u')].
    destruct (Books _ !! k') as [bk'|]; [|by destruct (int64 k')].
    destruct (Books_available bk' =? 1); [|done].
    destruct dt' as [date'|]; [|done].
    intros [= <- _].
    pose proof (counters_run_all cs (after_borrow u k date bk d)) as (_ & _ & Hle).
    simpl in Hle.
    match goal with
    | |- _ < next_rowid ?q ?m => pose proof (next_rowid_gt_seq q m)
    end. lia.
Qed.

Lemma identities_are_never_reused_witness :
  4 < 5.
Proof.
  apply (proj1 (identities_are_never_reused [Delete_book 4] busy_library)
           (Some "Dune") (Some "Frank Herbert") None
           (Some "Emma") (Some "Jane Austen") (Some 1815)
           4 (add_book (Some "Dune") (Some "Frank Herbert") None busy_library).2
           5 (add_book (Some "Emma") (Some "Jane Austen") (Some 1815)
                (run_all [Delete_book 4]
                   (add_book (Some "Dune") (Some "Frank Herbert") None
                      busy_library).2)).2).
  - vm_compute. reflexivity.
  - vm_compute. reflexivity.
Defined.

(** * More on the ledger *)

Lemma ledger_reachable_consistent d : ledger_reachable d → ledger_consistent d.
Proof.
  induction 1 as [|d c Hreach IH Hresp].
  - split.
    + intros i j bi bj Hi. simpl in Hi. by rewrite lookup_empty in Hi.
    + intros i b Hb. simpl in Hb. by rewrite lookup_empty in Hb.
  - by apply run_keeps_ledger.
Qed.

(** X8. A copy that is out cannot be borrowed.  Right after a successful
    [borrow_book], a further [borrow_book] on the same copy, with any date,
    returns [None] and writes nothing for every member identity that has a
    row or is an integer SQLite holds; for an identity without a row that
    SQLite cannot hold it raises [OverflowError], again writing nothing.
    More generally, in a store reached without misuse of the override or of
    a null return date, a copy with an open record is refused in the same
    way to everybody. *)
Theorem borrowed_copy_is_refused :
  (∀ file user_id book_id borrow_date borrow_id file1,
     borrow_book user_id book_id borrow_date file = (Returns (Some borrow_id), file1) →
     ∀ other date,
       (is_Some (Users file1 !! other) ∨ int64 other = true →
          borrow_book other book_id date file1 = (Returns None, file1))
       ∧ (Users file1 !! other = None → int64 other = false →
            borrow_book other book_id date file1 = (Raises OverflowError, file1)))
  ∧ (∀ d i b,
       ledger_reachable d → Borrow d !! i = Some b → is_open b →
       ∀ other date,
         (is_Some (Users d !! other) ∨ int64 other = true →
            borrow_book other (Borrow_book_id b) date d = (Returns None, d))
         ∧ (Users d !! other = None → int64 other = false →
              borrow_book other (Borrow_book_id b) date d = (Raises OverflowError, d))).
Proof.
  assert (Hrefuse : ∀ d book_id bk,
            Books d !! book_id = Some bk → Books_available bk ≠ 1 →
            ∀ other date,
              (is_Some (Users d !! other) ∨ int64 other = true →
                 borrow_book other book_id date d = (Returns None, d))
              ∧ (Users d !! other = None → int64 other = false →
                   borrow_book other book_id date d = (Raises OverflowError, d))).
  { intros d book_id bk Hbk Hav other date. rewrite borrow_book_eq, Hbk.
    assert (Hne : (Books_available bk =? 1) = false) by (by apply Z.eqb_neq).
    rewrite Hne. unfold not_found. split.
    - intros [[u ->]|Hint]; [done|]. rewrite Hint. by destruct (Users d !! other).
    - by intros -> ->. }
  split.
  - intros file user_id book_id borrow_date borrow_id file1. rewrite borrow_book_eq.
    unfold not_found.
    destruct (Users file !! user_id) as [u|]; [|by destruct (int64 user_id)].
    destruct (Books file !! book_id) as [bk|]; [|by destruct (int64 book_id)].
    destruct (Books_available bk =? 1); [|done].
    destruct borrow_date as [d0|]; [|done].
    intros [= _ <-]. apply (Hrefuse _ _ (with_available 0 bk)); [|done].
    simpl. apply lookup_insert_eq.
  - intros d i b Hreach Hb Hopen.
    destruct (ledger_reachable_consistent d Hreach) as [_ Hflag].
    destruct (Hflag i b Hb Hopen) as (bk & Hbk & Hav).
    by apply (Hrefuse _ _ bk).
Qed.

Lemma borrowed_copy_is_refused_witness :
  borrow_book 1 3 (Some "2026-01-06")
    (borrow_book 2 3 (Some "2026-01-05") busy_library).2
  = (Returns None, (borrow_book 2 3 (Some "2026-01-05") busy_library).2)
  ∧ borrow_book 2 1 (Some "2026-01-05") busy_library = (Returns None, busy_library)
  ∧ borrow_book 9223372036854775808 1 (Some "2026-01-05") busy_library
    = (Raises OverflowError, busy_library).
Proof.
  assert (Hbusy : ledger_reachable busy_library).
  { unfold busy_library, stocked_library.
    repeat (apply ledger_reachable_run_all; [|repeat constructor; eauto]).
    apply ledger_init. }
  pose (open1 := {| Borrow_book_id := 1; Borrow_user_id := 1;
                    Borrow_borrow_date := "2025-12-19"; Borrow_return_date := None |}).
  split; [|split].
  - apply (proj1 (proj1 borrowed_copy_is_refused busy_library 2 3 (Some "2026-01-05") 3
                    _ ltac:(vm_compute; reflexivity) 1 (Some "2026-01-06"))).
    by right.
  - apply (proj1 (proj2 borrowed_copy_is_refused busy_library 1 open1 Hbusy
                    ltac:(vm_compute; reflexivity) eq_refl 2 (Some "2026-01-05"))).
    by right.
  - apply (proj2 (proj2 borrowed_copy_is_refused busy_library 1 open1 Hbusy
                    ltac:(vm_compute; reflexivity) eq_refl 9223372036854775808
                    (Some "2026-01-05")));
      vm_compute; reflexivity.
Defined.

(** X9. A successful [return_book] touches one record and one flag: the
    record keeps its copy, member and borrow date and gets the date given;
    every other record, the flag and columns of every other copy, the
    title, author and year of the copy itself, all members and the
    identity counters are as before. *)
Theorem return_book_frame file borrow_id return_date file' :
  return_book borrow_id return_date file = (Returns true, file') →
  ∃ b,
    Borrow file !! borrow_id = Some b ∧ is_open b
    ∧ Borrow file' = <[borrow_id := with_return_date return_date b]> (Borrow file)
    ∧ (∀ k, k ≠ Borrow_book_id b → Books file' !! k = Books file !! k)
    ∧ with_available 1 <$> Books file' !! Borrow_book_id b
      = with_available 1 <$> Books file !! Borrow_book_id b
    ∧ Users file' = Users file
    ∧ seq_Books file' = seq_Books file ∧ seq_Users file' = seq_Users file
    ∧ seq_Borrow file' = seq_Borrow file.
Proof.
  rewrite return_book_eq.
  destruct (Borrow file !! borrow_id) as [b|] eqn:Hb;
    [|by unfold not_found; destruct (int64 borrow_id)].
  destruct (decide (is_open b)) as [Hopen|]; [|done].
  intros [= <-]. exists b.
  rewrite after_return_Borrow, after_return_Books, after_return_Users.
  destruct (after_return_counters borrow_id return_date b file) as (-> & -> & ->).
  repeat (split; [done|]). split; [|split; [|done]].
  - intros k Hk. destruct (Books file !! Borrow_book_id b); [|done].
    by rewrite lookup_insert_ne.
  - destruct (Books file !! Borrow_book_id b) as [bk|] eqn:Hbk; [|by rewrite Hbk].
    by rewrite lookup_insert_eq.
Qed.

Lemma return_book_frame_witness :
  ∃ b, Borrow busy_library !! 1 = Some b ∧ is_open b
       ∧ Users (return_book 1 (Some "2025-12-23") busy_library).2 = Users busy_library.
Proof.
  destruct (return_book_frame busy_library 1 (Some "2025-12-23")
              (return_book 1 (Some "2025-12-23") busy_library).2)
    as (b & Hb & Hopen & _ & _ & _ & Husers & _).
  - vm_compute. reflexivity.
  - exists b. split; [exact Hb|]. split; [exact Hopen|exact Husers].
Defined.

(** X10. Borrowing an available copy and returning that borrow with a date
    puts the [Books] and [Users] tables back exactly as they were; the only
    trace is the new record in [Borrow], closed with the date given. *)
Theorem borrow_then_return_restores_tables
    file user_id book_id bk (date return_date : string) :
  is_Some (Users file !! user_id) →
  Books file !! book_id = Some bk →
  Books_available bk = 1 →
  ∃ borrow_id file1 file2,
    borrow_book user_id book_id (Some date) file = (Returns (Some borrow_id), file1)
    ∧ return_book borrow_id (Some return_date) file1 = (Returns true, file2)
    ∧ Books file2 = Books file
    ∧ Users file2 = Users file
    ∧ Borrow file !! borrow_id = None
    ∧ Borrow file2 =
        <[borrow_id := {| Borrow_book_id := book_id; Borrow_user_id := user_id;
                          Borrow_borrow_date := date;
                          Borrow_return_date := Some return_date |}]> (Borrow file)
    ∧ (∀ i b, Borrow file2 !! i = Some b → is_open b → Borrow file !! i = Some b).
Proof.
  intros [u Hu] Hbk Hav.
  eexists _, _, _. split.
  { rewrite borrow_book_eq, Hu, Hbk, Hav. reflexivity. }
  assert (Hrec : Borrow (after_borrow user_id book_id date bk file)
                   !! next_rowid (seq_Borrow file) (Borrow file)
                 = Some {| Borrow_book_id := book_id; Borrow_user_id := user_id;
                           Borrow_borrow_date := date; Borrow_return_date := None |})
    by apply lookup_insert_eq.
  split.
  { rewrite return_book_eq, Hrec. reflexivity. }
  rewrite after_return_Books, after_return_Users, after_return_Borrow. simpl.
  rewrite lookup_insert_eq. split; [|split; [done|split; [|split]]].
  - rewrite insert_insert_eq. apply insert_id. rewrite Hbk.
    destruct bk as [t a y v]. simpl in *. by subst v.
  - apply next_rowid_fresh.
  - by rewrite insert_insert_eq.
  - intros i b. rewrite insert_insert_eq.
    intros [[_ <-]|[_ Hb]]%lookup_insert_Some Hopen; [done|exact Hb].
Qed.

Lemma borrow_then_return_restores_tables_witness :
  ∃ borrow_id file1 file2,
    borrow_book 2 3 (Some "2026-01-05") busy_library = (Returns (Some borrow_id), file1)
    ∧ return_book borrow_id (Some "2026-01-09") file1 = (Returns true, file2)
    ∧ Books file2 = Books busy_library
    ∧ Borrow_return_date <$> Borrow file2 !! borrow_id = Some (Some "2026-01-09").
Proof.
  destruct (borrow_then_return_restores_tables busy_library 2 3
              {| Books_title := "Clean Code"; Books_author := "Robert C. Martin";
                 Books_year := Some 2008; Books_available := 1 |}
              "2026-01-05" "2026-01-09")
    as (borrow_id & file1 & file2 & H1 & H2 & H3 & _ & _ & H4 & _).
  - exists {| Users_name := "Bob Levi"; Users_phone := Some "052-2222222";
              Users_email := Some "bob@example.com" |}.
    vm_compute. reflexivity.
  - vm_compute. reflexivity.
  - reflexivity.
  - exists borrow_id, file1, file2. split; [exact H1|]. split; [exact H2|].
    split; [exact H3|]. rewrite H4, lookup_insert_eq. reflexivity.
Defined.

(** X11. Deleting a copy right after adding it succeeds and puts the three
    tables back as they were, provided the year, if given, is an integer
    SQLite holds (otherwise nothing is added) and no stray borrow record
    points at an identity without a row; only the identity counter
    remembers the copy. *)
Theorem add_then_delete_restores_tables file (t a : string) (year : option Z) :
  (∀ y, year = Some y → int64 y = true) →
  book_references_resolve file →
  ∃ book_id file1 file2,
    add_book (Some t) (Some a) year file = (Returns book_id, file1)
    ∧ delete_book book_id file1 = (Returns true, file2)
    ∧ Books file2 = Books file ∧ Users file2 = Users file ∧ Borrow file2 = Borrow file
    ∧ seq_Books file < seq_Books file2.
Proof.
  intros Hyear Hres. eexists _, _, _. rewrite add_book_eq.
  assert (match year with Some y => int64 y | None => true end = true) as ->
    by (destruct year; auto).
  split; [reflexivity|].
  rewrite delete_book_eq. simpl.
  rewrite (binds_found _ _ _ (lookup_insert_eq _ _ _)).
  assert (Hzero : count_where
                    (λ b, Borrow_book_id b = next_rowid (seq_Books file) (Books file))
                    (Borrow file) = 0%nat).
  { apply count_where_zero. intros i b Hb Heq.
    destruct (Hres i b Hb) as [bk Hbk].
    rewrite Heq, next_rowid_fresh in Hbk. done. }
  rewrite Hzero, lookup_insert_eq. simpl.
  split; [reflexivity|]. simpl.
  split; [|split; [done|split; [done|apply next_rowid_gt_seq]]].
  rewrite delete_insert_eq. apply delete_id, next_rowid_fresh.
Qed.

Lemma add_then_delete_restores_tables_witness :
  ∃ book_id file1 file2,
    add_book (Some "Dune") (Some "Frank Herbert") (Some 1965) busy_library
    = (Returns book_id, file1)
    ∧ delete_book book_id file1 = (Returns true, file2)
    ∧ Books file2 = Books busy_library.
Proof.
  destruct (add_then_delete_restores_tables busy_library "Dune" "Frank Herbert"
              (Some 1965))
    as (book_id & file1 & file2 & H1 & H2 & H3 & _).
  - by intros y [= <-].
  - unfold busy_library, stocked_library.
    do 2 (apply run_all_invariant; [apply book_references_step|]).
    intros i b Hb. simpl in Hb. by rewrite lookup_empty in Hb.
  - exists book_id, file1, file2. split; [exact H1|]. split; [exact H2|exact H3].
Defined.

(** * Reading the tables: orders and scans *)

Lemma text_le_total : Total text_le.
Proof. intros s1 s2. apply String.leb_total. Qed.

Lemma text_le_trans : Transitive text_le.
Proof.
  unfold text_le, String.leb. intros s1.
  induction s1 as [|a s1 IH]; intros [|b s2] [|c s3]; simpl; try done.
  unfold Ascii.compare.
  destruct (N.compare_spec (Ascii.N_of_ascii a) (Ascii.N_of_ascii b)) as [Hab|Hab|Hab];
    [| |done];
    destruct (N.compare_spec (Ascii.N_of_ascii b) (Ascii.N_of_ascii c)) as [Hbc|Hbc|Hbc];
    try done.
  - rewrite Hab, Hbc, N.compare_refl. apply IH.
  - rewrite Hab. by rewrite (proj2 (N.compare_lt_iff _ _) Hbc).
  - rewrite <- Hbc. by rewrite (proj2 (N.compare_lt_iff _ _) Hab).
  - assert (Hac : (Ascii.N_of_ascii a < Ascii.N_of_ascii c)%N) by lia.
    by rewrite (proj2 (N.compare_lt_iff _ _) Hac).
Qed.

Section orders.
Context {A K : Type} (le : relation K) (key : A → K).

Lemma asc_total : Total le → Total (asc le key).
Proof. intros Htot x y. apply Htot. Qed.

Lemma asc_trans : Transitive le → Transitive (asc le key).
Proof. intros Htr x y z. unfold asc. apply Htr. Qed.

Lemma desc_total : Total le → Total (desc le key).
Proof. intros Htot x y. apply Htot. Qed.

Lemma desc_trans : Transitive le → Transitive (desc le key).
Proof. intros Htr x y z Hxy Hyz. unfold desc in *. by apply (Htr _ (key y)). Qed.
End orders.

Lemma nulls_first_total {A : Type} (le : relation A) :
  Total le → Total (nulls_first le).
Proof. intros Htot [x|] [y|]; simpl; auto. Qed.

Lemma nulls_first_trans {A : Type} (le : relation A) :
  Transitive le → Transitive (nulls_first le).
Proof. intros Htr [x|] [y|] [z|]; simpl; try done. apply Htr. Qed.

Lemma then_by_total {A : Type} (le1 le2 : relation A)
    `{!RelDecision le1} :
  Total le1 → Total le2 → Total (then_by le1 le2).
Proof.
  intros H1 H2 x y. unfold then_by.
  destruct (decide (le1 x y)) as [Hxy|Hxy], (decide (le1 y x)) as [Hyx|Hyx].
  - destruct (H2 x y); [left|right]; right; done.
  - left. by left.
  - right. by left.
  - destruct (H1 x y); done.
Qed.

Lemma then_by_trans {A : Type} (le1 le2 : relation A) :
  Transitive le1 → Transitive le2 → Transitive (then_by le1 le2).
Proof.
  intros H1 H2 x y z. unfold then_by.
  intros [[Hxy Hnyx]|(Hxy & Hyx & Hxy2)] [[Hyz Hnzy]|(Hyz & Hzy & Hyz2)].
  - left. split; [by etrans|]. intros Hzx. apply Hnyx. by etrans.
  - left. split; [by etrans|]. intros Hzx. apply Hnyx. by etrans.
  - left. split; [by etrans|]. intros Hzx. apply Hnzy. by etrans.
  - right. split; [by etrans|]. split; [by etrans|by etrans].
Qed.

Lemma then_by_first {A : Type} (le1 le2 : relation A) x y :
  then_by le1 le2 x y → le1 x y.
Proof. by intros [[? _]|[? _]]. Qed.

Section scans.
Context {row : Type}.
Implicit Types (tbl : gmap Z row).

Lemma scan_Permutation tbl : scan tbl ≡ₚ map_to_list tbl.
Proof. apply merge_sort_Permutation. Qed.

Lemma elem_of_scan tbl k r : (k, r) ∈ scan tbl ↔ tbl !! k = Some r.
Proof. rewrite scan_Permutation. apply elem_of_map_to_list. Qed.

Lemma NoDup_scan_keys tbl : NoDup (scan tbl).*1.
Proof. rewrite scan_Permutation. apply NoDup_fst_map_to_list. Qed.

Lemma NoDup_scan tbl : NoDup (scan tbl).
Proof. rewrite scan_Permutation. apply NoDup_map_to_list. Qed.

Lemma scan_sorted tbl : StronglySorted (asc Z.le fst) (scan tbl).
Proof.
  apply StronglySorted_merge_sort.
  - apply asc_trans. intros x y z. lia.
  - apply asc_total. intros x y. lia.
Qed.
End scans.

Section filters.
Context {A : Type}.

Lemma filter_nothing (P : A → Prop) `{!∀ x, Decision (P x)} (l : list A) :
  (∀ y, y ∈ l → ¬ P y) → filter P l = [].
Proof.
  intros Hno. induction l as [|y l IH]; [done|].
  rewrite filter_cons_False; [|apply Hno; left].
  apply IH. intros z Hz. apply Hno. by right.
Qed.

Lemma filter_the_one (P : A → Prop) `{!∀ x, Decision (P x)} (l : list A) (x : A) :
  x ∈ l → P x → (∀ y, y ∈ l → P y → y = x) → NoDup l → filter P l = [x].
Proof.
  intros Hin HP Honly Hnd. induction Hnd as [|y l Hy Hnd IH]; [by apply elem_of_nil in Hin|].
  apply elem_of_cons in Hin as [->|Hin].
  - rewrite filter_cons_True by done. f_equal.
    apply filter_nothing. intros z Hz HPz.
    assert (z = y) by (apply Honly; [by right|done]). by subst.
  - assert (¬ P y).
    { intros HPy. assert (y = x) by (apply Honly; [by left|done]). by subst. }
    rewrite filter_cons_False by done.
    apply IH; [done|]. intros z Hz. apply Honly. by right.
Qed.

Lemma length_filter_fmap {B : Type} (f : A → B) (P : B → Prop) `{!∀ y, Decision (P y)}
    (l : list A) :
  length (filter P (f <$> l)) = length (filter (λ x, P (f x)) l).
Proof.
  induction l as [|x l IH]; [done|].
  rewrite fmap_cons, !filter_cons.
  destruct (decide (P (f x))); simpl; by rewrite IH.
Qed.

Lemma length_filter_ext (P Q : A → Prop)
    `{!∀ x, Decision (P x)} `{!∀ x, Decision (Q x)} (l : list A) :
  (∀ x, x ∈ l → (P x ↔ Q x)) → length (filter P l) = length (filter Q l).
Proof.
  intros Hext. induction l as [|x l IH]; [done|].
  rewrite !filter_cons.
  assert (HPQ : P x ↔ Q x) by (apply Hext; left).
  assert (Hrest : length (filter P l) = length (filter Q l)).
  { apply IH. intros y Hy. apply Hext. by right. }
  destruct (decide (P x)), (decide (Q x)); simpl; try tauto; by rewrite Hrest.
Qed.
End filters.

(** [SELECT COUNT( * )] counts the rows a scan with the same condition
    yields. *)
Lemma count_where_scan {row : Type} (P : row → Prop) `{!∀ r, Decision (P r)}
    (tbl : gmap Z row) :
  count_where P tbl = length (filter (λ kr, P kr.2) (scan tbl)).
Proof.
  unfold count_where. rewrite length_filter_fmap.
  apply Permutation_length, filter_Permutation. symmetry. apply scan_Permutation.
Qed.

Lemma StronglySorted_weaken {A : Type} (R1 R2 : relation A) (l : list A) :
  (∀ x y, R1 x y → R2 x y) → StronglySorted R1 l → StronglySorted R2 l.
Proof.
  intros Himpl Hs. induction Hs as [|x l Hl IH Hx]; constructor; [done|].
  eapply Forall_impl; [exact Hx|]. apply Himpl.
Qed.

Lemma strictly_ascending {A : Type} (l : list (Z * A)) :
  StronglySorted (asc Z.le fst) l → NoDup l.*1 → StronglySorted (λ x y, x.1 < y.1) l.
Proof.
  intros Hsorted. induction Hsorted as [|x l Hl IH Hx]; intros Hnd; [constructor|].
  rewrite fmap_cons in Hnd. apply NoDup_cons in Hnd as [Hxl Hnd].
  constructor; [by apply IH|].
  rewrite Forall_forall in Hx |- *. intros y Hy.
  specialize (Hx y Hy). unfold asc in Hx.
  assert (x.1 ≠ y.1); [|lia].
  intros Heq. apply Hxl. rewrite Heq. by apply list_elem_of_fmap_2.
Qed.

(** * books.py: listings *)

Lemma available_rows file k bk :
  (k, bk) ∈ merge_sort (asc text_le (λ r, Books_title r.2))
              (filter (λ r, Books_available r.2 = 1) (scan (Books file)))
  ↔ Books file !! k = Some bk ∧ Books_available bk = 1.
Proof.
  rewrite merge_sort_Permutation, list_elem_of_filter, elem_of_scan. simpl. tauto.
Qed.

(** X12. [available_books] lists exactly the copies whose flag is 1, each
    once, ordered by title; these are exactly the copies [borrow_book]
    hands out to an existing member. *)
Theorem available_books_lists_borrowable file :
  (∀ k t, (k, t) ∈ available_books file ↔
          ∃ bk, Books file !! k = Some bk ∧ Books_title bk = t ∧ Books_available bk = 1)
  ∧ StronglySorted (asc text_le snd) (available_books file)
  ∧ NoDup (available_books file).*1
  ∧ (∀ k user_id date,
       is_Some (Users file !! user_id) →
       (k ∈ (available_books file).*1 ↔
        ∃ borrow_id file',
          borrow_book user_id k (Some date) file = (Returns (Some borrow_id), file'))).
Proof.
  assert (Hmem : ∀ k t, (k, t) ∈ available_books file ↔
            ∃ bk, Books file !! k = Some bk ∧ Books_title bk = t
                  ∧ Books_available bk = 1).
  { intros k t. unfold available_books. rewrite list_elem_of_fmap. split.
    - intros ([k' bk] & [= -> ->] & Hin). apply available_rows in Hin as [Hk Hav].
      by exists bk.
    - intros (bk & Hk & <- & Hav). exists (k, bk). split; [done|].
      by apply available_rows. }
  split; [exact Hmem|]. split; [|split].
  - unfold available_books.
    apply (StronglySorted_fmap _ (asc text_le (λ r : Z * Books_row, Books_title r.2))).
    + by intros x y.
    + apply StronglySorted_merge_sort.
      * apply asc_trans, text_le_trans.
      * apply asc_total, text_le_total.
  - unfold available_books. rewrite <- list_fmap_compose.
    change (NoDup (merge_sort (asc text_le (λ r : Z * Books_row, Books_title r.2))
                     (filter (λ r, Books_available r.2 = 1) (scan (Books file)))).*1).
    rewrite merge_sort_Permutation.
    eapply sublist_NoDup; [apply (NoDup_scan_keys (Books file))|].
    apply fmap_sublist, sublist_filter.
  - intros k user_id date [u Hu]. rewrite list_elem_of_fmap, borrow_book_eq, Hu. split.
    + intros ([k' t] & -> & Hin). apply Hmem in Hin as (bk & Hk & _ & Hav).
      simpl. rewrite Hk, Hav. simpl. eauto.
    + intros (borrow_id & file' & Hrun).
      destruct (Books file !! k) as [bk|] eqn:Hk;
        [|by unfold not_found in Hrun; destruct (int64 k)].
      destruct (Books_available bk =? 1) eqn:Hav; [|done].
      exists (k, Books_title bk). split; [done|].
      apply Hmem. exists bk. split; [done|]. split; [done|]. by apply Z.eqb_eq.
Qed.

Lemma available_books_lists_borrowable_witness :
  3 ∈ (available_books busy_library).*1.
Proof.
  apply (proj2 (proj2 (proj2 (available_books_lists_borrowable busy_library)))
           3 2 "2026-01-05").
  - exists {| Users_name := "Bob Levi"; Users_phone := Some "052-2222222";
              Users_email := Some "bob@example.com" |}.
    vm_compute. reflexivity.
  - exists 3, (borrow_book 2 3 (Some "2026-01-05") busy_library).2.
    vm_compute. reflexivity.
Defined.

(** X13. [books_between_years] raises [ValueError] when a bound is [None].
    The two bounds may come in either order.  When both are integers SQLite
    holds, the result holds exactly the copies whose year lies between the
    smaller and the larger bound, inclusive, so a copy without a year is
    never returned, and it is ordered by year, copies of one year by title.
    When one of them is not, the call raises [OverflowError]. *)
Theorem books_between_years_contract file :
  (∀ year_from year_to,
     year_from = None ∨ year_to = None →
     books_between_years year_from year_to file = Raises ValueError)
  ∧ (∀ a b, books_between_years (Some a) (Some b) file
            = books_between_years (Some b) (Some a) file)
  ∧ (∀ a b, int64 a = true → int64 b = true → ∃ rows,
       books_between_years (Some a) (Some b) file = Returns rows
       ∧ (∀ k bk, (k, bk) ∈ rows ↔
                  Books file !! k = Some bk
                  ∧ ∃ y, Books_year bk = Some y ∧ Z.min a b ≤ y ≤ Z.max a b)
       ∧ StronglySorted by_year_title rows
       ∧ StronglySorted (asc (nulls_first Z.le) (λ r, Books_year r.2)) rows)
  ∧ (∀ a b, int64 a = false ∨ int64 b = false →
       books_between_years (Some a) (Some b) file = Raises OverflowError).
Proof.
  split; [|split; [|split]].
  - intros year_from year_to [-> | ->]; [done|]. by destruct year_from.
  - intros a b. unfold books_between_years.
    destruct (b <? a) eqn:Hba, (a <? b) eqn:Hab; try done.
    + apply Z.ltb_lt in Hba, Hab. lia.
    + apply Z.ltb_ge in Hba, Hab. by replace a with b by lia.
  - intros a b Ha Hb. unfold books_between_years.
    assert (Hbounds : ∃ lo hi,
              (if b <? a then (b, a) else (a, b)) = (lo, hi)
              ∧ lo = Z.min a b ∧ hi = Z.max a b
              ∧ int64 lo && int64 hi = true).
    { destruct (b <? a) eqn:Hba; [apply Z.ltb_lt in Hba|apply Z.ltb_ge in Hba];
        eexists _, _; (split; [reflexivity|]); rewrite Ha, Hb;
        (split; [lia|split; [lia|done]]). }
    destruct Hbounds as (lo & hi & -> & Hlo & Hhi & ->).
    eexists. split; [reflexivity|].
    assert (Hsorted : StronglySorted by_year_title
              (merge_sort by_year_title (filter (year_between lo hi) (scan (Books file))))).
    { apply StronglySorted_merge_sort.
      - apply then_by_trans.
        + apply asc_trans, nulls_first_trans. intros x y z. lia.
        + apply asc_trans, text_le_trans.
      - apply then_by_total.
        + intros x y. apply _.
        + apply asc_total, nulls_first_total. intros x y. lia.
        + apply asc_total, text_le_total. }
    split; [|split; [exact Hsorted|]].
    + intros k bk.
      rewrite merge_sort_Permutation, list_elem_of_filter, elem_of_scan.
      unfold year_between. simpl. subst lo hi. split.
      * intros [Hy Hk]. split; [done|].
        destruct (Books_year bk) as [y|]; [eauto|done].
      * intros [Hk (y & Hy & Hrange)]. split; [|done]. by rewrite Hy.
    + eapply StronglySorted_weaken; [|exact Hsorted].
      intros x y. apply then_by_first.
  - intros a b Hwide. unfold books_between_years.
    assert (int64 a && int64 b = false) as Hab
      by (destruct Hwide as [-> | ->]; [done|apply andb_false_r]).
    destruct (b <? a); [rewrite andb_comm|]; by rewrite Hab.
Qed.

Lemma books_between_years_contract_witness :
  books_between_years None (Some 2000) busy_library = Raises ValueError
  ∧ books_between_years (Some 2010) (Some 2000) busy_library
    = books_between_years (Some 2000) (Some 2010) busy_library
  ∧ (∃ rows, books_between_years (Some 2010) (Some 2000) busy_library = Returns rows
             ∧ (3, {| Books_title := "Clean Code"; Books_author := "Robert C. Martin";
                      Books_year := Some 2008; Books_available := 1 |}) ∈ rows)
  ∧ books_between_years (Some 2000) (Some 9223372036854775808) busy_library
    = Raises OverflowError.
Proof.
  split; [|split; [|split]].
  - apply (proj1 (books_between_years_contract busy_library)). by left.
  - apply (proj1 (proj2 (books_between_years_contract busy_library))).
  - destruct (proj1 (proj2 (proj2 (books_between_years_contract busy_library)))
                2010 2000 eq_refl eq_refl) as (rows & Hrun & Hrows & _).
    exists rows. split; [exact Hrun|]. apply Hrows.
    split; [vm_compute; reflexivity|]. exists 2008. split; [reflexivity|].
    clear. lia.
  - apply (proj2 (proj2 (proj2 (books_between_years_contract busy_library)))).
    by right.
Defined.

(** X14. [list_books] shows the whole [Books] table and nothing else: the
    table can be rebuilt from the listing, which has one entry per copy in
    strictly ascending order of [book_id]. *)
Theorem list_books_is_the_table file :
  list_to_map (list_books file) = Books file
  ∧ length (list_books file) = size (Books file)
  ∧ StronglySorted (λ x y, x.1 < y.1) (list_books file).
Proof.
  assert (Hperm : list_books file ≡ₚ map_to_list (Books file)).
  { unfold list_books. by rewrite merge_sort_Permutation, scan_Permutation. }
  assert (Hnd : NoDup (list_books file).*1).
  { rewrite Hperm. apply NoDup_fst_map_to_list. }
  split; [|split].
  - rewrite (list_to_map_proper _ _ Hnd Hperm). apply list_to_map_to_list.
  - rewrite Hperm. apply length_map_to_list.
  - apply strictly_ascending; [|done].
    apply StronglySorted_merge_sort.
    + apply asc_trans. intros x y z. lia.
    + apply asc_total. intros x y. lia.
Qed.

(** * users.py and borrow.py: looking members up *)

Section fetchone.
Context {A : Type} (P : A → Prop) `{!∀ x, Decision (P x)}.

Lemma head_filter_None (l : list A) :
  head (filter P l) = None ↔ ∀ y, y ∈ l → ¬ P y.
Proof.
  split.
  - intros Hhead y Hy HP.
    assert (Hin : y ∈ filter P l) by (by apply list_elem_of_filter).
    destruct (filter P l); [by apply elem_of_nil in Hin|done].
  - intros Hno. by rewrite filter_nothing.
Qed.

Lemma head_filter_elem (l : list A) (x : A) :
  head (filter P l) = Some x → x ∈ l ∧ P x.
Proof.
  intros Hhead.
  assert (Hin : x ∈ filter P l).
  { destruct (filter P l) as [|y l']; [done|]. injection Hhead as ->. left. }
  apply list_elem_of_filter in Hin. tauto.
Qed.
End fetchone.

Lemma get_user_lookup user_id file :
  get_user user_id file =
  match Users file !! user_id with
  | Some u => Returns (Some (user_id, u))
  | None => if int64 user_id then Returns None else Raises OverflowError
  end.
Proof.
  unfold get_user. destruct (Users file !! user_id) as [u|] eqn:Hu; simpl.
  - rewrite (binds_found _ _ _ Hu).
    rewrite (filter_the_one _ _ (user_id, u)); [done| |done| |apply NoDup_scan].
    + by apply elem_of_scan.
    + intros [k v] Hin Hk. simpl in Hk. subst k.
      apply elem_of_scan in Hin. congruence.
  - rewrite (binds_absent _ _ Hu). destruct (int64 user_id); [|done].
    rewrite filter_nothing; [done|].
    intros [k v] Hin Hk. simpl in Hk. subst k.
    apply elem_of_scan in Hin. congruence.
Qed.

(** X15. [get_user] returns the row stored under the identity; for an
    identity without a row it returns [None] when the identity is an
    integer SQLite holds and raises [OverflowError] when it is not.  It
    finds a member right after [create_user], under an identity that had
    no row, with exactly the values given; it finds the updated values
    after a successful [update_user]; after a successful [delete_user] the
    row it found before is gone. *)
Theorem get_user_round_trip file :
  (∀ user_id u, Users file !! user_id = Some u →
                get_user user_id file = Returns (Some (user_id, u)))
  ∧ (∀ user_id, Users file !! user_id = None → int64 user_id = true →
                get_user user_id file = Returns None)
  ∧ (∀ user_id, Users file !! user_id = None → int64 user_id = false →
                get_user user_id file = Raises OverflowError)
  ∧ (∀ name phone email user_id file',
       create_user name phone email file = (Returns user_id, file') →
       ∃ n, name = Some n
            ∧ Users file !! user_id = None
            ∧ get_user user_id file'
              = Returns (Some (user_id, {| Users_name := n; Users_phone := phone;
                                           Users_email := email |})))
  ∧ (∀ user_id name phone email file',
       update_user user_id name phone email file = (Returns true, file') →
       ∃ u, get_user user_id file = Returns (Some (user_id, u))
            ∧ get_user user_id file'
              = Returns (Some (user_id, updated_user name phone email u)))
  ∧ (∀ user_id file',
       delete_user user_id file = (Returns true, file') →
       ∃ u, get_user user_id file = Returns (Some (user_id, u))
            ∧ Users file' !! user_id = None
            ∧ (int64 user_id = true → get_user user_id file' = Returns None)).
Proof.
  split; [|split; [|split; [|split; [|split]]]].
  - intros user_id u Hu. by rewrite get_user_lookup, Hu.
  - intros user_id Hu Hint. by rewrite get_user_lookup, Hu, Hint.
  - intros user_id Hu Hint. by rewrite get_user_lookup, Hu, Hint.
  - intros name phone email user_id file'. rewrite create_user_eq.
    destruct name as [n|]; [|done].
    destruct (match email with Some e => email_taken file None e | None => false end);
      [done|].
    intros [= <- <-]. exists n. split; [done|].
    split; [apply next_rowid_fresh|].
    rewrite get_user_lookup. simpl. by rewrite lookup_insert_eq.
  - intros user_id name phone email file'. rewrite update_user_eq.
    assert (Hmain :
      (match Users file !! user_id with
       | None => not_found user_id false file
       | Some u =>
           if match email with
              | Some e => email_taken file (Some user_id) e
              | None => false
              end
           then (Raises IntegrityError, file)
           else (Returns true,
                 set_Users (insert user_id (updated_user name phone email u)) file)
       end) = (Returns true, file') →
      ∃ u, get_user user_id file = Returns (Some (user_id, u))
           ∧ get_user user_id file'
             = Returns (Some (user_id, updated_user name phone email u))).
    { destruct (Users file !! user_id) as [u|] eqn:Hu;
        [|by unfold not_found; destruct (int64 user_id)].
      destruct (match email with
                | Some e => email_taken file (Some user_id) e
                | None => false
                end); [done|].
      intros [= <-]. exists u. rewrite !get_user_lookup. simpl.
      by rewrite Hu, lookup_insert_eq. }
    destruct name, phone, email; try exact Hmain. done.
  - intros user_id file'. rewrite delete_user_eq.
    destruct (binds (Users file) user_id); [|done].
    destruct (0 <? _)%nat; [done|].
    destruct (Users file !! user_id) as [u|] eqn:Hu; [|done].
    destruct (0 <? _)%nat; [done|].
    intros [= <-]. exists u. rewrite !get_user_lookup. simpl.
    rewrite Hu, lookup_delete_eq. split; [done|]. split; [done|]. by intros ->.
Qed.

Lemma get_user_round_trip_witness :
  get_user 2 busy_library
  = Returns (Some (2, {| Users_name := "Bob Levi"; Users_phone := Some "052-2222222";
                         Users_email := Some "bob@example.com" |}))
  ∧ get_user 3 busy_library = Returns None
  ∧ get_user 9223372036854775808 busy_library = Raises OverflowError
  ∧ ∃ n, Some "Carol Stein" = Some n
         ∧ Users busy_library !! 3 = None
         ∧ get_user 3 (create_user (Some "Carol Stein") None None busy_library).2
           = Returns (Some (3, {| Users_name := n; Users_phone := None;
                                  Users_email := None |})).
Proof.
  split; [|split; [|split]].
  - apply (proj1 (get_user_round_trip busy_library)). vm_compute. reflexivity.
  - apply (proj1 (proj2 (get_user_round_trip busy_library)));
      vm_compute; reflexivity.
  - apply (proj1 (proj2 (proj2 (get_user_round_trip busy_library))));
      vm_compute; reflexivity.
  - apply (proj1 (proj2 (proj2 (proj2 (get_user_round_trip busy_library))))
             (Some "Carol Stein") None None 3).
    vm_compute. reflexivity.
Defined.

(** X16. In a store where emails are unique (every store the program
    produces is one), [find_user_by_email] returns the member holding the
    email and finds nobody when no member holds it; asked for [None] it
    finds nobody, even among members without an email. *)
Theorem find_user_by_email_contract file :
  find_user_by_email None file = None
  ∧ (emails_unique file →
     ∀ e k u, find_user_by_email (Some e) file = Some (k, u) ↔
              Users file !! k = Some u ∧ Users_email u = Some e).
Proof.
  split.
  - unfold find_user_by_email. rewrite filter_nothing; [done|].
    intros [k u] _. simpl. destruct (Users_email u); simpl; tauto.
  - intros Huniq e k u. unfold find_user_by_email. split.
    + intros Hhead. apply head_filter_elem in Hhead as [Hin He].
      apply elem_of_scan in Hin. simpl in He. split; [done|].
      destruct (Users_email u); simpl in He; [by subst|done].
    + intros [Hk He].
      rewrite (filter_the_one _ _ (k, u)); [done| | | |apply NoDup_scan].
      * by apply elem_of_scan.
      * simpl. by rewrite He.
      * intros [k' u'] Hin He'. apply elem_of_scan in Hin. simpl in He'.
        destruct (Users_email u') as [e'|] eqn:Hu'; [|done]. simpl in He'. subst e'.
        assert (k' = k) by (by eapply Huniq). subst k'. congruence.
Qed.

Lemma find_user_by_email_contract_witness :
  find_user_by_email (Some "bob@example.com") busy_library
  = Some (2, {| Users_name := "Bob Levi"; Users_phone := Some "052-2222222";
                Users_email := Some "bob@example.com" |}).
Proof.
  apply (proj2 (find_user_by_email_contract busy_library)).
  - unfold busy_library, stocked_library.
    do 2 (apply run_all_invariant; [apply emails_unique_step|]).
    intros i j ui uj e Hi. simpl in Hi. by rewrite lookup_empty in Hi.
  - split; [vm_compute; reflexivity|reflexivity].
Defined.

(** X17. [list_borrows_by_phone] returns the empty list when no member has
    the phone number, in particular for [None]; otherwise it returns
    [list_user_borrows] of a member who has that number. *)
Theorem list_borrows_by_phone_contract file phone active_only :
  ((∀ k u, Users file !! k = Some u → ¬ sql_eq (Users_phone u) phone) →
     get_user_id_by_phone phone file = None
     ∧ list_borrows_by_phone phone active_only file = [])
  ∧ (phone = None → list_borrows_by_phone phone active_only file = [])
  ∧ ((∃ k u, Users file !! k = Some u ∧ sql_eq (Users_phone u) phone) →
     ∃ k u, get_user_id_by_phone phone file = Some k
            ∧ Users file !! k = Some u ∧ Users_phone u = phone
            ∧ list_borrows_by_phone phone active_only file
              = list_user_borrows k active_only file).
Proof.
  assert (Hnone : (∀ k u, Users file !! k = Some u → ¬ sql_eq (Users_phone u) phone) →
            get_user_id_by_phone phone file = None
            ∧ list_borrows_by_phone phone active_only file = []).
  { intros Hno. unfold list_borrows_by_phone, get_user_id_by_phone.
    rewrite filter_nothing; [done|].
    intros [k u] Hin. apply elem_of_scan in Hin. by apply (Hno k u). }
  split; [exact Hnone|]. split.
  - intros ->. apply Hnone. intros k u _. destruct (Users_phone u); simpl; tauto.
  - intros (k0 & u0 & Hk0 & Hp0).
    unfold list_borrows_by_phone, get_user_id_by_phone.
    destruct (head (filter (λ r, sql_eq (Users_phone r.2) phone) (scan (Users file))))
      as [[k u]|] eqn:Hhead.
    + apply head_filter_elem in Hhead as [Hin Hp].
      apply elem_of_scan in Hin. simpl in Hp. exists k, u.
      split; [done|]. split; [done|]. split; [|done].
      destruct (Users_phone u), phone; simpl in Hp; [by subst|done..].
    + destruct (proj1 (head_filter_None _ _) Hhead (k0, u0)); [|done].
      by apply elem_of_scan.
Qed.

Lemma list_borrows_by_phone_contract_witness :
  list_borrows_by_phone (Some "000") true busy_library = []
  ∧ ∃ k u, get_user_id_by_phone (Some "050-1111111") busy_library = Some k
           ∧ Users busy_library !! k = Some u
           ∧ Users_phone u = Some "050-1111111"
           ∧ list_borrows_by_phone (Some "050-1111111") true busy_library
             = list_user_borrows k true busy_library.
Proof.
  split.
  - apply (proj1 (list_borrows_by_phone_contract busy_library (Some "000") true)).
    intros k u Hu. apply elem_of_map_to_list in Hu. vm_compute in Hu.
    repeat (apply elem_of_cons in Hu as [[= -> ->]|Hu]; [simpl; discriminate|]).
    destruct (proj1 (elem_of_nil _) Hu).
  - apply (proj2 (proj2 (list_borrows_by_phone_contract busy_library
                           (Some "050-1111111") true))).
    exists 1, {| Users_name := "Alice Cohen"; Users_phone := Some "050-1111111";
                 Users_email := Some "alice@example.com" |}.
    split; [vm_compute; reflexivity|reflexivity].
Defined.

Lemma length_filter_omap_in {A B : Type} (f : A → option B)
    (P : B → Prop) `{!∀ y, Decision (P y)}
    (Q : A → Prop) `{!∀ x, Decision (Q x)} (l : list A) :
  (∀ x, x ∈ l → (Q x ↔ ∃ y, f x = Some y ∧ P y)) →
  length (filter P (omap f l)) = length (filter Q l).
Proof.
  intros HQ. induction l as [|x l IH]; [done|].
  assert (Hx : Q x ↔ ∃ y, f x = Some y ∧ P y) by (apply HQ; left).
  assert (Hrest : length (filter P (omap f l)) = length (filter Q l)).
  { apply IH. intros z Hz. apply HQ. by right. }
  rewrite (filter_cons Q). cbn [omap list_omap].
  destruct (f x) as [y|] eqn:Hfx.
  - rewrite (filter_cons P).
    destruct (decide (P y)) as [HP|HP], (decide (Q x)) as [Hq|Hq]; simpl.
    + by rewrite Hrest.
    + destruct Hq. apply Hx. eauto.
    + apply Hx in Hq as (y' & Hy' & HP'). congruence.
    + done.
  - destruct (decide (Q x)) as [Hq|Hq]; [|done].
    apply Hx in Hq as (y' & Hy' & _). congruence.
Qed.

(** With the copies of all records present, a condition on the borrow
    columns selects as many rows from the join as from [Borrow] itself. *)
Lemma count_where_join file (Q : Borrow_row → Prop) `{!∀ b, Decision (Q b)}
    `{!∀ r : (Z * Borrow_row) * Books_row, Decision (Q r.1.2)} :
  book_references_resolve file →
  count_where Q (Borrow file)
  = length (filter (λ r : (Z * Borrow_row) * Books_row, Q r.1.2)
                   (Borrow_join_Books file)).
Proof.
  intros Hres. rewrite count_where_scan. unfold Borrow_join_Books. symmetry.
  apply length_filter_omap_in.
  intros [k b] Hin. apply elem_of_scan in Hin. simpl.
  destruct (Hres k b Hin) as [bk Hbk]. rewrite Hbk. simpl. split.
  - intros HQb. by exists ((k, b), bk).
  - by intros (y & [= <-] & HQy).
Qed.

(** X18. Where every borrow record's copy has a row, and so in every store
    the program produces, [count_borrowed_books_of_user] is the number of
    rows [borrowed_books_of_user] returns, for active borrows only and for
    the whole history alike. *)
Theorem count_matches_borrowed_books file user_id active_only :
  book_references_resolve file →
  count_borrowed_books_of_user user_id active_only file
  = length (borrowed_books_of_user user_id active_only file).
Proof.
  intros Hres.
  unfold count_borrowed_books_of_user, borrowed_books_of_user.
  destruct active_only; rewrite length_fmap, merge_sort_Permutation.
  - by apply (count_where_join file (λ b, Borrow_user_id b = user_id ∧ is_open b)).
  - by apply (count_where_join file (λ b, Borrow_user_id b = user_id)).
Qed.

Lemma count_matches_borrowed_books_witness :
  count_borrowed_books_of_user 2 false busy_library
  = length (borrowed_books_of_user 2 false busy_library).
Proof.
  apply count_matches_borrowed_books.
  unfold busy_library, stocked_library.
  do 2 (apply run_all_invariant; [apply book_references_step|]).
  intros i b Hb. simpl in Hb. by rewrite lookup_empty in Hb.
Defined.

(** * reports.py: what is out and what is in *)

Lemma currently_borrowed_elem file r :
  r ∈ currently_borrowed_books file →
  ∃ i b bk u,
    Borrow file !! i = Some b ∧ is_open b
    ∧ Books file !! Borrow_book_id b = Some bk
    ∧ Users file !! Borrow_user_id b = Some u
    ∧ bn_borrow_id r = i ∧ bn_book_id r = Borrow_book_id b
    ∧ bn_user_id r = Borrow_user_id b.
Proof.
  unfold currently_borrowed_books. rewrite list_elem_of_fmap.
  intros (x & -> & Hx).
  rewrite merge_sort_Permutation in Hx.
  apply list_elem_of_filter in Hx as [Hopen Hx].
  unfold Borrow_join_Books_Users in Hx.
  apply list_elem_of_omap in Hx as ([i b] & Hin & Hjoin).
  apply elem_of_scan in Hin. simpl in Hjoin.
  destruct (Books file !! Borrow_book_id b) as [bk|] eqn:Hbk; [|done].
  destruct (Users file !! Borrow_user_id b) as [u|] eqn:Hu; [|done].
  simpl in Hjoin. injection Hjoin as <-. simpl in *.
  by exists i, b, bk, u.
Qed.

(** X19. In a store reached without misuse of the override or of a null
    return date, no copy is reported both by [currently_borrowed_books]
    and by [currently_available_books].  Where all references resolve,
    [currently_borrowed_books] has one row per open borrow record. *)
Theorem borrowed_and_available_are_disjoint file :
  (ledger_reachable file →
   ∀ r a, r ∈ currently_borrowed_books file →
          a ∈ currently_available_books file → a.1.1.1 ≠ bn_book_id r)
  ∧ (book_references_resolve file → member_references_resolve file →
     length (currently_borrowed_books file) = count_where is_open (Borrow file)).
Proof.
  split.
  - intros Hreach r a Hr Ha Heq.
    destruct (ledger_reachable_consistent file Hreach) as [_ Hflag].
    apply currently_borrowed_elem in Hr
      as (i & b & bk & u & Hb & Hopen & Hbk & _ & _ & Hbook & _).
    destruct (Hflag i b Hb Hopen) as (bk' & Hbk' & Hav).
    unfold currently_available_books in Ha. apply list_elem_of_fmap in Ha.
    destruct Ha as ([k bka] & -> & Hin). apply available_rows in Hin as [Hk Hav1].
    simpl in Heq. rewrite Heq, Hbook, Hbk' in Hk. congruence.
  - intros Hbooks Husers. unfold currently_borrowed_books.
    rewrite length_fmap, merge_sort_Permutation, count_where_scan.
    unfold Borrow_join_Books_Users.
    apply (length_filter_omap_in _ _ (λ kr : Z * Borrow_row, is_open kr.2)).
    intros [k b] Hin. apply elem_of_scan in Hin. simpl.
    destruct (Hbooks k b Hin) as [bk Hbk]. destruct (Husers k b Hin) as [u Hu].
    rewrite Hbk, Hu. simpl. split.
    + intros Hopen. eexists. split; [reflexivity|done].
    + by intros (y & [= <-] & Hopen).
Qed.

Lemma borrowed_and_available_are_disjoint_witness :
  (3 : Z) ≠ 1
  ∧ length (currently_borrowed_books busy_library)
    = count_where is_open (Borrow busy_library).
Proof.
  assert (Hreach : ledger_reachable busy_library).
  { unfold busy_library, stocked_library.
    repeat (apply ledger_reachable_run_all; [|repeat constructor; eauto]).
    apply ledger_init. }
  split.
  - apply (proj1 (borrowed_and_available_are_disjoint busy_library) Hreach
             {| bn_borrow_id := 1; bn_book_id := 1; bn_title := "Harry Potter";
                bn_author := "J.K. Rowling"; bn_user_id := 1;
                bn_name := "Alice Cohen"; bn_borrow_date := "2025-12-19" |}
             (3, "Clean Code", "Robert C. Martin", Some 2008)).
    + assert (Hrows : currently_borrowed_books busy_library
                      = [{| bn_borrow_id := 1; bn_book_id := 1;
                            bn_title := "Harry Potter"; bn_author := "J.K. Rowling";
                            bn_user_id := 1; bn_name := "Alice Cohen";
                            bn_borrow_date := "2025-12-19" |}])
        by (vm_compute; reflexivity).
      rewrite Hrows. left.
    + assert (Hrows : currently_available_books busy_library
                      = [(3, "Clean Code", "Robert C. Martin", Some 2008);
                         (2, "Harry Potter", "J.K. Rowling", Some 1997)])
        by (vm_compute; reflexivity).
      rewrite Hrows. left.
  - apply (proj2 (borrowed_and_available_are_disjoint busy_library)).
    + unfold busy_library, stocked_library.
      do 2 (apply run_all_invariant; [apply book_references_step|]).
      intros i b Hb. simpl in Hb. by rewrite lookup_empty in Hb.
    + unfold busy_library, stocked_library.
      do 2 (apply run_all_invariant; [apply member_references_step|]).
      intros i b Hb. simpl in Hb. by rewrite lookup_empty in Hb.
Defined.

(** * reports.py: counts per member and per title *)

Section binds.
Context {A B : Type} (f : A → list B) (P : B → Prop) `{!∀ y, Decision (P y)}.

Lemma filter_bind_nothing (l : list A) :
  (∀ a y, a ∈ l → y ∈ f a → ¬ P y) → filter P (l ≫= f) = [].
Proof.
  intros Hno. apply filter_nothing. intros y Hy.
  apply list_elem_of_bind in Hy as (a & Hy & Ha). by apply (Hno a).
Qed.

Lemma filter_bind_the_one (l : list A) (x : A) :
  NoDup l → x ∈ l → (∀ y, y ∈ f x → P y) →
  (∀ a y, a ∈ l → a ≠ x → y ∈ f a → ¬ P y) →
  filter P (l ≫= f) = f x.
Proof.
  intros Hnd Hin Hall Hothers.
  induction Hnd as [|a l Ha Hnd IH]; [by apply elem_of_nil in Hin|].
  rewrite bind_cons, filter_app.
  apply elem_of_cons in Hin as [->|Hin].
  - rewrite filter_bind_nothing.
    + rewrite app_nil_r. clear -Hall.
      induction (f a) as [|y l' IH']; [done|].
      rewrite filter_cons_True by (apply Hall; left).
      f_equal. apply IH'. intros z Hz. apply Hall. by right.
    + intros a' y Ha' Hy. apply (Hothers a' y); [by right| |done].
      intros ->. done.
  - rewrite (filter_nothing P (f a)).
    + simpl. apply IH; [done|]. intros a' y Ha'. apply Hothers. by right.
    + intros y Hy. apply (Hothers a y); [by left| |done]. intros ->. done.
Qed.
End binds.

Lemma sum_list_perm (l1 l2 : list nat) : l1 ≡ₚ l2 → sum_list l1 = sum_list l2.
Proof. induction 1; simpl; lia. Qed.

Lemma by_user_count_desc_total : Total by_user_count_desc.
Proof. intros x y. unfold by_user_count_desc, desc. lia. Qed.

Lemma by_user_count_desc_trans : Transitive by_user_count_desc.
Proof. intros x y z. unfold by_user_count_desc, desc. lia. Qed.

Lemma left_join_rows_member file u r : r ∈ left_join_rows file u → r.1 = u.
Proof.
  unfold left_join_rows.
  destruct (filter (λ b, Borrow_user_id b.2 = u.1) (scan (Borrow file))) as [|b bs].
  - by intros ->%list_elem_of_singleton.
  - by intros (b' & -> & _)%list_elem_of_fmap.
Qed.

Lemma left_join_rows_nonempty file u : ∃ r, r ∈ left_join_rows file u.
Proof.
  unfold left_join_rows.
  destruct (filter (λ b, Borrow_user_id b.2 = u.1) (scan (Borrow file))) as [|b bs].
  - eexists. left.
  - eexists. rewrite fmap_cons. left.
Qed.

Lemma left_join_rows_count file u :
  length (filter (λ r, is_Some r.2) (left_join_rows file u))
  = count_where (λ b, Borrow_user_id b = u.1) (Borrow file).
Proof.
  rewrite (count_where_scan (λ b, Borrow_user_id b = u.1)). unfold left_join_rows.
  destruct (filter (λ b, Borrow_user_id b.2 = u.1) (scan (Borrow file))) as [|b bs].
  - done.
  - generalize (b :: bs). intros l. induction l as [|x l IH]; [done|].
    rewrite fmap_cons, filter_cons_True by (by eexists). simpl. by rewrite IH.
Qed.

(** X20. [users_by_borrow_count] has exactly one row for every member, also
    for a member who never borrowed, and none for anybody else; the row
    carries the member's name and the number of borrow records, open or
    closed, of that member; rows come in descending order of that number. *)
Theorem users_by_borrow_count_contract file :
  StronglySorted by_user_count_desc (users_by_borrow_count file)
  ∧ ∀ k, filter (λ r, uc_user_id r = k) (users_by_borrow_count file)
         = match Users file !! k with
           | Some u =>
               [{| uc_user_id := k; uc_name := Users_name u;
                   uc_borrow_count :=
                     count_where (λ b, Borrow_user_id b = k) (Borrow file) |}]
           | None => []
           end.
Proof.
  split.
  { apply StronglySorted_merge_sort;
      [apply by_user_count_desc_trans|apply by_user_count_desc_total]. }
  intros k.
  set (joined := Users_left_join_Borrow file).
  set (key := λ r : (Z * Users_row) * option (Z * Borrow_row), (r.1.1, Users_name r.1.2)).
  set (groups := remove_dups (key <$> joined)).
  set (g := λ k0 : Z * string,
              {| uc_user_id := k0.1; uc_name := k0.2;
                 uc_borrow_count :=
                   length (filter (λ r, is_Some r.2)
                             (filter (λ r, key r = k0) joined)) |}).
  assert (Hjoined : joined = scan (Users file) ≫= left_join_rows file) by done.
  assert (Hgroups : ∀ k0, k0 ∈ groups ↔
            ∃ u, Users file !! k0.1 = Some u ∧ k0.2 = Users_name u).
  { intros [k1 n1]. unfold groups.
    rewrite elem_of_remove_dups, list_elem_of_fmap. simpl. split.
    - intros (r & Hkey & Hr). rewrite Hjoined in Hr.
      apply list_elem_of_bind in Hr as ([k2 u2] & Hr & Hu2).
      apply left_join_rows_member in Hr. apply elem_of_scan in Hu2.
      unfold key in Hkey. rewrite Hr in Hkey. simpl in Hkey.
      injection Hkey as -> ->. eauto.
    - intros (u & Hu & ->).
      destruct (left_join_rows_nonempty file (k1, u)) as [r Hr].
      exists r. split.
      + unfold key. by rewrite (left_join_rows_member _ _ _ Hr).
      + rewrite Hjoined. apply list_elem_of_bind. exists (k1, u).
        split; [done|]. by apply elem_of_scan. }
  assert (Hperm : filter (λ r, uc_user_id r = k) (users_by_borrow_count file)
                  ≡ₚ filter (λ r, uc_user_id r = k) (g <$> groups)).
  { apply filter_Permutation, merge_sort_Permutation. }
  destruct (Users file !! k) as [u|] eqn:Hu.
  - rewrite (filter_the_one _ (g <$> groups) (g (k, Users_name u))) in Hperm.
    + apply Permutation_singleton_r in Hperm. rewrite Hperm. unfold g. simpl.
      f_equal. f_equal.
      rewrite Hjoined, (filter_bind_the_one _ _ _ (k, u)).
      * apply (left_join_rows_count file (k, u)).
      * apply NoDup_scan.
      * by apply elem_of_scan.
      * intros r Hr. unfold key. by rewrite (left_join_rows_member _ _ _ Hr).
      * intros [k2 u2] r Hin Hne Hr Hkey. apply elem_of_scan in Hin.
        unfold key in Hkey. rewrite (left_join_rows_member _ _ _ Hr) in Hkey.
        simpl in Hkey. injection Hkey as -> _. apply Hne. congruence.
    + apply list_elem_of_fmap. exists (k, Users_name u). split; [done|].
      apply Hgroups. simpl. eauto.
    + done.
    + intros r Hr Hk. apply list_elem_of_fmap in Hr as ([k1 n1] & -> & Hk1).
      simpl in Hk. subst k1.
      apply Hgroups in Hk1 as (u' & Hu' & Hn). simpl in *.
      rewrite Hu in Hu'. injection Hu' as <-. by subst n1.
    + apply NoDup_fmap_2_strong; [|apply NoDup_remove_dups].
      intros [k1 n1] [k2 n2] _ _ Heq. unfold g in Heq. simpl in Heq. congruence.
  - rewrite (filter_nothing _ (g <$> groups)) in Hperm.
    + by apply Permutation_nil_r in Hperm.
    + intros r Hr Hk. apply list_elem_of_fmap in Hr as ([k1 n1] & -> & Hk1).
      simpl in Hk. subst k1.
      apply Hgroups in Hk1 as (u' & Hu' & _). simpl in Hu'. congruence.
Qed.

Lemma users_by_borrow_count_contract_witness :
  filter (λ r, uc_user_id r = 2) (users_by_borrow_count busy_library)
  = [{| uc_user_id := 2; uc_name := "Bob Levi"; uc_borrow_count := 1 |}].
Proof.
  etrans; [apply (proj2 (users_by_borrow_count_contract busy_library) 2)|].
  vm_compute. reflexivity.
Defined.

Section group_counts.
Context {A K : Type} `{!EqDecision K} (key : A → K).

Lemma sum_list_indicator (k0 : K) (ks : list K) :
  NoDup ks → k0 ∈ ks →
  sum_list ((λ k, if decide (k0 = k) then 1 else 0)%nat <$> ks) = 1%nat.
Proof.
  intros Hnd Hin. induction Hnd as [|k ks Hk Hnd IH]; [by apply elem_of_nil in Hin|].
  rewrite fmap_cons. simpl. destruct (decide (k0 = k)) as [->|Hne].
  - assert (Hzero : sum_list ((λ k', if decide (k = k') then 1 else 0)%nat <$> ks)
                    = 0%nat).
    { clear -Hk. induction ks as [|k' ks IH]; [done|].
      rewrite fmap_cons. simpl.
      rewrite decide_False by (intros ->; apply Hk; left).
      apply IH. intros Hin. apply Hk. by right. }
    lia.
  - apply elem_of_cons in Hin as [?|Hin]; [done|]. by rewrite IH.
Qed.

Lemma group_counts_cover (l : list A) (ks : list K) :
  NoDup ks → (∀ x, x ∈ l → key x ∈ ks) →
  sum_list ((λ k, length (filter (λ x, key x = k) l)) <$> ks) = length l.
Proof.
  intros Hnd. induction l as [|x l IH]; intros Hcover.
  - simpl. clear. induction ks as [|k ks IH]; [done|]. by rewrite fmap_cons.
  - assert (Hsplit : ∀ ks',
      sum_list ((λ k, length (filter (λ y, key y = k) (x :: l))) <$> ks')
      = (sum_list ((λ k, if decide (key x = k) then 1 else 0)%nat <$> ks')
         + sum_list ((λ k, length (filter (λ y, key y = k) l)) <$> ks'))%nat).
    { intros ks'. induction ks' as [|k ks' IH']; [done|].
      rewrite !fmap_cons. simpl. rewrite IH', filter_cons.
      destruct (decide (key x = k)); simpl; lia. }
    rewrite Hsplit, sum_list_indicator; [|done|apply Hcover; left].
    simpl. f_equal. apply IH. intros y Hy. apply Hcover. by right.
Qed.
End group_counts.

(** X21. The borrow counts of [most_borrowed_books] add up to the number
    of borrow records, wherever every record's copy has a row (which holds
    in every store the program produces): no borrow is counted twice or
    left out. *)
Theorem most_borrowed_counts_add_up file :
  book_references_resolve file →
  sum_list (borrow_count <$> most_borrowed_books file) = size (Borrow file).
Proof.
  intros Hres. unfold most_borrowed_books.
  rewrite (sum_list_perm _ _ (fmap_Permutation _ _ _ (merge_sort_Permutation _ _))).
  rewrite <- list_fmap_compose.
  change (sum_list ((λ k, length (filter (λ jr, group_key jr = k)
                                         (join_Borrow_Books file)))
                      <$> remove_dups (group_key <$> join_Borrow_Books file))
          = size (Borrow file)).
  rewrite (group_counts_cover group_key (join_Borrow_Books file)).
  - unfold join_Borrow_Books.
    rewrite <- length_map_to_list, <- (length_fmap snd (map_to_list (Borrow file))).
    assert (Hall : ∀ b, b ∈ (map_to_list (Borrow file)).*2 →
              is_Some (Books file !! Borrow_book_id b)).
    { intros b Hb. apply elem_of_rows in Hb as [i Hi]. by apply (Hres i). }
    induction ((map_to_list (Borrow file)).*2) as [|b l IH]; [done|].
    cbn [omap list_omap].
    destruct (Hall b) as [bk Hbk]; [left|]. rewrite Hbk. simpl.
    f_equal. apply IH. intros b' Hb'. apply Hall. by right.
  - apply NoDup_remove_dups.
  - intros x Hx. apply elem_of_remove_dups, list_elem_of_fmap. eauto.
Qed.

Lemma most_borrowed_counts_add_up_witness :
  sum_list (borrow_count <$> most_borrowed_books busy_library)
  = size (Borrow busy_library).
Proof.
  apply most_borrowed_counts_add_up.
  unfold busy_library, stocked_library.
  do 2 (apply run_all_invariant; [apply book_references_step|]).
  intros i b Hb. simpl in Hb. by rewrite lookup_empty in Hb.
Defined.

(** * borrow.py and reports.py: active members and the history of a copy *)

(** X22. [list_active_users] lists exactly the members that have a row and
    at least one open borrow record, each member once however many copies
    the member holds, ordered by name. *)
Theorem list_active_users_contract file :
  (∀ k u, (k, u) ∈ list_active_users file ↔
          Users file !! k = Some u
          ∧ ∃ i b, Borrow file !! i = Some b ∧ is_open b ∧ Borrow_user_id b = k)
  ∧ NoDup (list_active_users file).*1
  ∧ StronglySorted (asc text_le (λ r, Users_name r.2)) (list_active_users file).
Proof.
  assert (Hmem : ∀ k u, (k, u) ∈ list_active_users file ↔
            Users file !! k = Some u
            ∧ ∃ i b, Borrow file !! i = Some b ∧ is_open b ∧ Borrow_user_id b = k).
  { intros k u. unfold list_active_users.
    rewrite merge_sort_Permutation, elem_of_remove_dups, list_elem_of_omap. split.
    - intros ([i b] & Hin & Hjoin).
      apply list_elem_of_filter in Hin as [Hopen Hin]. apply elem_of_scan in Hin.
      simpl in *. destruct (Users file !! Borrow_user_id b) as [u'|] eqn:Hu'; [|done].
      simpl in Hjoin. injection Hjoin as <- <-.
      split; [done|]. by exists i, b.
    - intros (Hu & i & b & Hb & Hopen & <-). exists (i, b). split.
      + apply list_elem_of_filter. split; [done|]. by apply elem_of_scan.
      + simpl. by rewrite Hu. }
  split; [exact Hmem|]. split.
  - apply NoDup_fmap_fst.
    + intros k u1 u2 H1 H2. apply Hmem in H1 as [H1 _]. apply Hmem in H2 as [H2 _].
      congruence.
    + unfold list_active_users. rewrite merge_sort_Permutation.
      apply NoDup_remove_dups.
  - apply StronglySorted_merge_sort.
    + apply asc_trans, text_le_trans.
    + apply asc_total, text_le_total.
Qed.

Lemma list_active_users_contract_witness :
  (1, {| Users_name := "Alice Cohen"; Users_phone := Some "050-1111111";
         Users_email := Some "alice@example.com" |}) ∈ list_active_users busy_library.
Proof.
  apply (proj1 (list_active_users_contract busy_library)).
  split; [vm_compute; reflexivity|].
  exists 1, {| Borrow_book_id := 1; Borrow_user_id := 1;
               Borrow_borrow_date := "2025-12-19"; Borrow_return_date := None |}.
  split; [vm_compute; reflexivity|]. by split.
Defined.

(** X23. Where every borrow record's member has a row, and so in every
    store the program produces: for a copy that has a row, or an identity
    that is an integer SQLite holds, [borrow_history_of_book] returns one
    row per borrow record of the copy, and an existing copy can be deleted
    exactly when that history is empty.  For an identity without a row that
    SQLite cannot hold it raises [OverflowError]. *)
Theorem delete_book_iff_no_history file book_id :
  member_references_resolve file →
  (is_Some (Books file !! book_id) ∨ int64 book_id = true →
     ∃ rows,
       borrow_history_of_book book_id file = Returns rows
       ∧ length rows = count_where (λ b, Borrow_book_id b = book_id) (Borrow file)
       ∧ (is_Some (Books file !! book_id) →
          (rows = [] ↔ ∃ file', delete_book book_id file = (Returns true, file'))))
  ∧ (Books file !! book_id = None → int64 book_id = false →
       borrow_history_of_book book_id file = Raises OverflowError).
Proof.
  intros Hres. split.
  2:{ intros Hbk Hint. unfold borrow_history_of_book.
      by rewrite (binds_absent _ _ Hbk), Hint. }
  intros Hbinds.
  assert (Hb : binds (Books file) book_id = true).
  { destruct Hbinds as [[bk Hbk]|Hint];
      [by eapply binds_found|by apply binds_int64]. }
  unfold borrow_history_of_book. rewrite Hb. eexists. split; [reflexivity|].
  match goal with |- length ?l = _ ∧ _ => set (rows := l) end.
  assert (Hlen : length rows
                 = count_where (λ b, Borrow_book_id b = book_id) (Borrow file)).
  { unfold rows.
    rewrite length_fmap, merge_sort_Permutation, count_where_scan.
    apply (length_filter_omap_in _ _ (λ kr : Z * Borrow_row, Borrow_book_id kr.2 = book_id)).
    intros [k b] Hin. apply elem_of_scan in Hin. simpl.
    destruct (Hres k b Hin) as [u Hu]. rewrite Hu. simpl. split.
    - intros Hk. eexists. split; [reflexivity|done].
    - by intros (y & [= <-] & Hk). }
  split; [exact Hlen|].
  intros [bk Hbk]. rewrite delete_book_eq, Hb, Hbk, <- Hlen. split.
  - intros ->. simpl. eauto.
  - intros [file' Hrun].
    destruct rows; [done|]. simpl in Hrun. done.
Qed.

Lemma delete_book_iff_no_history_witness :
  (∃ rows,
     borrow_history_of_book 3 busy_library = Returns rows
     ∧ (rows = [] ↔ ∃ file', delete_book 3 busy_library = (Returns true, file')))
  ∧ borrow_history_of_book 9223372036854775808 busy_library = Raises OverflowError.
Proof.
  assert (Hbusy : member_references_resolve busy_library).
  { unfold busy_library, stocked_library.
    do 2 (apply run_all_invariant; [apply member_references_step|]).
    intros i b Hb. simpl in Hb. by rewrite lookup_empty in Hb. }
  split.
  - destruct (proj1 (delete_book_iff_no_history busy_library 3 Hbusy)
                (or_intror eq_refl)) as (rows & Hrun & _ & Hiff).
    exists rows. split; [exact Hrun|]. apply Hiff.
    exists {| Books_title := "Clean Code"; Books_author := "Robert C. Martin";
              Books_year := Some 2008; Books_available := 1 |}.
    vm_compute. reflexivity.
  - apply (proj2 (delete_book_iff_no_history busy_library 9223372036854775808 Hbusy));
      vm_compute; reflexivity.
Defined.

(** X24. In every store the program's operations produce from the empty
    one, every borrow record references a member that has a row and a
    copy that has a row. *)
Theorem reachable_references_resolve_both cs i b :
  Borrow (run_all cs init_db) !! i = Some b →
  is_Some (Users (run_all cs init_db) !! Borrow_user_id b)
  ∧ is_Some (Books (run_all cs init_db) !! Borrow_book_id b).
Proof.
  revert i b.
  pose (P := λ d, member_references_resolve d ∧ book_references_resolve d).
  assert (HP : P (run_all cs init_db)).
  { apply run_all_invariant.
    - intros d d' Heff [Hm Hb].
      split; [by eapply member_references_step|by eapply book_references_step].
    - split; intros i b Hb; simpl in Hb; by rewrite lookup_empty in Hb. }
  destruct HP as [Hm Hb]. intros i b Hi. split; [by eapply Hm|by eapply Hb].
Qed.

Lemma reachable_references_resolve_both_witness :
  is_Some (Users (run_all override_script init_db) !! 1)
  ∧ is_Some (Books (run_all override_script init_db) !! 1).
Proof.
  apply (reachable_references_resolve_both override_script 2
           {| Borrow_book_id := 1; Borrow_user_id := 1;
              Borrow_borrow_date := "2025-01-02"; Borrow_return_date := None |}).
  vm_compute. reflexivity.
Defined.
